(** * The AHP pairwise-comparison client

    A shallow embedding of the two client scripts of the repository,
    [src/static/js/ahp.js] (module [Ahp]) and [src/unnamed/part_000]
    (module [Part000]), over a small model of the browser page they run in
    (module [JS]), followed by the properties proved about them.

    Numbers are IEEE-754 binary64 values, as in JavaScript: Rocq's primitive
    floats.  Strings are sequences of 8-bit code units.

    The scripts build HTML from the names they are given and assign it to
    [innerHTML] without escaping.  The page of the model records what is
    written; the document the browser builds from it is what was written
    when the names carry no markup, and the parser's otherwise. *)

From Stdlib Require Import Floats Ascii String DecimalString DecimalNat.
From stdpp Require Import base option list strings gmap sorting.

Local Open Scope string_scope.
Local Open Scope list_scope.
Local Open Scope nat_scope.

(** ** The page and the part of the JavaScript runtime the scripts use *)

Module JS.

(** JavaScript values as [response.json()] produces them, and [undefined],
    which a read of a missing property gives.  An object is the table of
    its own properties; a read takes the first entry of a key. *)
#[warnings="-register-all"]
Inductive value :=
| VUndefined
| VNull
| VBool (b : bool)
| VNum (x : float)
| VStr (s : string)
| VArr (elements : list value)
| VObj (props : list (string * value)).

(** Thrown values and promise rejections: an error with a name and a
    message.  The message texts are the engine's and no property below
    depends on them. *)
Record exn := Error { exn_name : string; exn_message : string }.

Definition TypeError (message : string) : exn := Error "TypeError" message.

(** [Error.prototype.toString]. *)
Definition exn_toString (e : exn) : string :=
  if String.eqb (exn_name e) "" then exn_message e
  else if String.eqb (exn_message e) "" then exn_name e
  else exn_name e +:+ ": " +:+ exn_message e.

(** The decimal digits of an array index or a loop counter in a template
    literal. *)
Definition string_of_nat (n : nat) : string :=
  NilEmpty.string_of_uint (Nat.to_uint n).

(** [String.prototype.replace] with a one-character pattern: the first
    occurrence only. *)
Fixpoint replace (pattern : ascii) (replacement : string) (s : string) : string :=
  match s with
  | EmptyString => EmptyString
  | String c s' =>
      if Ascii.eqb c pattern then replacement +:+ s'
      else String c (replace pattern replacement s')
  end.

(** WhiteSpace and LineTerminator code units below 256: TAB, LF, VT, FF,
    CR, SP and NBSP. *)
Definition is_whitespace (c : ascii) : bool :=
  let n := nat_of_ascii c in
  (Nat.leb 9 n && Nat.leb n 13) || Nat.eqb n 32 || Nat.eqb n 160.

Fixpoint trimStart (s : string) : string :=
  match s with
  | EmptyString => EmptyString
  | String c s' => if is_whitespace c then trimStart s' else s
  end.

Definition trimEnd (s : string) : string :=
  String.rev (trimStart (String.rev s)).

(** [String.prototype.trim] *)
Definition trim (s : string) : string := trimEnd (trimStart s).

(** *** Text and markup

    The scripts write the names they are given into [innerHTML] as they
    are, without escaping them.  A name without the characters the HTML
    parser acts on is rendered as the text it is; these characters are
    '<' (it opens a tag), '&' (it opens a character reference), NUL (it is
    dropped) and CR (it becomes LF). *)
Definition is_markup (c : ascii) : bool :=
  let n := nat_of_ascii c in
  Nat.eqb n 60 || Nat.eqb n 38 || Nat.eqb n 0 || Nat.eqb n 13.

Fixpoint markup_free (s : string) : Prop :=
  match s with
  | EmptyString => True
  | String c s' => is_markup c = false ∧ markup_free s'
  end.

Fixpoint markup_free_dec (s : string) : Decision (markup_free s) :=
  match s return Decision (markup_free s) with
  | EmptyString => left I
  | String c s' =>
      and_dec (decide (is_markup c = false)) (markup_free_dec s')
  end.
#[global] Existing Instance markup_free_dec.

(** *** Elements of the page

    The records below hold what the scripts write into the elements.  The
    document is read as holding just that: each name as a text, and no
    input besides the radios written.  That is the document the browser
    builds when the names written carry no markup ([document_as_written]);
    what it builds from a name with markup is the parser's, and the
    properties that read the document back are stated for names without. *)

(** One radio button as [createRadio] writes it:
    [<div><input type="radio" id name value checked?>
          <label for class><span>text</span></label></div>]. *)
Record radio := {
  input_id : string;
  input_name : string;
  input_value : string;
  input_checked : bool;
  label_for : string;
  label_class : string;
  span_text : string
}.

(** One [<div class="comparison-row">]: the two names written into the
    labels of its header and the radios of its [radio-scale]. *)
Record comparison_row := {
  compare_label_left : string;
  compare_label_right : string;
  radio_scale : list radio
}.

(** The built-ins of the browser the scripts rely on.  They are parameters
    of the development: each property is proved for every implementation
    of them, and a property that needs a fact about one states it as a
    hypothesis. *)
Class Runtime := {
  (** [Number.prototype.toString], also the conversion in a template literal *)
  Number_toString : float → string;
  parseFloat : string → float;
  (** the conversion of an operand of [*]; [None]: it throws a TypeError,
      as it does on an object whose own [toString] is not a function *)
  ToNumber : value → option float;
  (** the conversion of an operand of string [+] and of a template
      literal; [None]: it throws a TypeError *)
  ToString : value → option string;
  (** [Number.prototype.toFixed] *)
  toFixed : float → nat → string;
  JSON_stringify : value → string;
  (** the HTML parser on comparison rows whose labels carry markup: the
      rows it leaves in the document, with the inputs the markup adds *)
  parse_rows : list comparison_row → list comparison_row
}.

(** The pieces [displayResults] appends to its [html], with the strings
    it writes into them. *)
Inductive fragment :=
| H3 (text : string)
| WeightItem (criterion weight : string)
| Consistency (crClass ratio crMessage : string)
| NextBtn (href text : string).

(** One [<div class="criteria-tag">] of the document: the [textContent]
    of its span (its Remove button calls [removeCriteria(this)]). *)
Record criteria_tag := { tag_span : string }.

(** The body of the POST to [/calculate_ahp], before [JSON.stringify]. *)
Record request := {
  req_url : string;
  req_criteria : list string;
  req_pairwise_matrix : list (list float)
}.

(** The globals of a script, the elements it reaches by id, the
    [localStorage] of the origin, and the log of its [alert] and [fetch]
    calls.  The elements are taken to exist in the page. *)
Record page := {
  criteria : list string;
  weights : value;
  pairwiseComparisonsContainer : list comparison_row;
  pairwiseSection_display : string;
  results_innerHTML : list fragment;
  results_display : string;
  newCriteria_value : string;
  (** the names written into the spans of the criteria tags *)
  criteriaList : list string;
  localStorage : gmap string string;
  alerts : list string;
  fetches : list request
}.

Definition set_criteria (v : list string) (p : page) : page :=
  {| criteria := v; weights := weights p;
     pairwiseComparisonsContainer := pairwiseComparisonsContainer p;
     pairwiseSection_display := pairwiseSection_display p;
     results_innerHTML := results_innerHTML p;
     results_display := results_display p;
     newCriteria_value := newCriteria_value p;
     criteriaList := criteriaList p;
     localStorage := localStorage p; alerts := alerts p;
     fetches := fetches p |}.

Definition set_weights (v : value) (p : page) : page :=
  {| criteria := criteria p; weights := v;
     pairwiseComparisonsContainer := pairwiseComparisonsContainer p;
     pairwiseSection_display := pairwiseSection_display p;
     results_innerHTML := results_innerHTML p;
     results_display := results_display p;
     newCriteria_value := newCriteria_value p;
     criteriaList := criteriaList p;
     localStorage := localStorage p; alerts := alerts p;
     fetches := fetches p |}.

Definition set_container (v : list comparison_row) (p : page) : page :=
  {| criteria := criteria p; weights := weights p;
     pairwiseComparisonsContainer := v;
     pairwiseSection_display := pairwiseSection_display p;
     results_innerHTML := results_innerHTML p;
     results_display := results_display p;
     newCriteria_value := newCriteria_value p;
     criteriaList := criteriaList p;
     localStorage := localStorage p; alerts := alerts p;
     fetches := fetches p |}.

Definition set_pairwiseSection_display (v : string) (p : page) : page :=
  {| criteria := criteria p; weights := weights p;
     pairwiseComparisonsContainer := pairwiseComparisonsContainer p;
     pairwiseSection_display := v;
     results_innerHTML := results_innerHTML p;
     results_display := results_display p;
     newCriteria_value := newCriteria_value p;
     criteriaList := criteriaList p;
     localStorage := localStorage p; alerts := alerts p;
     fetches := fetches p |}.

Definition set_results_innerHTML (v : list fragment) (p : page) : page :=
  {| criteria := criteria p; weights := weights p;
     pairwiseComparisonsContainer := pairwiseComparisonsContainer p;
     pairwiseSection_display := pairwiseSection_display p;
     results_innerHTML := v;
     results_display := results_display p;
     newCriteria_value := newCriteria_value p;
     criteriaList := criteriaList p;
     localStorage := localStorage p; alerts := alerts p;
     fetches := fetches p |}.

Definition set_results_display (v : string) (p : page) : page :=
  {| criteria := criteria p; weights := weights p;
     pairwiseComparisonsContainer := pairwiseComparisonsContainer p;
     pairwiseSection_display := pairwiseSection_display p;
     results_innerHTML := results_innerHTML p;
     results_display := v;
     newCriteria_value := newCriteria_value p;
     criteriaList := criteriaList p;
     localStorage := localStorage p; alerts := alerts p;
     fetches := fetches p |}.

Definition set_newCriteria_value (v : string) (p : page) : page :=
  {| criteria := criteria p; weights := weights p;
     pairwiseComparisonsContainer := pairwiseComparisonsContainer p;
     pairwiseSection_display := pairwiseSection_display p;
     results_innerHTML := results_innerHTML p;
     results_display := results_display p;
     newCriteria_value := v;
     criteriaList := criteriaList p;
     localStorage := localStorage p; alerts := alerts p;
     fetches := fetches p |}.

Definition set_criteriaList (v : list string) (p : page) : page :=
  {| criteria := criteria p; weights := weights p;
     pairwiseComparisonsContainer := pairwiseComparisonsContainer p;
     pairwiseSection_display := pairwiseSection_display p;
     results_innerHTML := results_innerHTML p;
     results_display := results_display p;
     newCriteria_value := newCriteria_value p;
     criteriaList := v;
     localStorage := localStorage p; alerts := alerts p;
     fetches := fetches p |}.

(** [localStorage.setItem(key, text)] *)
Definition setItem (key text : string) (p : page) : page :=
  {| criteria := criteria p; weights := weights p;
     pairwiseComparisonsContainer := pairwiseComparisonsContainer p;
     pairwiseSection_display := pairwiseSection_display p;
     results_innerHTML := results_innerHTML p;
     results_display := results_display p;
     newCriteria_value := newCriteria_value p;
     criteriaList := criteriaList p;
     localStorage := <[key := text]> (localStorage p); alerts := alerts p;
     fetches := fetches p |}.

(** [alert(message)] *)
Definition alert (message : string) (p : page) : page :=
  {| criteria := criteria p; weights := weights p;
     pairwiseComparisonsContainer := pairwiseComparisonsContainer p;
     pairwiseSection_display := pairwiseSection_display p;
     results_innerHTML := results_innerHTML p;
     results_display := results_display p;
     newCriteria_value := newCriteria_value p;
     criteriaList := criteriaList p;
     localStorage := localStorage p; alerts := alerts p ++ [message];
     fetches := fetches p |}.

(** [fetch(url, {method: 'POST', ..., body})]: the request leaves the page *)
Definition send (r : request) (p : page) : page :=
  {| criteria := criteria p; weights := weights p;
     pairwiseComparisonsContainer := pairwiseComparisonsContainer p;
     pairwiseSection_display := pairwiseSection_display p;
     results_innerHTML := results_innerHTML p;
     results_display := results_display p;
     newCriteria_value := newCriteria_value p;
     criteriaList := criteriaList p;
     localStorage := localStorage p; alerts := alerts p;
     fetches := fetches p ++ [r] |}.

(** *** The document the browser builds from what was written *)

(** The two labels of a comparison row carry no markup. *)
Definition row_plain (row : comparison_row) : Prop :=
  markup_free (compare_label_left row) ∧ markup_free (compare_label_right row).

(** The name a weight item shows carries no markup.  (The other texts of
    the results are those of the script and the digits of numbers.) *)
Definition fragment_plain (f : fragment) : Prop :=
  match f with
  | WeightItem criterion _ => markup_free criterion
  | _ => True
  end.

#[global] Instance row_plain_dec (row : comparison_row)
  : Decision (row_plain row) :=
  and_dec (markup_free_dec (compare_label_left row))
          (markup_free_dec (compare_label_right row)).

#[global] Instance fragment_plain_dec (f : fragment)
  : Decision (fragment_plain f) :=
  match f return Decision (fragment_plain f) with
  | WeightItem criterion _ => markup_free_dec criterion
  | _ => left I
  end.

(** Every name written into the page is free of markup: the document
    holds what the records say, and no element besides. *)
Definition document_as_written (p : page) : Prop :=
  Forall markup_free (criteriaList p) ∧
  Forall row_plain (pairwiseComparisonsContainer p) ∧
  Forall fragment_plain (results_innerHTML p).

(** The criteria tags of the document, when the names written into them
    are free of markup: one tag per name, its span showing the name. *)
Definition tags_shown (p : page) : option (list criteria_tag) :=
  if decide (Forall markup_free (criteriaList p))
  then Some (map (λ c, {| tag_span := c |}) (criteriaList p))
  else None.

(** The comparison rows of the document, when the labels written are free
    of markup. *)
Definition rows_shown (p : page) : option (list comparison_row) :=
  if decide (Forall row_plain (pairwiseComparisonsContainer p))
  then Some (pairwiseComparisonsContainer p)
  else None.

(** The comparison rows of the document: those written, or what the
    parser makes of them when a label carries markup. *)
Definition document_rows `{!Runtime} (p : page) : list comparison_row :=
  default (parse_rows (pairwiseComparisonsContainer p)) (rows_shown p).

(** The content of the results element, when the names written into it
    are free of markup. *)
Definition results_shown (p : page) : option (list fragment) :=
  if decide (Forall fragment_plain (results_innerHTML p))
  then Some (results_innerHTML p)
  else None.

(** The radio inputs of the page, in document order. *)
Definition inputs (rows : list comparison_row) : list radio :=
  concat (map radio_scale rows).

(** [document.querySelector(`input[name="${name}"]:checked`)]: the first
    checked input of that name, or [null].  The inputs searched are the
    radios written into the comparison rows: the page is taken to hold no
    other input that can be checked, which is so when nothing written
    into it carries markup. *)
Definition querySelector_checked (p : page) (name : string) : option radio :=
  find (λ r, bool_decide (input_name r = name) && input_checked r)
       (inputs (pairwiseComparisonsContainer p)).

Definition set_checked (b : bool) (r : radio) : radio :=
  {| input_id := input_id r; input_name := input_name r;
     input_value := input_value r; input_checked := b;
     label_for := label_for r; label_class := label_class r;
     span_text := span_text r |}.

Definition set_radio_scale (rs : list radio) (row : comparison_row)
  : comparison_row :=
  {| compare_label_left := compare_label_left row;
     compare_label_right := compare_label_right row;
     radio_scale := rs |}.

(** The user checks radio [k] of comparison row [row]: the browser checks
    it and unchecks every other radio of its name. *)
Definition check_radio (row k : nat) (rows : list comparison_row)
  : list comparison_row :=
  match rows !! row ≫= λ r, radio_scale r !! k with
  | None => rows
  | Some target =>
      imap (λ a r,
        set_radio_scale
          (imap (λ b x,
             if bool_decide (a = row ∧ b = k) then set_checked true x
             else if String.eqb (input_name x) (input_name target)
                  then set_checked false x
                  else x) (radio_scale r)) r) rows
  end.

(** The rows with every radio unchecked: what a selection cannot change. *)
Definition erase_checked (rows : list comparison_row) : list comparison_row :=
  map (λ r, set_radio_scale (map (set_checked false) (radio_scale r)) r) rows.

(** The page as loaded, before any script has run: nothing rendered, and
    whatever the origin has stored. *)
Definition blank_page (storage : gmap string string) : page :=
  {| criteria := []; weights := VUndefined;
     pairwiseComparisonsContainer := [];
     pairwiseSection_display := "";
     results_innerHTML := [];
     results_display := "";
     newCriteria_value := "";
     criteriaList := [];
     localStorage := storage; alerts := [];
     fetches := [] |}.

(** *** Loops *)

(** [for (let i = lo; i < hi; i++) acc = body(i, acc)] *)
Fixpoint for_loop {A} (count i : nat) (body : nat → A → A) (acc : A) : A :=
  match count with
  | 0 => acc
  | S count' => for_loop count' (S i) body (body i acc)
  end.

Definition for_range {A} (lo hi : nat) (body : nat → A → A) (acc : A) : A :=
  for_loop (hi - lo) lo body acc.

(** The same loop with a body that can fail; the first failure ends it. *)
Fixpoint for_loopM {A} (count i : nat) (body : nat → A → option A) (acc : A)
  : option A :=
  match count with
  | 0 => Some acc
  | S count' => acc' ← body i acc; for_loopM count' (S i) body acc'
  end.

Definition for_rangeM {A} (lo hi : nat) (body : nat → A → option A) (acc : A)
  : option A :=
  for_loopM (hi - lo) lo body acc.

(** *** Arrays of arrays of numbers *)

Abbreviation matrix := (list (list float)).

(** [Array.from({ length: n }, () => Array(n).fill(x))]: n rows, each a
    fresh array. *)
Definition Array_from_fill (n : nat) (x : float) : matrix :=
  replicate n (replicate n x).

(** [m[i][j] = v] for an existing row [i] and an index [j] inside it.
    Outside that range JavaScript throws (no row [i]) or grows the row
    (index past its end); the model gives [None] there, and
    [getPairwiseMatrix] is proved never to reach it. *)
Definition set_cell (m : matrix) (i j : nat) (v : float) : option matrix :=
  row ← m !! i;
  if decide (j < length row) then Some (<[i := <[j := v]> row]> m) else None.

(** [m[i][j]] *)
Definition cell (m : matrix) (i j : nat) : option float :=
  row ← m !! i; row !! j.

(** *** Computations that can throw *)

Inductive outcome (A : Type) :=
| Returned (a : A)
| Thrown (e : exn).
Arguments Returned {A} a.
Arguments Thrown {A} e.

(** A computation on the page: its outcome and the page it leaves.  The
    effects made before a throw stay. *)
Definition M (A : Type) : Type := page → outcome A * page.

Definition ret {A} (a : A) : M A := λ p, (Returned a, p).

Definition throw {A} (e : exn) : M A := λ p, (Thrown e, p).

Definition bind {A B} (m : M A) (k : A → M B) : M B :=
  λ p, match m p with
       | (Returned a, p') => k a p'
       | (Thrown e, p') => (Thrown e, p')
       end.

(** [try { body } catch (error) { handler(error) }] *)
Definition try_catch {A} (body : M A) (handler : exn → M A) : M A :=
  λ p, match body p with
       | (Returned a, p') => (Returned a, p')
       | (Thrown e, p') => handler e p'
       end.

(** A statement that only changes the page. *)
Definition exec (f : page → page) : M unit := λ p, (Returned tt, f p).

(** A read of the page. *)
Definition read {A} (f : page → A) : M A := λ p, (Returned (f p), p).

Declare Scope js_scope.
Delimit Scope js_scope with js.
Notation "'let*' x := m 'in' k" := (bind m (λ x, k))
  (at level 10, x name, m at level 100, k at level 200) : js_scope.
Notation "m ;;; k" := (bind m (λ _, k))
  (at level 100, k at level 200, right associativity) : js_scope.

(** The own property [key] of an object, [undefined] when it has none. *)
Definition own_prop (props : list (string * value)) (key : string) : value :=
  default VUndefined (snd <$> find (λ kv, String.eqb (fst kv) key) props).

(** [obj.key] for the property names the scripts read ([success],
    [weights], [error], [criteria], [is_consistent], [consistency_ratio]):
    none of them is a property of a prototype, so only an object's own
    table can hold one.  [None]: the read throws a TypeError. *)
Definition read_prop (obj : value) (key : string) : option value :=
  match obj with
  | VUndefined | VNull => None
  | VObj props => Some (own_prop props key)
  | _ => Some VUndefined
  end.

Definition get_prop (obj : value) (key : string) : M value :=
  match read_prop obj key with
  | Some v => ret v
  | None =>
      throw (TypeError ("Cannot read properties of null or undefined (reading '"
                        +:+ key +:+ "')"))
  end.

(** [obj[index]] for a number [index]; [None]: the read throws. *)
Definition read_index (obj : value) (index : nat) : option value :=
  match obj with
  | VUndefined | VNull => None
  | VArr elements => Some (default VUndefined (elements !! index))
  | VStr s =>
      Some (match String.get index s with
            | Some c => VStr (String c EmptyString)
            | None => VUndefined
            end)
  | VObj props => Some (own_prop props (string_of_nat index))
  | _ => Some VUndefined
  end.

Definition get_index (obj : value) (index : nat) : M value :=
  match read_index obj index with
  | Some v => ret v
  | None =>
      throw (TypeError ("Cannot read properties of null or undefined (reading '"
                        +:+ string_of_nat index +:+ "')"))
  end.

(** The truth value of a condition. *)
Definition ToBoolean (v : value) : bool :=
  match v with
  | VUndefined | VNull => false
  | VBool b => b
  | VNum x => negb (PrimFloat.eqb x 0 || PrimFloat.is_nan x)
  | VStr s => negb (String.eqb s "")
  | VArr _ | VObj _ => true
  end.

(** [arr.forEach((element, index) => body)], with the variables the body
    updates threaded through as [acc].  Only an array has [forEach]. *)
Fixpoint forEach_from {A} (elements : list value) (index : nat)
    (body : value → nat → A → M A) (acc : A) : M A :=
  match elements with
  | [] => ret acc
  | element :: rest =>
      bind (body element index acc) (forEach_from rest (S index) body)
  end.

Definition forEach {A} (arr : value) (body : value → nat → A → M A) (acc : A)
  : M A :=
  match arr with
  | VArr elements => forEach_from elements 0 body acc
  | VUndefined | VNull =>
      throw (TypeError "Cannot read properties of null or undefined (reading 'forEach')")
  | _ => throw (TypeError "forEach is not a function")
  end.

(** [x.toFixed(digits)]: only a number has [toFixed]. *)
Definition call_toFixed `{!Runtime} (x : value) (digits : nat) : M string :=
  match x with
  | VNum n => ret (toFixed n digits)
  | VUndefined | VNull =>
      throw (TypeError "Cannot read properties of null or undefined (reading 'toFixed')")
  | _ => throw (TypeError "toFixed is not a function")
  end.

(** The conversions, as computations: a failed one throws. *)
Definition to_number `{!Runtime} (v : value) : M float :=
  match ToNumber v with
  | Some x => ret x
  | None => throw (TypeError "Cannot convert object to primitive value")
  end.

Definition to_string `{!Runtime} (v : value) : M string :=
  match ToString v with
  | Some text => ret text
  | None => throw (TypeError "Cannot convert object to primitive value")
  end.

(** What the network gives back to one [fetch] followed by
    [response.json()]: either promise can reject. *)
Inductive network :=
| FetchRejects (e : exn)
| JsonRejects (e : exn)
| JsonResolves (data : value).

End JS.

Import JS.
Local Open Scope js_scope.

(** ** [src/static/js/ahp.js] *)

Module Ahp.

Section Script.
Context `{!Runtime}.

(** [const criteria = [...]] *)
Definition criteria0 : list string :=
  [ "Price";
    "Recommendations Total";
    "Release Year";
    "Min RAM";
    "CPU Min";
    "GPU Min";
    "Steam Rating Label";
    "Steam Chart Player 30d Avg";
    "Steam Chart Current Player" ].

(** [let weights = []] *)
Definition weights0 : value := VArr [].

Definition createRadio (name : string) (value : float) (text : string)
    (isChecked : bool) : radio :=
  let radioId :=
    "radio_" +:+ name +:+ "_" +:+ replace "." "_" (Number_toString value) in
  let checkedAttr := if isChecked then "checked" else "" in
  let labelClass := if (value =? 1)%float then "center-label" else "" in
  {| input_id := radioId;
     input_name := name;
     input_value := Number_toString value;
     input_checked := negb (String.eqb checkedAttr "");
     label_for := radioId;
     label_class := labelClass;
     span_text := text |}.

(** [`compare_${i}_${j}`] *)
Definition compare_name (i j : nat) : string :=
  "compare_" +:+ string_of_nat i +:+ "_" +:+ string_of_nat j.

(** [`${criteria[i]}`]: an index past the end reads [undefined]. *)
Definition criteria_at (p : page) (i : nat) : string :=
  default "undefined" (criteria p !! i).

(** The rows are recorded as written, each name unescaped between the
    tags of its label; [document_rows] is what the document then holds. *)
Definition generatePairwiseComparisons (p : page) : page :=
  if length (criteria p) <? 2 then
    alert "Please add at least 2 criteria" p
  else
    let n := length (criteria p) in
    let p := set_container [] p in
    let html := [] in
    let html :=
      for_range 0 n (λ i html,
        for_range (i + 1) n (λ j html,
          let name := compare_name i j in
          html ++
          [ {| compare_label_left := criteria_at p i;
               compare_label_right := criteria_at p j;
               radio_scale :=
                 [ createRadio name 9 "9" false;
                   createRadio name 8 "8" false;
                   createRadio name 7 "7" false;
                   createRadio name 6 "6" false;
                   createRadio name 5 "5" false;
                   createRadio name 4 "4" false;
                   createRadio name 3 "3" false;
                   createRadio name 2 "2" false;
                   createRadio name 1 "1" true;
                   createRadio name (1 / 2) "2" false;
                   createRadio name (1 / 3) "3" false;
                   createRadio name (1 / 4) "4" false;
                   createRadio name (1 / 5) "5" false;
                   createRadio name (1 / 6) "6" false;
                   createRadio name (1 / 7) "7" false;
                   createRadio name (1 / 8) "8" false;
                   createRadio name (1 / 9) "9" false ] |} ]) html) html in
    let p := set_container html p in
    set_pairwiseSection_display "block" p.

Definition getPairwiseMatrix (p : page) : option matrix :=
  let n := length (criteria p) in
  let matrix := Array_from_fill n 1 in
  for_rangeM 0 n (λ i matrix,
    for_rangeM (i + 1) n (λ j matrix,
      let name := compare_name i j in
      let checkedRadio := querySelector_checked p name in
      match checkedRadio with
      | Some checkedRadio =>
          let value := parseFloat (input_value checkedRadio) in
          matrix ← set_cell matrix i j value;
          set_cell matrix j i (1 / value)
      | None => Some matrix
      end) matrix) matrix.

(** The content is recorded as written, each criterion unescaped in its
    weight item; [results_shown] is what the results element then
    holds. *)
Definition displayResults (data : value) : M unit :=
  let html := [H3 "Criteria Weights"] in
  let* data_criteria := get_prop data "criteria" in
  let* html :=
    forEach data_criteria (λ criterion index html,
      let* data_weights := get_prop data "weights" in
      let* w := get_index data_weights index in
      let* x := to_number w in
      let weight := toFixed (x * 100) 2 in
      let* text := to_string criterion in
      ret (html ++ [WeightItem text weight])) html in
  let* is_consistent := get_prop data "is_consistent" in
  let crClass := if ToBoolean is_consistent then "good" else "bad" in
  let crMessage :=
    if ToBoolean is_consistent
    then "Matrix is consistent (CR < 0.1)"
    else "Matrix is inconsistent (CR >= 0.1). Please review your comparisons." in
  let* consistency_ratio := get_prop data "consistency_ratio" in
  let* ratio := call_toFixed consistency_ratio 4 in
  let html := html ++ [Consistency crClass ratio crMessage] in
  let* html :=
    if ToBoolean is_consistent then
      let* data_weights := get_prop data "weights" in
      exec (setItem "ahp_weights" (JSON_stringify data_weights)) ;;;
      let* data_criteria := get_prop data "criteria" in
      exec (setItem "ahp_criteria" (JSON_stringify data_criteria)) ;;;
      ret (html ++ [NextBtn "/saw" "Next: SAW Ranking"])
    else ret html in
  exec (set_results_innerHTML html) ;;;
  exec (set_results_display "block").

(** The block of the [try] of [calculateWeights].  The function is
    [async]: [net] is what its two [await]s resume with. *)
Definition calculateWeights_try (matrix : matrix) (net : network) : M unit :=
  let* criteria := read criteria in
  exec (send {| req_url := "/calculate_ahp";
                req_criteria := criteria;
                req_pairwise_matrix := matrix |}) ;;;
  let* data :=
    match net with
    | FetchRejects e => throw e
    | JsonRejects e => throw e
    | JsonResolves data => ret data
    end in
  let* success := get_prop data "success" in
  match success with
  | VBool true =>
      let* data_weights := get_prop data "weights" in
      exec (set_weights data_weights) ;;;
      displayResults data
  | VBool false =>
      let* data_error := get_prop data "error" in
      let* text := to_string data_error in
      exec (alert ("Error: " +:+ text))
  | _ =>
      exec (alert "Unexpected response format")
  end.

(** The outcome is how the promise the function returns settles. *)
Definition calculateWeights (net : network) : M unit :=
  λ p,
  match getPairwiseMatrix p with
  | None => (Thrown (TypeError "Cannot set properties of undefined"), p)
  | Some matrix =>
      try_catch
        (calculateWeights_try matrix net)
        (λ error,
           exec (alert ("Error calculating weights: " +:+ exn_toString error)))
        p
  end.

(** The page once the script has been evaluated. *)
Definition initial (storage : gmap string string) : page :=
  set_weights weights0 (set_criteria criteria0 (blank_page storage)).

(** What can happen in a session: the user asks for the comparisons,
    checks a radio, or asks for the weights (and the network answers). *)
Inductive event :=
| Generate
| Check (row k : nat)
| Calculate (net : network).

Definition step (p : page) (e : event) : page :=
  match e with
  | Generate => generatePairwiseComparisons p
  | Check row k =>
      set_container (check_radio row k (pairwiseComparisonsContainer p)) p
  | Calculate net => snd (calculateWeights net p)
  end.

Definition run (p : page) (es : list event) : page := foldl step p es.

End Script.

End Ahp.

(** ** [src/unnamed/part_000] *)

Module Part000.

Section Script.
Context `{!Runtime}.

(** [let criteria = [...]] *)
Definition criteria0 : list string :=
  [ "Price";
    "Recommendations Total";
    "Release Year";
    "Min RAM";
    "CPU Min";
    "GPU Min";
    "Steam Rating Label";
    "Steam Chart Player 30d Avg";
    "Steam Chart Current Player" ].

(** [let weights = []] *)
Definition weights0 : value := VArr [].

Definition createRadio (name : string) (value : float) (text : string)
    (isChecked : bool) : radio :=
  let radioId :=
    "radio_" +:+ name +:+ "_" +:+ replace "." "_" (Number_toString value) in
  let checkedAttr := if isChecked then "checked" else "" in
  let labelClass := if (value =? 1)%float then "center-label" else "" in
  {| input_id := radioId;
     input_name := name;
     input_value := Number_toString value;
     input_checked := negb (String.eqb checkedAttr "");
     label_for := radioId;
     label_class := labelClass;
     span_text := text |}.

(** [list.innerHTML = criteria.map(c => `<div class="criteria-tag">...`).join('')]:
    the names are recorded as written, each unescaped in the span of its
    tag; [tags_shown] is what the list then holds. *)
Definition updateCriteriaList (p : page) : page :=
  set_criteriaList (criteria p) p.

Definition addCriteria (p : page) : page :=
  let criterion := trim (newCriteria_value p) in
  if negb (String.eqb criterion "") && negb (bool_decide (criterion ∈ criteria p))
  then
    let p := set_criteria (criteria p ++ [criterion]) p in
    let p := updateCriteriaList p in
    set_newCriteria_value "" p
  else p.

(** [item] is [button.parentElement], the criteria tag of the button
    clicked; [tag_span item] is what [textContent] reads in its span. *)
Definition removeCriteria (item : criteria_tag) (p : page) : page :=
  let criterion := trim (tag_span item) in
  let p := set_criteria (filter (λ c, c ≠ criterion) (criteria p)) p in
  updateCriteriaList p.

(** [`compare_${i}_${j}`] *)
Definition compare_name (i j : nat) : string :=
  "compare_" +:+ string_of_nat i +:+ "_" +:+ string_of_nat j.

(** [`${criteria[i]}`]: an index past the end reads [undefined]. *)
Definition criteria_at (p : page) (i : nat) : string :=
  default "undefined" (criteria p !! i).

(** The rows are recorded as written, each name unescaped between the
    tags of its label; [document_rows] is what the document then holds. *)
Definition generatePairwiseComparisons (p : page) : page :=
  if length (criteria p) <? 2 then
    alert "Please add at least 2 criteria" p
  else
    let n := length (criteria p) in
    let p := set_container [] p in
    let html := [] in
    let html :=
      for_range 0 n (λ i html,
        for_range (i + 1) n (λ j html,
          let name := compare_name i j in
          html ++
          [ {| compare_label_left := criteria_at p i;
               compare_label_right := criteria_at p j;
               radio_scale :=
                 [ createRadio name 9 "9" false;
                   createRadio name 8 "8" false;
                   createRadio name 7 "7" false;
                   createRadio name 6 "6" false;
                   createRadio name 5 "5" false;
                   createRadio name 4 "4" false;
                   createRadio name 3 "3" false;
                   createRadio name 2 "2" false;
                   createRadio name 1 "1" true;
                   createRadio name (1 / 2) "2" false;
                   createRadio name (1 / 3) "3" false;
                   createRadio name (1 / 4) "4" false;
                   createRadio name (1 / 5) "5" false;
                   createRadio name (1 / 6) "6" false;
                   createRadio name (1 / 7) "7" false;
                   createRadio name (1 / 8) "8" false;
                   createRadio name (1 / 9) "9" false ] |} ]) html) html in
    let p := set_container html p in
    set_pairwiseSection_display "block" p.

Definition getPairwiseMatrix (p : page) : option matrix :=
  let n := length (criteria p) in
  let matrix := Array_from_fill n 1 in
  for_rangeM 0 n (λ i matrix,
    for_rangeM (i + 1) n (λ j matrix,
      let name := compare_name i j in
      let checkedRadio := querySelector_checked p name in
      match checkedRadio with
      | Some checkedRadio =>
          let value := parseFloat (input_value checkedRadio) in
          matrix ← set_cell matrix i j value;
          set_cell matrix j i (1 / value)
      | None => Some matrix
      end) matrix) matrix.

(** The content is recorded as written, each criterion unescaped in its
    weight item; [results_shown] is what the results element then
    holds. *)
Definition displayResults (data : value) : M unit :=
  let html := [H3 "Criteria Weights"] in
  let* data_criteria := get_prop data "criteria" in
  let* html :=
    forEach data_criteria (λ criterion index html,
      let* data_weights := get_prop data "weights" in
      let* w := get_index data_weights index in
      let* x := to_number w in
      let weight := toFixed (x * 100) 2 in
      let* text := to_string criterion in
      ret (html ++ [WeightItem text weight])) html in
  let* is_consistent := get_prop data "is_consistent" in
  let crClass := if ToBoolean is_consistent then "good" else "bad" in
  let crMessage :=
    if ToBoolean is_consistent
    then "Matrix is consistent (CR < 0.1)"
    else "Matrix is inconsistent (CR >= 0.1). Please review your comparisons." in
  let* consistency_ratio := get_prop data "consistency_ratio" in
  let* ratio := call_toFixed consistency_ratio 4 in
  let html := html ++ [Consistency crClass ratio crMessage] in
  let* html :=
    if ToBoolean is_consistent then
      let* data_weights := get_prop data "weights" in
      exec (setItem "ahp_weights" (JSON_stringify data_weights)) ;;;
      let* data_criteria := get_prop data "criteria" in
      exec (setItem "ahp_criteria" (JSON_stringify data_criteria)) ;;;
      ret (html ++ [NextBtn "/saw" "Next: SAW Ranking"])
    else ret html in
  exec (set_results_innerHTML html) ;;;
  exec (set_results_display "block").

(** The block of the [try] of [calculateWeights].  The function is
    [async]: [net] is what its two [await]s resume with. *)
Definition calculateWeights_try (matrix : matrix) (net : network) : M unit :=
  let* criteria := read criteria in
  exec (send {| req_url := "/calculate_ahp";
                req_criteria := criteria;
                req_pairwise_matrix := matrix |}) ;;;
  let* data :=
    match net with
    | FetchRejects e => throw e
    | JsonRejects e => throw e
    | JsonResolves data => ret data
    end in
  let* success := get_prop data "success" in
  match success with
  | VBool true =>
      let* data_weights := get_prop data "weights" in
      exec (set_weights data_weights) ;;;
      displayResults data
  | VBool false =>
      let* data_error := get_prop data "error" in
      let* text := to_string data_error in
      exec (alert ("Error: " +:+ text))
  | _ =>
      exec (alert "Unexpected response format")
  end.

(** The outcome is how the promise the function returns settles. *)
Definition calculateWeights (net : network) : M unit :=
  λ p,
  match getPairwiseMatrix p with
  | None => (Thrown (TypeError "Cannot set properties of undefined"), p)
  | Some matrix =>
      try_catch
        (calculateWeights_try matrix net)
        (λ error,
           exec (alert ("Error calculating weights: " +:+ exn_toString error)))
        p
  end.

(** The page once the script has been evaluated and its
    [DOMContentLoaded] listener has run. *)
Definition initial (storage : gmap string string) : page :=
  updateCriteriaList
    (set_weights weights0 (set_criteria criteria0 (blank_page storage))).

(** What can happen in a session: the user types in the [newCriteria]
    input, adds it, removes a criteria-tag, asks for the comparisons,
    checks a radio, or asks for the weights (and the network answers). *)
Inductive event :=
| Type_newCriteria (text : string)
| Add
| Remove (item : criteria_tag)
| Generate
| Check (row k : nat)
| Calculate (net : network).

Definition step (p : page) (e : event) : page :=
  match e with
  | Type_newCriteria text => set_newCriteria_value text p
  | Add => addCriteria p
  | Remove item => removeCriteria item p
  | Generate => generatePairwiseComparisons p
  | Check row k =>
      set_container (check_radio row k (pairwiseComparisonsContainer p)) p
  | Calculate net => snd (calculateWeights net p)
  end.

Definition run (p : page) (es : list event) : page := foldl step p es.

End Script.

End Part000.

(** ** The vocabulary of the properties *)

(** The scale a comparison offers, in the order of its radios. *)
Definition scale : list float :=
  [9; 8; 7; 6; 5; 4; 3; 2; 1; 1 / 2; 1 / 3; 1 / 4; 1 / 5; 1 / 6; 1 / 7;
   1 / 8; 1 / 9]%float.

(** [parseFloat] reads back what [Number.prototype.toString] writes, on the
    scale values (ECMAScript guarantees it for every finite number). *)
Definition reads_back_scale `{!Runtime} : Prop :=
  Forall (λ v, parseFloat (Number_toString v) = v) scale.

(** A radio-selection state: the comparison rows some call of
    [generatePairwiseComparisons] has written, with any radios checked;
    or no rows at all, before the first call. *)
Definition radio_selection_state `{!Runtime} (rows : list comparison_row)
  : Prop :=
  rows = [] ∨
  ∃ p0, 2 ≤ length (criteria p0) ∧
        erase_checked rows =
        erase_checked
          (pairwiseComparisonsContainer (Ahp.generatePairwiseComparisons p0)).

(** An n-by-n array of arrays. *)
Definition is_square (n : nat) (m : matrix) : Prop :=
  length m = n ∧ Forall (λ row, length row = n) m.

(** The pairs [(i, j)] with [i < j < n], in lexicographic order. *)
Definition pairs (n : nat) : list (nat * nat) :=
  i ← seq 0 n; pair i <$> seq (i + 1) (n - (i + 1)).

(** A criterion that is markup, and the element the parser builds from
    it: a radio of the group of the first comparison, not checked. *)
Definition sample_markup : string :=
  "<input type=radio name=compare_0_1 value=5>".

Definition sample_markup_input : radio :=
  {| input_id := ""; input_name := "compare_0_1"; input_value := "5";
     input_checked := false; label_for := ""; label_class := "";
     span_text := "" |}.

(** A runtime to run the scripts with on examples: the scale values print
    as a browser prints them; an object whose own [toString] is not a
    function (none is, after [response.json()]) cannot be converted; a
    right label that is [sample_markup] is parsed as a browser parses it,
    into an empty label and one more radio before those of the row; the
    other built-ins are placeholders. *)
Definition sample_scale_strings : list (float * string) :=
  [ (9, "9"); (8, "8"); (7, "7"); (6, "6"); (5, "5"); (4, "4"); (3, "3");
    (2, "2"); (1, "1"); (1 / 2, "0.5"); (1 / 3, "0.3333333333333333");
    (1 / 4, "0.25"); (1 / 5, "0.2"); (1 / 6, "0.16666666666666666");
    (1 / 7, "0.14285714285714285"); (1 / 8, "0.125");
    (1 / 9, "0.1111111111111111") ]%float.

Definition sample_runtime : Runtime :=
  {| Number_toString x :=
       default "NaN"
         (snd <$> find (λ vs, PrimFloat.eqb (fst vs) x) sample_scale_strings);
     parseFloat s :=
       default PrimFloat.nan
         (fst <$> find (λ vs, String.eqb (snd vs) s) sample_scale_strings);
     ToNumber v :=
       match v with
       | VNum x => Some x
       | VObj props =>
           if existsb (λ kv, String.eqb (fst kv) "toString") props then None
           else Some PrimFloat.nan
       | _ => Some PrimFloat.nan
       end;
     ToString v :=
       match v with
       | VStr s => Some s
       | VObj props =>
           if existsb (λ kv, String.eqb (fst kv) "toString") props then None
           else Some "[object Object]"
       | _ => Some ""
       end;
     toFixed x digits := "";
     JSON_stringify v := "";
     parse_rows rows :=
       map (λ row,
              if String.eqb (compare_label_right row) sample_markup
              then {| compare_label_left := compare_label_left row;
                      compare_label_right := "";
                      radio_scale := sample_markup_input :: radio_scale row |}
              else row) rows |}.

(** Two criteria, the comparisons generated, and the radio of 1/3 checked. *)
Definition sample_page : page :=
  @Ahp.run sample_runtime
    (set_criteria ["Price"; "Release Year"] (blank_page ∅))
    [Ahp.Generate; Ahp.Check 0 10].


(** The sample runtime, reading the text 49 as a number too. *)
Definition reading_runtime : Runtime :=
  {| Number_toString := @Number_toString sample_runtime;
     parseFloat s :=
       if String.eqb s "49" then 49%float else @parseFloat sample_runtime s;
     ToNumber := @ToNumber sample_runtime;
     ToString := @ToString sample_runtime;
     toFixed := @toFixed sample_runtime;
     JSON_stringify := @JSON_stringify sample_runtime;
     parse_rows := @parse_rows sample_runtime |}.

(** A document of part_000 in which a checked input that is no radio of
    the scale carries the name of the first comparison: the one a
    criterion typed as
    [<input type=checkbox name=compare_0_1 value=49 checked>] puts
    into the header of the comparison row [generatePairwiseComparisons]
    writes, before the radios of the row. *)
Definition foreign_input : radio :=
  {| input_id := ""; input_name := "compare_0_1"; input_value := "49";
     input_checked := true; label_for := ""; label_class := "";
     span_text := "" |}.

Definition foreign_input_page : page :=
  let p :=
    @Part000.generatePairwiseComparisons reading_runtime
      (set_criteria
         ["Price";
          "<input type=checkbox name=compare_0_1 value=49 checked>"]
         (blank_page ∅)) in
  set_container
    (map (λ row, set_radio_scale (foreign_input :: radio_scale row) row)
         (pairwiseComparisonsContainer p)) p.

(** The texts of the radios of a comparison, in their order. *)
Definition scale_texts : list string :=
  [ "9"; "8"; "7"; "6"; "5"; "4"; "3"; "2"; "1"; "2"; "3"; "4"; "5"; "6";
    "7"; "8"; "9" ].

(** The radios a comparison named [name] offers: one per scale value,
    the one of 1 checked. *)
Definition scale_radios `{!Runtime} (name : string) : list radio :=
  zip_with (λ v text, Ahp.createRadio name v text (v =? 1)%float)
           scale scale_texts.

(** The comparison row of the pair [ij] of indices into the criteria. *)
Definition comparison_row_of `{!Runtime} (p : page) (ij : nat * nat)
  : comparison_row :=
  {| compare_label_left := Ahp.criteria_at p ij.1;
     compare_label_right := Ahp.criteria_at p ij.2;
     radio_scale := scale_radios (Ahp.compare_name ij.1 ij.2) |}.

(** The same two criteria before any comparison has been generated. *)
Definition sample_unrendered : page :=
  set_criteria ["Price"; "Release Year"] (blank_page ∅).

(** A consistent result record for the two criteria. *)
Definition sample_response : value :=
  VObj [ ("success", VBool true);
         ("criteria", VArr [VStr "Price"; VStr "Release Year"]);
         ("weights", VArr [VNum 0.75; VNum 0.25]);
         ("consistency_ratio", VNum 0);
         ("is_consistent", VBool true) ].

(** A response whose [is_consistent] is not [true] but the number 1. *)
Definition sample_truthy : value :=
  VObj [ ("success", VBool true);
         ("criteria", VArr [VStr "Price"; VStr "Release Year"]);
         ("weights", VArr [VNum 0.75; VNum 0.25]);
         ("consistency_ratio", VNum 0);
         ("is_consistent", VNum 1) ].

(** A failure response whose [error] cannot be converted to a string: an
    object whose own [toString] is the number 1. *)
Definition sample_unprintable_error : value :=
  VObj [ ("success", VBool false);
         ("error", VObj [("toString", VNum 1)]) ].

(** A page of part_000 whose second criterion is markup. *)
Definition sample_markup_page : page :=
  set_criteria ["Price"; sample_markup] (blank_page ∅).

(** The lexicographic order of pairs. *)
Definition lex_lt (a b : nat * nat) : Prop :=
  a.1 < b.1 ∨ (a.1 = b.1 ∧ a.2 < b.2).

(** A string without the separator of the comparison names. *)
Fixpoint no_underscore (s : string) : Prop :=
  match s with
  | EmptyString => True
  | String c s' => c ≠ "_"%char ∧ no_underscore s'
  end.

(** The weight item [displayResults] renders for the criterion at
    [index], with the weights [w] of the response; [None]: a read or a
    conversion throws. *)
Definition weight_item `{!Runtime} (w : value) (index : nat) (criterion : value)
  : option fragment :=
  v ← read_index w index;
  x ← ToNumber v;
  text ← ToString criterion;
  Some (WeightItem text (toFixed (x * 100) 2)).

(** The weight items of the criteria [cs], the first of them at [index]. *)
Fixpoint weight_items_from `{!Runtime} (w : value) (index : nat)
    (cs : list value) : option (list fragment) :=
  match cs with
  | [] => Some []
  | c :: cs' =>
      item ← weight_item w index c;
      items ← weight_items_from w (S index) cs';
      Some (item :: items)
  end.

(** The request [calculateWeights] sends from the page [p]. *)
Definition request_of (p : page) (matrix : matrix) : request :=
  {| req_url := "/calculate_ahp";
     req_criteria := criteria p;
     req_pairwise_matrix := matrix |}.

(** The text of the alert of the [catch] of [calculateWeights]. *)
Definition report (error : exn) : string :=
  "Error calculating weights: " +:+ exn_toString error.

(** A computation leaves the part [f] of the page as it found it,
    whether it returns or throws. *)
Definition preserves {A B} (f : page → B) (m : M A) : Prop :=
  ∀ p, f (m p).2 = f p.

(** What the checked radio of the pair [(i, j)] says, if there is one. *)
Definition judgment `{!Runtime} (p : page) (i j : nat) : option float :=
  (λ r, parseFloat (input_value r)) <$>
  querySelector_checked p (Ahp.compare_name i j).

(** The entry the judgments give to row [a], column [b]. *)
Definition entry `{!Runtime} (p : page) (a b : nat) : float :=
  if a <? b then default 1%float (judgment p a b)
  else if b <? a then default 1%float ((λ v, 1 / v)%float <$> judgment p b a)
  else 1%float.

(** ** The vocabulary of the further properties *)

(** A string that does not begin with white space. *)
Definition starts_clean (s : string) : Prop :=
  match s with
  | EmptyString => True
  | String c _ => is_whitespace c = false
  end.

(** The criteria tags that show the criteria [cs]. *)
Definition tags_of (cs : list string) : list criteria_tag :=
  map (λ c, {| tag_span := c |}) cs.

(** What a session of part_000 keeps true of its page: no criterion
    twice, every criterion non-empty and trimmed, and the names written
    into the tags those of the criteria. *)
Definition criteria_managed (p : page) : Prop :=
  NoDup (criteria p) ∧
  Forall (λ c, c ≠ "" ∧ trim c = c) (criteria p) ∧
  criteriaList p = criteria p.

(** An event of a session of part_000 in which the user types no markup. *)
Definition types_plain_text (e : Part000.event) : Prop :=
  match e with
  | Part000.Type_newCriteria text => markup_free text
  | _ => True
  end.

(** No markup has been typed into the page: its criteria and the text of
    its input are free of it. *)
Definition plainly_typed (p : page) : Prop :=
  Forall markup_free (criteria p) ∧ markup_free (newCriteria_value p).

(** A response [displayResults] can render: [criteria] is an array; for
    each criterion of it, [weights] can be indexed, the weight read can be
    converted to a number and the criterion to a string; and
    [consistency_ratio] is a number. *)
Definition renderable `{!Runtime} (data : value) : Prop :=
  ∃ cs w cr,
    read_prop data "criteria" = Some (VArr cs) ∧
    read_prop data "weights" = Some w ∧
    (∀ k c, cs !! k = Some c →
       ∃ v x text,
         read_index w k = Some v ∧ ToNumber v = Some x ∧
         ToString c = Some text) ∧
    read_prop data "consistency_ratio" = Some (VNum cr).

(** The content [displayResults] writes into the results element, for the
    weight items [items], the truth value [b] of [is_consistent] and the
    printed consistency ratio. *)
Definition results_html (items : list fragment) (b : bool) (ratio : string)
  : list fragment :=
  [H3 "Criteria Weights"] ++ items ++
  [Consistency (if b then "good" else "bad") ratio
     (if b then "Matrix is consistent (CR < 0.1)"
      else "Matrix is inconsistent (CR >= 0.1). Please review your comparisons.")]
  ++ (if b then [NextBtn "/saw" "Next: SAW Ranking"] else []).

(** The page after [displayResults] has rendered [html] for a response
    whose [is_consistent] has the truth value [b]. *)
Definition rendered `{!Runtime} (html : list fragment) (b : bool)
    (data_weights data_criteria : value) (p : page) : page :=
  set_results_display "block"
    (set_results_innerHTML html
       (if b
        then setItem "ahp_criteria" (JSON_stringify data_criteria)
               (setItem "ahp_weights" (JSON_stringify data_weights) p)
        else p)).

(** A response [calculateWeights] takes to the end of its success path. *)
Definition succeeds `{!Runtime} (net : network) : Prop :=
  ∃ data, net = JsonResolves data ∧
          read_prop data "success" = Some (VBool true) ∧ renderable data.

(** A response of the network whose criteria, as far as they can be
    printed, carry no markup. *)
Definition plain_response `{!Runtime} (net : network) : Prop :=
  ∀ data cs c text,
    net = JsonResolves data →
    read_prop data "criteria" = Some (VArr cs) →
    c ∈ cs → ToString c = Some text → markup_free text.

(** The events of a session that brings no markup into the document: the
    user types none, and the responses carry none. *)
Definition ahp_plain `{!Runtime} (e : Ahp.event) : Prop :=
  match e with
  | Ahp.Calculate net => plain_response net
  | _ => True
  end.

Definition part000_plain `{!Runtime} (e : Part000.event) : Prop :=
  match e with
  | Part000.Type_newCriteria text => markup_free text
  | Part000.Calculate net => plain_response net
  | _ => True
  end.

(** How a session can change [localStorage]: only the two keys of the
    weights, never a deletion, and the two keys together. *)
Definition storage_extended (old new : gmap string string) : Prop :=
  (∀ key, key ≠ "ahp_weights" → key ≠ "ahp_criteria" →
          new !! key = old !! key) ∧
  (∀ key, is_Some (old !! key) → is_Some (new !! key)) ∧
  ((is_Some (old !! "ahp_weights") ↔ is_Some (old !! "ahp_criteria")) →
   (is_Some (new !! "ahp_weights") ↔ is_Some (new !! "ahp_criteria"))).

(** A comparison row with radio [k] checked and the others not. *)
Definition select_row (k : nat) (row : comparison_row) : comparison_row :=
  set_radio_scale
    (imap (λ b x, set_checked (bool_decide (b = k)) x) (radio_scale row)) row.

(** The comparison rows of the criteria of [p] with, row by row, the
    radios [ks] checked. *)
Definition rows_of_selection `{!Runtime} (p : page) (ks : list nat)
  : list comparison_row :=
  zip_with select_row ks (comparison_row_of p <$> pairs (length (criteria p))).

(** The selection after the user has checked radio [rk.2] of row [rk.1]:
    a radio or a row that does not exist cannot be checked. *)
Definition click (ks : list nat) (rk : nat * nat) : list nat :=
  if decide (rk.2 < length scale) then <[rk.1 := rk.2]> ks else ks.

(** The selection after a series of clicks on freshly generated rows for
    [n] criteria: every row starts at radio 8, the one of 1. *)
Definition selection_after (n : nat) (clicks : list (nat * nat)) : list nat :=
  foldl click (replicate (length (pairs n)) 8) clicks.

(** The scale value row [a] stands at after a series of clicks. *)
Definition chosen (n : nat) (clicks : list (nat * nat)) (a : nat)
  : option float :=
  k ← selection_after n clicks !! a; scale !! k.

(** What the server asks of a request: a square matrix of the size of the
    criteria list, with positive entries, the reciprocal law and a unit
    diagonal. *)
Definition well_formed_request (req : request) : Prop :=
  is_square (length (req_criteria req)) (req_pairwise_matrix req) ∧
  ∀ i j, i < length (req_criteria req) → j < length (req_criteria req) →
    ∃ x y, cell (req_pairwise_matrix req) i j = Some x ∧
           cell (req_pairwise_matrix req) j i = Some y ∧
           y = (1 / x)%float ∧ (0 <? x)%float = true ∧
           (i = j → x = 1%float).

(** The place of a scale value among the radios of a comparison. *)
Definition scale_index (v : float) : option nat :=
  fst <$> list_find (λ x, (x =? v)%float = true) scale.

(** [Number.prototype.toString] writes the scale values without the
    separator of the ids. *)
Definition prints_scale_plainly `{!Runtime} : Prop :=
  Forall (λ v, no_underscore (Number_toString v)) scale.

(** The page of part_000 with a name typed in the input, white space
    around it. *)
Definition sample_typed : page :=
  set_newCriteria_value "  Genre " (Part000.initial ∅).

(** A response that claims success and carries nothing to render. *)
Definition sample_unrenderable : value := VObj [("success", VBool true)].

(** * Properties *)

(** ** Loops *)

Section Loops.
Context {A : Type}.

Lemma for_loop_foldl (body : nat → A → A) count i acc :
  for_loop count i body acc = foldl (λ a k, body k a) acc (seq i count).
Proof.
  revert i acc. induction count as [|count IH]; intros i acc; simpl; [done|].
  apply IH.
Qed.

(** The invariant rule of a loop whose body can fail: an invariant that
    holds on entry and that every iteration re-establishes, without
    failing, holds on exit, and the loop does not fail. *)
Lemma for_loopM_invariant (I : nat → A → Prop) (body : nat → A → option A)
    count lo acc :
  I lo acc →
  (∀ i a, lo ≤ i < lo + count → I i a →
          ∃ a', body i a = Some a' ∧ I (S i) a') →
  ∃ acc', for_loopM count lo body acc = Some acc' ∧ I (lo + count) acc'.
Proof.
  revert lo acc. induction count as [|count IH]; intros lo acc Hlo Hstep.
  - exists acc. rewrite Nat.add_0_r. done.
  - destruct (Hstep lo acc) as (a' & Hbody & Ha'); [lia|done|].
    destruct (IH (S lo) a') as (acc' & Hrun & Hacc'); [done| |].
    + intros i a Hi. apply Hstep. lia.
    + exists acc'. simpl. rewrite Hbody. simpl.
      replace (lo + S count) with (S lo + count) by lia. done.
Qed.

Lemma for_rangeM_invariant (I : nat → A → Prop) (body : nat → A → option A)
    lo hi acc :
  lo ≤ hi →
  I lo acc →
  (∀ i a, lo ≤ i < hi → I i a → ∃ a', body i a = Some a' ∧ I (S i) a') →
  ∃ acc', for_rangeM lo hi body acc = Some acc' ∧ I hi acc'.
Proof.
  intros Hle Hlo Hstep. unfold for_rangeM.
  destruct (for_loopM_invariant I body (hi - lo) lo acc) as (acc' & Hrun & Hacc');
    [done| |].
  - intros i a Hi. apply Hstep. lia.
  - exists acc'. replace (lo + (hi - lo)) with hi in Hacc' by lia. done.
Qed.

(** A loop reads its body only at the indices it runs through. *)
Lemma for_loopM_ext (f g : nat → A → option A) count lo acc :
  (∀ i a, lo ≤ i < lo + count → f i a = g i a) →
  for_loopM count lo f acc = for_loopM count lo g acc.
Proof.
  revert lo acc. induction count as [|count IH]; intros lo acc Hfg; simpl; [done|].
  rewrite Hfg by lia. destruct (g lo acc) as [a'|]; simpl; [|done].
  apply IH. intros i a Hi. apply Hfg. lia.
Qed.

End Loops.

(** ** Arrays of arrays *)

Lemma is_square_Array_from_fill n x : is_square n (Array_from_fill n x).
Proof.
  split.
  - apply length_replicate.
  - apply Forall_replicate, length_replicate.
Qed.

Lemma cell_Array_from_fill n x a b :
  a < n → b < n → cell (Array_from_fill n x) a b = Some x.
Proof.
  intros Ha Hb. unfold cell, Array_from_fill.
  rewrite lookup_replicate_2 by done. simpl.
  by apply lookup_replicate_2.
Qed.

Lemma is_square_row n (m : matrix) i row :
  is_square n m → m !! i = Some row → length row = n.
Proof.
  intros [_ Hrows] Hrow. rewrite Forall_forall in Hrows.
  apply Hrows. by eapply list_elem_of_lookup_2.
Qed.

(** An assignment inside a square array succeeds, keeps it square and
    changes one entry. *)
Lemma set_cell_square n (m : matrix) i j v :
  is_square n m → i < n → j < n →
  ∃ m', set_cell m i j v = Some m' ∧ is_square n m' ∧
        ∀ a b, cell m' a b =
               if decide (a = i ∧ b = j) then Some v else cell m a b.
Proof.
  intros Hsq Hi Hj. pose proof Hsq as [Hlen Hrows].
  destruct (lookup_lt_is_Some_2 m i) as [row Hrow]; [lia|].
  pose proof (is_square_row _ _ _ _ Hsq Hrow) as Hrowlen.
  exists (<[i := <[j := v]> row]> m). split; [|split].
  - unfold set_cell. rewrite Hrow. simpl. rewrite decide_True by lia. done.
  - split.
    + by rewrite length_insert.
    + apply Forall_insert; [done|]. by rewrite length_insert.
  - intros a b. unfold cell. destruct (decide (a = i)) as [->|Hai].
    + rewrite list_lookup_insert_eq by lia. simpl. rewrite Hrow. simpl.
      destruct (decide (b = j)) as [->|Hbj].
      * rewrite decide_True by done. apply list_lookup_insert_eq. lia.
      * rewrite decide_False by tauto. by apply list_lookup_insert_ne.
    + rewrite list_lookup_insert_ne by done. rewrite decide_False by tauto. done.
Qed.

(** ** The matrix [getPairwiseMatrix] builds *)

Section Matrix.
Context `{!Runtime}.

Lemma entry_diagonal p a : entry p a a = 1%float.
Proof. unfold entry. by rewrite Nat.ltb_irrefl. Qed.

Lemma entry_upper p a b :
  a < b → entry p a b = default 1%float (judgment p a b).
Proof. intros Hab. unfold entry. by rewrite (proj2 (Nat.ltb_lt a b) Hab). Qed.

Lemma entry_lower p a b :
  b < a →
  entry p a b = default 1%float ((λ v, 1 / v)%float <$> judgment p b a).
Proof.
  intros Hba. unfold entry.
  rewrite (proj2 (Nat.ltb_ge a b)) by lia.
  by rewrite (proj2 (Nat.ltb_lt b a) Hba).
Qed.

(** The inner loop at row [i]: it fills [m[i][j]] and [m[j][i]] for the
    [j] it has passed and leaves every other entry as it found it. *)
Lemma inner_loop_entries p n i (m : matrix) :
  i < n →
  is_square n m →
  (∀ j, i < j < n → cell m i j = Some 1%float ∧ cell m j i = Some 1%float) →
  ∃ m',
    for_rangeM (i + 1) n (λ j matrix,
      let name := Ahp.compare_name i j in
      let checkedRadio := querySelector_checked p name in
      match checkedRadio with
      | Some checkedRadio =>
          let value := parseFloat (input_value checkedRadio) in
          matrix ← set_cell matrix i j value;
          set_cell matrix j i (1 / value)
      | None => Some matrix
      end) m = Some m' ∧
    is_square n m' ∧
    ∀ a b, a < n → b < n →
      cell m' a b =
      if decide ((a = i ∧ i < b) ∨ (b = i ∧ i < a))
      then Some (entry p a b) else cell m a b.
Proof.
  intros Hi Hsq Hones.
  pose (J := λ (k : nat) (m' : matrix),
    is_square n m' ∧
    ∀ a b, a < n → b < n →
      cell m' a b =
      if decide ((a = i ∧ i < b < k) ∨ (b = i ∧ i < a < k))
      then Some (entry p a b) else cell m a b).
  destruct (for_rangeM_invariant J
    (λ j matrix,
      let name := Ahp.compare_name i j in
      let checkedRadio := querySelector_checked p name in
      match checkedRadio with
      | Some checkedRadio =>
          let value := parseFloat (input_value checkedRadio) in
          matrix ← set_cell matrix i j value;
          set_cell matrix j i (1 / value)
      | None => Some matrix
      end) (i + 1) n m) as (m' & Hrun & Hsq' & Hcells).
  - lia.
  - split; [done|]. intros a b _ _. rewrite decide_False; [done|lia].
  - intros j m1 Hj [Hsq1 Hcells1]. simpl.
    destruct (querySelector_checked p (Ahp.compare_name i j)) as [r|] eqn:Hq.
    + destruct (set_cell_square n m1 i j (parseFloat (input_value r)))
        as (m2 & Hset2 & Hsq2 & Hcells2); [done|lia|lia|].
      destruct (set_cell_square n m2 j i (1 / parseFloat (input_value r))%float)
        as (m3 & Hset3 & Hsq3 & Hcells3); [done|lia|lia|].
      exists m3. rewrite Hset2. simpl. rewrite Hset3.
      split; [done|]. split; [done|].
      intros a b Ha Hb. rewrite Hcells3, Hcells2, Hcells1 by done.
      destruct (decide (a = j ∧ b = i)) as [[-> ->]|Hne1].
      { rewrite decide_True by lia. rewrite entry_lower by lia.
        unfold judgment. rewrite Hq. done. }
      destruct (decide (a = i ∧ b = j)) as [[-> ->]|Hne2].
      { rewrite decide_True by lia. rewrite entry_upper by lia.
        unfold judgment. rewrite Hq. done. }
      destruct (decide ((a = i ∧ i < b < j) ∨ (b = i ∧ i < a < j))).
      * rewrite decide_True by lia. done.
      * rewrite decide_False by lia. done.
    + exists m1. split; [done|]. split; [done|].
      intros a b Ha Hb. rewrite Hcells1 by done.
      destruct (decide ((a = i ∧ i < b < j) ∨ (b = i ∧ i < a < j))).
      { rewrite decide_True by lia. done. }
      destruct (decide ((a = i ∧ i < b < S j) ∨ (b = i ∧ i < a < S j)))
        as [Hnow|]; [|done].
      destruct (Hones j) as [Hij Hji]; [lia|].
      assert ((a = i ∧ b = j) ∨ (a = j ∧ b = i)) as [[-> ->]|[-> ->]] by lia.
      * rewrite Hij, entry_upper by lia. unfold judgment. rewrite Hq. done.
      * rewrite Hji, entry_lower by lia. unfold judgment. rewrite Hq. done.
  - exists m'. split; [done|]. split; [done|].
    intros a b Ha Hb. rewrite Hcells by done.
    destruct (decide ((a = i ∧ i < b) ∨ (b = i ∧ i < a))).
    + rewrite decide_True by lia. done.
    + rewrite decide_False by lia. done.
Qed.

(** [getPairwiseMatrix] returns, and what it returns is the square array
    of the entries the judgments give. *)
Lemma getPairwiseMatrix_entries p :
  ∃ m, Ahp.getPairwiseMatrix p = Some m ∧
       is_square (length (criteria p)) m ∧
       ∀ a b, a < length (criteria p) → b < length (criteria p) →
              cell m a b = Some (entry p a b).
Proof.
  unfold Ahp.getPairwiseMatrix. set (n := length (criteria p)).
  pose (I := λ (k : nat) (m : matrix),
    is_square n m ∧
    ∀ a b, a < n → b < n →
      cell m a b =
      Some (if decide (a ≠ b ∧ (a < k ∨ b < k)) then entry p a b else 1%float)).
  destruct (for_rangeM_invariant I
    (λ i matrix,
      for_rangeM (i + 1) n (λ j matrix,
        let name := Ahp.compare_name i j in
        let checkedRadio := querySelector_checked p name in
        match checkedRadio with
        | Some checkedRadio =>
            let value := parseFloat (input_value checkedRadio) in
            matrix ← set_cell matrix i j value;
            set_cell matrix j i (1 / value)
        | None => Some matrix
        end) matrix) 0 n (Array_from_fill n 1)) as (m & Hrun & Hsq & Hcells).
  - lia.
  - split; [apply is_square_Array_from_fill|].
    intros a b Ha Hb. rewrite cell_Array_from_fill by done.
    rewrite decide_False by lia. done.
  - intros i m1 Hi [Hsq1 Hcells1].
    destruct (inner_loop_entries p n i m1) as (m2 & Hrun2 & Hsq2 & Hcells2);
      [lia|done| |].
    { intros j Hj. rewrite !Hcells1 by lia.
      rewrite !decide_False by lia. done. }
    exists m2. split; [done|]. split; [done|].
    intros a b Ha Hb. rewrite Hcells2, Hcells1 by done.
    destruct (decide ((a = i ∧ i < b) ∨ (b = i ∧ i < a))).
    + rewrite decide_True by lia. done.
    + destruct (decide (a ≠ b ∧ (a < i ∨ b < i))).
      * rewrite decide_True by lia. done.
      * rewrite decide_False by lia. done.
  - exists m. split; [done|]. split; [done|].
    intros a b Ha Hb. rewrite Hcells by done.
    destruct (decide (a ≠ b ∧ (a < n ∨ b < n))) as [_|Hne]; [done|].
    assert (a = b) as -> by lia. by rewrite entry_diagonal.
Qed.

End Matrix.

(** ** The scale *)

Lemma scale_reciprocal_twice : Forall (λ v, (1 / (1 / v))%float = v) scale.
Proof. unfold scale. repeat constructor. Qed.

(** Not so for every number: 49 is the first integer it fails for. *)
Lemma reciprocal_twice_49 : (1 / (1 / 49) =? 49)%float = false.
Proof. reflexivity. Qed.

Lemma scale_positive :
  Forall (λ v, (0 <? v)%float = true ∧ (0 <? 1 / v)%float = true) scale.
Proof. unfold scale. repeat constructor. Qed.

(** ** The rows [generatePairwiseComparisons] writes *)

Lemma foldl_snoc {A B} (f : B → A) (l : list B) (acc : list A) :
  foldl (λ html j, html ++ [f j]) acc l = acc ++ (f <$> l).
Proof.
  revert acc. induction l as [|j l IH]; intros acc; simpl.
  - by rewrite app_nil_r.
  - rewrite IH. by rewrite <- app_assoc.
Qed.

Lemma nested_loops_pairs_from {A} (f : nat → nat → A) n l acc :
  foldl (λ html i,
    for_loop (n - (i + 1)) (i + 1) (λ j html, html ++ [f i j]) html) acc l =
  acc ++ ((λ ij, f ij.1 ij.2) <$> (i ← l; pair i <$> seq (i + 1) (n - (i + 1)))).
Proof.
  revert acc. induction l as [|i l IH]; intros acc.
  - simpl. by rewrite app_nil_r.
  - cbn [foldl]. rewrite IH, for_loop_foldl, foldl_snoc.
    rewrite bind_cons, fmap_app, <- list_fmap_compose, app_assoc. done.
Qed.

(** The two nested loops append one piece per pair, in the order of
    [pairs]. *)
Lemma nested_loops_pairs {A} (f : nat → nat → A) n :
  for_range 0 n (λ i html,
    for_range (i + 1) n (λ j html, html ++ [f i j]) html) [] =
  (λ ij, f ij.1 ij.2) <$> pairs n.
Proof.
  unfold for_range at 1. rewrite for_loop_foldl, Nat.sub_0_r.
  unfold for_range. apply (nested_loops_pairs_from f n (seq 0 n) []).
Qed.

Section Generate.
Context `{!Runtime}.

Lemma generatePairwiseComparisons_few p :
  length (criteria p) < 2 →
  Ahp.generatePairwiseComparisons p = alert "Please add at least 2 criteria" p.
Proof.
  intros Hn. unfold Ahp.generatePairwiseComparisons.
  by rewrite (proj2 (Nat.ltb_lt _ _) Hn).
Qed.

Lemma generatePairwiseComparisons_rows p :
  2 ≤ length (criteria p) →
  Ahp.generatePairwiseComparisons p =
  set_pairwiseSection_display "block"
    (set_container (comparison_row_of p <$> pairs (length (criteria p))) p).
Proof.
  intros Hn. unfold Ahp.generatePairwiseComparisons.
  rewrite (proj2 (Nat.ltb_ge _ _)) by lia. cbv zeta.
  change (length (criteria (set_container [] p))) with (length (criteria p)).
  set (n := length (criteria p)).
  change (for_range 0 n _ []) with
    (for_range 0 n (λ i html,
       for_range (i + 1) n (λ j html,
         html ++ [comparison_row_of (set_container [] p) (i, j)]) html) []).
  rewrite nested_loops_pairs. reflexivity.
Qed.

End Generate.

(** ** Radio-selection states *)

Section Selection.
Context `{!Runtime}.

Lemma inputs_erase_checked_values rows :
  map input_value (inputs (erase_checked rows)) = map input_value (inputs rows).
Proof.
  unfold inputs. induction rows as [|row rows IH]; [done|].
  cbn [erase_checked map concat]. rewrite !map_app. f_equal; [|apply IH].
  cbn [set_radio_scale radio_scale]. rewrite map_map. done.
Qed.

Lemma scale_radios_values name :
  map input_value (scale_radios name) = map Number_toString scale.
Proof. reflexivity. Qed.

Lemma generated_values_on_scale p n r :
  r ∈ inputs (comparison_row_of p <$> pairs n) →
  ∃ v, v ∈ scale ∧ input_value r = Number_toString v.
Proof.
  unfold inputs. generalize (pairs n) as l.
  induction l as [|ij l IH]; cbn [fmap list_fmap map concat].
  - intros Hr. by apply elem_of_nil in Hr.
  - intros [Hr|Hr]%elem_of_app; [|by apply IH].
    cbn [comparison_row_of radio_scale] in Hr.
    assert (input_value r ∈ map Number_toString scale) as Hv.
    { rewrite <- (scale_radios_values (Ahp.compare_name ij.1 ij.2)).
      apply list_elem_of_In, in_map, list_elem_of_In, Hr. }
    apply list_elem_of_In, in_map_iff in Hv as (v & Hv & Hin).
    exists v. split; [by apply list_elem_of_In|done].
Qed.

(** Every radio of a radio-selection state carries a scale value. *)
Lemma selection_values_on_scale rows r :
  radio_selection_state rows →
  r ∈ inputs rows →
  ∃ v, v ∈ scale ∧ input_value r = Number_toString v.
Proof.
  intros [->|(p0 & Hn & Herase)] Hr.
  - by apply elem_of_nil in Hr.
  - rewrite generatePairwiseComparisons_rows in Herase by done.
    cbn [set_pairwiseSection_display set_container
         pairwiseComparisonsContainer] in Herase.
    assert (input_value r ∈
            map input_value
              (inputs (comparison_row_of p0 <$> pairs (length (criteria p0)))))
      as Hv.
    { rewrite <- inputs_erase_checked_values, <- Herase,
        inputs_erase_checked_values.
      apply list_elem_of_In, in_map, list_elem_of_In, Hr. }
    apply list_elem_of_In, in_map_iff in Hv as (r' & Hv & Hin).
    rewrite <- Hv. eapply generated_values_on_scale.
    apply list_elem_of_In, Hin.
Qed.

(** What [querySelector] finds is an input of the page. *)
Lemma querySelector_checked_Some p name r :
  querySelector_checked p name = Some r →
  r ∈ inputs (pairwiseComparisonsContainer p) ∧
  input_name r = name ∧ input_checked r = true.
Proof.
  unfold querySelector_checked. intros [Hin Hr]%find_some.
  apply andb_prop in Hr as [Hname Hchecked].
  split; [by apply list_elem_of_In|].
  split; [by apply bool_decide_eq_true in Hname|done].
Qed.

(** In a radio-selection state every judgment is a scale value. *)
Lemma judgment_on_scale p i j x :
  reads_back_scale →
  radio_selection_state (pairwiseComparisonsContainer p) →
  judgment p i j = Some x →
  x ∈ scale.
Proof.
  intros Hback Hsel. unfold judgment.
  destruct (querySelector_checked p (Ahp.compare_name i j)) as [r|] eqn:Hq;
    [|done].
  intros [= <-]. apply querySelector_checked_Some in Hq as (Hin & _ & _).
  destruct (selection_values_on_scale _ _ Hsel Hin) as (v & Hv & ->).
  unfold reads_back_scale in Hback. rewrite Forall_forall in Hback.
  rewrite (Hback v Hv). done.
Qed.

End Selection.

(** The two scripts build the matrix in the same way. *)
Lemma getPairwiseMatrix_same `{!Runtime} p :
  Part000.getPairwiseMatrix p = Ahp.getPairwiseMatrix p.
Proof. reflexivity. Qed.

(** ** The claims about the matrix *)

(** C1, as the code has it.  For every criteria list, of length n,
    [getPairwiseMatrix] (of either script) returns an n-by-n matrix with 1
    at every diagonal entry and with [m[j][i] = 1 / m[i][j]] for every
    pair i < j, on every page whatsoever, the division being that of
    binary64 numbers.  For the pairs i > j the law asks that [1 / (1 / v)]
    be [v]: it holds when the checked inputs the function finds are radios
    of the generated scale, that is in every radio-selection state of a
    document that holds no input besides, as it does when the names
    written into it carry no markup. *)
Theorem getPairwiseMatrix_reciprocal `{!Runtime} (p : page) :
  ∃ m,
    Ahp.getPairwiseMatrix p = Some m ∧
    Part000.getPairwiseMatrix p = Some m ∧
    is_square (length (criteria p)) m ∧
    (∀ i, i < length (criteria p) → cell m i i = Some 1%float) ∧
    (∀ i j, i < j < length (criteria p) →
       ∃ x y, cell m i j = Some x ∧ cell m j i = Some y ∧
              y = (1 / x)%float) ∧
    (reads_back_scale →
     radio_selection_state (pairwiseComparisonsContainer p) →
     document_as_written p →
     ∀ i j, i < length (criteria p) → j < length (criteria p) →
       ∃ x y, cell m i j = Some x ∧ cell m j i = Some y ∧
              y = (1 / x)%float).
Proof.
  destruct (getPairwiseMatrix_entries p) as (m & Hm & Hsq & Hcells).
  exists m. split; [done|]. split; [by rewrite getPairwiseMatrix_same|].
  split; [done|].
  assert (∀ i j, i < j < length (criteria p) →
            entry p j i = (1 / entry p i j)%float) as Hupper.
  { intros i j Hij.
    rewrite (entry_upper p i j), (entry_lower p j i) by lia.
    destruct (judgment p i j); simpl; [done|reflexivity]. }
  split; [|split].
  - intros i Hi. rewrite Hcells by done. by rewrite entry_diagonal.
  - intros i j Hij. exists (entry p i j), (entry p j i).
    split; [apply Hcells; lia|]. split; [apply Hcells; lia|]. by apply Hupper.
  - intros Hback Hsel _ i j Hi Hj. exists (entry p i j), (entry p j i).
    split; [by apply Hcells|]. split; [by apply Hcells|].
    destruct (Nat.lt_total i j) as [Hij|[->|Hji]].
    + apply Hupper. lia.
    + rewrite entry_diagonal. reflexivity.
    + rewrite (entry_lower p i j), (entry_upper p j i) by done.
      destruct (judgment p j i) as [v|] eqn:Hv; simpl; [|reflexivity].
      pose proof scale_reciprocal_twice as Htwice.
      rewrite Forall_forall in Htwice. symmetry. apply Htwice.
      by eapply judgment_on_scale.
Qed.


(** C3.  For every pair (i, j) with i < j for which no radio is checked,
    [getPairwiseMatrix] (of either script) leaves [matrix[i][j]] and
    [matrix[j][i]] at the default 1; an entry of the pair differs from 1
    only when a checked radio exists for the pair, and then the two
    entries are its value and the reciprocal of its value. *)
Theorem getPairwiseMatrix_default `{!Runtime} (p : page) :
  ∃ m,
    Ahp.getPairwiseMatrix p = Some m ∧
    Part000.getPairwiseMatrix p = Some m ∧
    ∀ i j, i < j < length (criteria p) →
      (querySelector_checked p (Ahp.compare_name i j) = None →
       cell m i j = Some 1%float ∧ cell m j i = Some 1%float) ∧
      (cell m i j ≠ Some 1%float ∨ cell m j i ≠ Some 1%float →
       ∃ r, querySelector_checked p (Ahp.compare_name i j) = Some r) ∧
      (∀ r, querySelector_checked p (Ahp.compare_name i j) = Some r →
            cell m i j = Some (parseFloat (input_value r)) ∧
            cell m j i = Some (1 / parseFloat (input_value r))%float).
Proof.
  destruct (getPairwiseMatrix_entries p) as (m & Hm & Hsq & Hcells).
  exists m. split; [done|]. split; [by rewrite getPairwiseMatrix_same|].
  intros i j Hij. rewrite !Hcells by lia.
  rewrite (entry_upper p i j), (entry_lower p j i) by lia.
  unfold judgment.
  destruct (querySelector_checked p (Ahp.compare_name i j)) as [r|]; simpl.
  - split; [done|]. split; [by exists r|]. by intros ? [= <-].
  - split; [done|]. split; [|done]. intros [Hne|Hne]; by destruct Hne.
Qed.

(** ** Computations that can throw *)

Lemma bind_Returned {A B} (m : M A) (k : A → M B) p a p' :
  m p = (Returned a, p') → bind m k p = k a p'.
Proof. intros Hm. unfold bind. by rewrite Hm. Qed.

Lemma bind_Thrown {A B} (m : M A) (k : A → M B) p e p' :
  m p = (Thrown e, p') → bind m k p = (Thrown e, p').
Proof. intros Hm. unfold bind. by rewrite Hm. Qed.

Section Frame.
Context {B : Type} (f : page → B).

Lemma preserves_ret {A} (a : A) : preserves f (ret a).
Proof. by intros p. Qed.

Lemma preserves_throw {A} e : preserves f (@throw A e).
Proof. by intros p. Qed.

Lemma preserves_read {A} (g : page → A) : preserves f (read g).
Proof. by intros p. Qed.

Lemma preserves_exec g : (∀ p, f (g p) = f p) → preserves f (exec g).
Proof. intros Hg p. apply Hg. Qed.

Lemma preserves_bind {A C} (m : M A) (k : A → M C) :
  preserves f m → (∀ a, preserves f (k a)) → preserves f (bind m k).
Proof.
  intros Hm Hk p. unfold bind. specialize (Hm p).
  destruct (m p) as [[a|e] p']; simpl in *; [|done].
  by rewrite Hk.
Qed.

Lemma preserves_try_catch {A} (m : M A) (handler : exn → M A) :
  preserves f m → (∀ e, preserves f (handler e)) →
  preserves f (try_catch m handler).
Proof.
  intros Hm Hh p. unfold try_catch. specialize (Hm p).
  destruct (m p) as [[a|e] p']; simpl in *; [done|].
  by rewrite Hh.
Qed.

Lemma preserves_get_prop obj key : preserves f (get_prop obj key).
Proof. intros p. unfold get_prop. by destruct (read_prop obj key). Qed.

Lemma preserves_get_index obj index : preserves f (get_index obj index).
Proof. intros p. unfold get_index. by destruct (read_index obj index). Qed.

Lemma preserves_call_toFixed `{!Runtime} x digits :
  preserves f (call_toFixed x digits).
Proof. intros p. by destruct x. Qed.

Lemma preserves_to_number `{!Runtime} v : preserves f (to_number v).
Proof. intros p. unfold to_number. by destruct (ToNumber v). Qed.

Lemma preserves_to_string `{!Runtime} v : preserves f (to_string v).
Proof. intros p. unfold to_string. by destruct (ToString v). Qed.

Lemma preserves_forEach_from {A} elements index
    (body : value → nat → A → M A) acc :
  (∀ element index acc, preserves f (body element index acc)) →
  preserves f (forEach_from elements index body acc).
Proof.
  intros Hbody. revert index acc.
  induction elements as [|element rest IH]; intros index acc.
  - apply preserves_ret.
  - cbn [forEach_from]. apply preserves_bind; [apply Hbody|]. intros a. apply IH.
Qed.

Lemma preserves_forEach {A} arr (body : value → nat → A → M A) acc :
  (∀ element index acc, preserves f (body element index acc)) →
  preserves f (forEach arr body acc).
Proof.
  intros Hbody. destruct arr; try apply preserves_throw.
  by apply preserves_forEach_from.
Qed.

End Frame.

(** The steps of a frame proof: through the structure of the computation,
    down to the statements that change the page. *)
Ltac frame_step :=
  first
    [ apply preserves_ret | apply preserves_throw | apply preserves_read
    | apply preserves_get_prop | apply preserves_get_index
    | apply preserves_call_toFixed
    | apply preserves_to_number | apply preserves_to_string
    | apply preserves_exec; intros ?; reflexivity
    | apply preserves_bind; [|intros ?]
    | apply preserves_forEach; intros ? ? ?
    | apply preserves_try_catch; [|intros ?]
    | match goal with
      | |- preserves _ (if ?b then _ else _) => destruct b
      | |- preserves _ (match ?x with _ => _ end) => destruct x
      end ].

Ltac frame := repeat frame_step.

Section Results.
Context `{!Runtime}.

(** [displayResults] changes the results element and [localStorage] only. *)
Lemma displayResults_preserves {B} (f : page → B) data :
  (∀ v p, f (set_results_innerHTML v p) = f p) →
  (∀ v p, f (set_results_display v p) = f p) →
  (∀ k v p, f (setItem k v p) = f p) →
  preserves f (Ahp.displayResults data).
Proof.
  intros Hhtml Hdisplay Hstore. unfold Ahp.displayResults.
  repeat first
    [ apply preserves_exec; intros ?; first [apply Hhtml|apply Hdisplay|apply Hstore]
    | frame_step ].
Qed.

(** What follows a read may use what was read. *)
Lemma preserves_bind_get_prop {A B} (f : page → B) obj key (k : value → M A) :
  (∀ v, read_prop obj key = Some v → preserves f (k v)) →
  preserves f (bind (get_prop obj key) k).
Proof.
  intros Hk p. unfold bind, get_prop.
  destruct (read_prop obj key) as [v|] eqn:Hv; [|done].
  simpl. by apply Hk.
Qed.

(** A response that is not consistent leaves [localStorage] as it was,
    also when it cannot be rendered. *)
Lemma displayResults_storage_unless_consistent data :
  (∀ v, read_prop data "is_consistent" = Some v → ToBoolean v = false) →
  preserves localStorage (Ahp.displayResults data).
Proof.
  intros Hfalse. unfold Ahp.displayResults.
  apply preserves_bind; [frame|]. intros data_criteria.
  apply preserves_bind; [frame|]. intros html.
  apply preserves_bind_get_prop. intros v Hv. rewrite (Hfalse v Hv). frame.
Qed.

End Results.

Section Rendering.
Context `{!Runtime}.

Lemma read_prop_total data key v key' :
  read_prop data key = Some v → ∃ v', read_prop data key' = Some v'.
Proof. destruct data; simpl; intros [=]; eauto. Qed.

Lemma get_prop_Some obj key v p :
  read_prop obj key = Some v → get_prop obj key p = (Returned v, p).
Proof. intros Hv. unfold get_prop. by rewrite Hv. Qed.

Lemma get_prop_None obj key p :
  read_prop obj key = None → ∃ e, get_prop obj key p = (Thrown e, p).
Proof. intros Hv. unfold get_prop. rewrite Hv. by eexists. Qed.

(** One turn of the loop over the criteria: it appends the weight item of
    the criterion, or throws; it leaves the page alone. *)
Lemma render_item data w criterion index html p :
  read_prop data "weights" = Some w →
  (let* data_weights := get_prop data "weights" in
   let* w := get_index data_weights index in
   let* x := to_number w in
   let weight := toFixed (x * 100) 2 in
   let* text := to_string criterion in
   ret (html ++ [WeightItem text weight])) p =
  match weight_item w index criterion with
  | Some item => (Returned (html ++ [item]), p)
  | None =>
      (Thrown
         (match read_index w index with
          | None =>
              TypeError ("Cannot read properties of null or undefined (reading '"
                         +:+ string_of_nat index +:+ "')")
          | Some _ => TypeError "Cannot convert object to primitive value"
          end), p)
  end.
Proof.
  intros Hw. erewrite bind_Returned by (by apply get_prop_Some).
  unfold weight_item, bind at 1, get_index.
  destruct (read_index w index) as [v|]; [|done]. cbn.
  unfold bind at 1, to_number. destruct (ToNumber v) as [x|]; [|done]. cbn.
  unfold bind, to_string. by destruct (ToString criterion).
Qed.

(** The loop over the criteria when every weight item can be rendered:
    the items are appended, in the order of the criteria. *)
Lemma forEach_from_items data w cs index html p items :
  read_prop data "weights" = Some w →
  weight_items_from w index cs = Some items →
  forEach_from cs index
    (λ criterion index html,
       let* data_weights := get_prop data "weights" in
       let* w := get_index data_weights index in
       let* x := to_number w in
       let weight := toFixed (x * 100) 2 in
       let* text := to_string criterion in
       ret (html ++ [WeightItem text weight])) html p =
  (Returned (html ++ items), p).
Proof.
  intros Hw. revert index html items.
  induction cs as [|c cs IH]; intros index html items Hitems.
  - injection Hitems as <-. cbn. by rewrite app_nil_r.
  - cbn [weight_items_from] in Hitems.
    destruct (weight_item w index c) as [item|] eqn:Hitem; [|done].
    destruct (weight_items_from w (S index) cs) as [rest|] eqn:Hrest; [|done].
    injection Hitems as <-. cbn [forEach_from].
    pose proof (render_item data w c index html p Hw) as Hturn.
    rewrite Hitem in Hturn. erewrite bind_Returned by exact Hturn.
    rewrite (IH _ _ _ Hrest), <- app_assoc. reflexivity.
Qed.

(** The loop over the criteria when some weight item cannot be rendered:
    it throws, and the page is as it was. *)
Lemma forEach_from_throws data w cs index html p :
  read_prop data "weights" = Some w →
  weight_items_from w index cs = None →
  ∃ e,
    forEach_from cs index
      (λ criterion index html,
         let* data_weights := get_prop data "weights" in
         let* w := get_index data_weights index in
         let* x := to_number w in
         let weight := toFixed (x * 100) 2 in
         let* text := to_string criterion in
         ret (html ++ [WeightItem text weight])) html p = (Thrown e, p).
Proof.
  intros Hw. revert index html.
  induction cs as [|c cs IH]; intros index html Hitems; [done|].
  cbn [weight_items_from] in Hitems. cbn [forEach_from].
  destruct (weight_item w index c) as [item|] eqn:Hitem.
  - destruct (weight_items_from w (S index) cs) as [rest|] eqn:Hrest; [done|].
    destruct (IH (S index) (html ++ [item]) Hrest) as [e He].
    pose proof (render_item data w c index html p Hw) as Hturn.
    rewrite Hitem in Hturn.
    exists e. erewrite bind_Returned by exact Hturn. exact He.
  - pose proof (render_item data w c index html p Hw) as Hturn.
    rewrite Hitem in Hturn. eexists. eapply bind_Thrown. exact Hturn.
Qed.

(** The weight items can be rendered exactly when, for every criterion,
    the weight can be read and converted and the criterion printed. *)
Lemma weight_items_from_Some w cs index :
  is_Some (weight_items_from w index cs) ↔
  ∀ k c, cs !! k = Some c →
    ∃ v x text,
      read_index w (index + k) = Some v ∧ ToNumber v = Some x ∧
      ToString c = Some text.
Proof.
  revert index. induction cs as [|c cs IH]; intros index.
  - split; [by intros _ k c'|by eexists].
  - cbn [weight_items_from]. split.
    + intros [items Hitems] k c' Hk.
      destruct (weight_item w index c) as [item|] eqn:Hitem; [|done].
      destruct (weight_items_from w (S index) cs) as [rest|] eqn:Hrest; [|done].
      destruct k as [|k].
      * injection Hk as <-. rewrite Nat.add_0_r. unfold weight_item in Hitem.
        destruct (read_index w index) as [v|]; [|done]. cbn in Hitem.
        destruct (ToNumber v) as [x|] eqn:Hx; [|done]. cbn in Hitem.
        destruct (ToString c) as [text|]; [|done]. by exists v, x, text.
      * replace (index + S k) with (S index + k) by lia.
        apply (proj1 (IH (S index))); [by eexists|done].
    + intros Hall.
      destruct (Hall 0 c eq_refl) as (v & x & text & Hv & Hx & Htext).
      rewrite Nat.add_0_r in Hv. unfold weight_item. rewrite Hv. cbn.
      rewrite Hx. cbn. rewrite Htext. cbn.
      destruct (proj2 (IH (S index))) as [rest ->]; [|by eexists].
      intros k c' Hk. replace (S index + k) with (index + S k) by lia.
      by apply Hall.
Qed.

(** Every weight item is one, with the printed criterion as its name. *)
Lemma weight_items_from_items w cs index items :
  weight_items_from w index cs = Some items →
  Forall2 (λ c item, ∃ text weight,
             ToString c = Some text ∧ item = WeightItem text weight)
          cs items.
Proof.
  revert index items. induction cs as [|c cs IH]; intros index items Hitems.
  - injection Hitems as <-. constructor.
  - cbn [weight_items_from] in Hitems.
    destruct (weight_item w index c) as [item|] eqn:Hitem; [|done].
    destruct (weight_items_from w (S index) cs) as [rest|] eqn:Hrest; [|done].
    injection Hitems as <-. constructor; [|by eapply IH].
    unfold weight_item in Hitem.
    destruct (read_index w index) as [v|]; [|done]. cbn in Hitem.
    destruct (ToNumber v) as [x|]; [|done]. cbn in Hitem.
    destruct (ToString c) as [text|]; [|done]. injection Hitem as <-.
    by eexists _, _.
Qed.

Lemma weight_items_from_no_link w cs index items href text :
  weight_items_from w index cs = Some items → NextBtn href text ∉ items.
Proof.
  intros Hitems%weight_items_from_items [k Hk]%list_elem_of_lookup.
  destruct (Forall2_lookup_r _ _ _ _ _ Hitems Hk) as (c & _ & t & wt & _ & ?).
  done.
Qed.

(** [displayResults] either throws and leaves the page exactly as it was,
    or renders: it shows the results element with the heading, the
    weight items and the consistency block, and stores the weights and the
    criteria, with the Next link, when [is_consistent] is truthy. *)
Lemma displayResults_cases data p :
  (¬ renderable data ∧ ∃ e, Ahp.displayResults data p = (Thrown e, p)) ∨
  (renderable data ∧
   ∃ cs w cr is_consistent items,
     read_prop data "criteria" = Some (VArr cs) ∧
     read_prop data "weights" = Some w ∧
     read_prop data "consistency_ratio" = Some (VNum cr) ∧
     read_prop data "is_consistent" = Some is_consistent ∧
     weight_items_from w 0 cs = Some items ∧
     Ahp.displayResults data p =
     (Returned (),
      rendered (results_html items (ToBoolean is_consistent) (toFixed cr 4))
        (ToBoolean is_consistent) w (VArr cs) p)).
Proof.
  unfold Ahp.displayResults. cbv zeta.
  destruct (read_prop data "criteria") as [dc|] eqn:Hdc; last first.
  { left. split; [intros (cs & w & cr & Hcs & _); congruence|].
    destruct (get_prop_None data "criteria" p Hdc) as [e He].
    exists e. by eapply bind_Thrown. }
  destruct (read_prop_total _ _ _ "weights" Hdc) as [w Hw].
  destruct (read_prop_total _ _ _ "is_consistent" Hdc) as [b Hb].
  destruct (read_prop_total _ _ _ "consistency_ratio" Hdc) as [cr Hcr].
  erewrite bind_Returned by (by apply get_prop_Some).
  destruct dc as [| | | | |cs|];
    try (left; split;
         [intros (cs' & w' & cr' & Hcs' & _); congruence
         |eexists; eapply bind_Thrown; reflexivity]).
  destruct (weight_items_from w 0 cs) as [items|] eqn:Hitems; last first.
  { left. split.
    - intros (cs' & w' & cr' & Hcs' & Hw' & Hall & _).
      assert (cs' = cs) as -> by congruence.
      assert (w' = w) as -> by congruence.
      assert (is_Some (weight_items_from w 0 cs)) as [items Hsome].
      { apply weight_items_from_Some. intros k c Hk. by apply Hall. }
      congruence.
    - destruct (forEach_from_throws data w cs 0 [H3 "Criteria Weights"] p Hw Hitems)
        as [e He].
      exists e. eapply bind_Thrown. exact He. }
  erewrite bind_Returned
    by exact (forEach_from_items data w cs 0 _ p items Hw Hitems).
  erewrite bind_Returned by (by apply get_prop_Some).
  erewrite bind_Returned by (by apply get_prop_Some).
  destruct cr as [| | |x| | |];
    try (left; split;
         [intros (cs' & w' & cr' & _ & _ & _ & Hcr'); congruence
         |eexists; eapply bind_Thrown; reflexivity]).
  right. split.
  { exists cs, w, x. split; [done|]. split; [done|]. split; [|done].
    intros k c Hk.
    by apply (proj1 (weight_items_from_Some w cs 0) (mk_is_Some _ _ Hitems)). }
  exists cs, w, x, b, items. do 5 (split; [done|]).
  unfold rendered, results_html.
  destruct (ToBoolean b);
    unfold bind, get_prop, call_toFixed, exec, ret; rewrite ?Hw, ?Hdc; cbn;
    rewrite <- ?app_assoc, ?app_nil_r; reflexivity.
Qed.

End Rendering.

(** The two scripts render a response in the same way. *)
Lemma displayResults_same `{!Runtime} data :
  Part000.displayResults data = Ahp.displayResults data.
Proof. reflexivity. Qed.

(** ** The claims about the response *)

Lemma results_html_head items b ratio :
  head (results_html items b ratio) = Some (H3 "Criteria Weights").
Proof. reflexivity. Qed.

(** The Next link is in what [displayResults] writes exactly when
    [is_consistent] is truthy; the weight items are no links. *)
Lemma results_html_link items b ratio :
  (∀ href text, NextBtn href text ∉ items) →
  (NextBtn "/saw" "Next: SAW Ranking" ∈ results_html items b ratio ↔
   b = true) ∧
  (b = false → ∀ href text, NextBtn href text ∉ results_html items b ratio).
Proof.
  intros Hitems.
  assert (∀ href text, NextBtn href text ∉ results_html items false ratio)
    as Hnone.
  { intros href text. unfold results_html. rewrite app_nil_r.
    intros [Hin|[Hin|Hin]%elem_of_app]%elem_of_app.
    - by apply list_elem_of_singleton in Hin.
    - by apply Hitems in Hin.
    - by apply list_elem_of_singleton in Hin. }
  destruct b.
  - split; [|done]. split; [done|]. intros _. unfold results_html.
    apply elem_of_app. right. apply elem_of_app. right.
    apply elem_of_app. right. by apply list_elem_of_singleton.
  - split; [|intros _; apply Hnone]. split; [|done].
    intros Hin. by apply Hnone in Hin.
Qed.

Lemma rendered_storage `{!Runtime} html b w c p :
  localStorage (rendered html b w c p) =
  if b
  then <["ahp_criteria" := JSON_stringify c]>
         (<["ahp_weights" := JSON_stringify w]> (localStorage p))
  else localStorage p.
Proof. unfold rendered. by destruct b. Qed.

Lemma rendered_results `{!Runtime} html b w c p :
  results_innerHTML (rendered html b w c p) = html.
Proof. reflexivity. Qed.

Lemma results_shown_Some p shown :
  results_shown p = Some shown →
  shown = results_innerHTML p ∧ Forall fragment_plain (results_innerHTML p).
Proof.
  unfold results_shown.
  destruct (decide (Forall fragment_plain (results_innerHTML p)));
    [by intros [= <-]|done].
Qed.

(** C4, as the code has it.  [displayResults] (of either script) renders
    a response and returns, or throws before it has changed anything.
    When it returns it has written the weights and the criteria of the
    response to localStorage, under the keys ahp_weights and ahp_criteria,
    exactly when [is_consistent] is truthy, which [true] is and [false] is
    not, and has left localStorage as it was otherwise; and the results
    element, where the names it shows carry no markup, holds the Next link
    exactly then, and no link at all otherwise. *)
Theorem displayResults_persists_iff_consistent `{!Runtime}
    (data : value) (p : page) :
  Part000.displayResults data p = Ahp.displayResults data p ∧
  ToBoolean (VBool true) = true ∧ ToBoolean (VBool false) = false ∧
  ((¬ renderable data ∧ ∃ e, Ahp.displayResults data p = (Thrown e, p)) ∨
   (renderable data ∧
    ∃ p' is_consistent data_weights data_criteria,
      Ahp.displayResults data p = (Returned (), p') ∧
      read_prop data "is_consistent" = Some is_consistent ∧
      read_prop data "weights" = Some data_weights ∧
      read_prop data "criteria" = Some data_criteria ∧
      localStorage p' =
        (if ToBoolean is_consistent
         then <["ahp_criteria" := JSON_stringify data_criteria]>
                (<["ahp_weights" := JSON_stringify data_weights]>
                   (localStorage p))
         else localStorage p) ∧
      ∀ shown, results_shown p' = Some shown →
        (NextBtn "/saw" "Next: SAW Ranking" ∈ shown ↔
         ToBoolean is_consistent = true) ∧
        (ToBoolean is_consistent = false →
         ∀ href text, NextBtn href text ∉ shown))).
Proof.
  split; [done|]. split; [done|]. split; [done|].
  destruct (displayResults_cases data p)
    as [[Hno Hthrown]
       |[Hyes (cs & w & cr & b & items & Hcs & Hw & Hcr & Hb & Hitems & Hrun)]].
  - by left.
  - right. split; [done|]. eexists _, b, w, (VArr cs).
    split; [exact Hrun|]. do 3 (split; [done|]).
    split; [apply rendered_storage|].
    intros shown [-> _]%results_shown_Some. rewrite rendered_results.
    apply results_html_link. intros href text.
    by eapply weight_items_from_no_link.
Qed.

(** The two scripts ask for the weights in the same way. *)
Lemma calculateWeights_same `{!Runtime} net :
  Part000.calculateWeights net = Ahp.calculateWeights net.
Proof. reflexivity. Qed.

(** What [calculateWeights] does with a response, by its [success]. *)
Lemma calculateWeights_branches_aux `{!Runtime} (data : value) (p : page) matrix :
  Ahp.getPairwiseMatrix p = Some matrix →
  Part000.calculateWeights (JsonResolves data) p =
  Ahp.calculateWeights (JsonResolves data) p ∧
  let sent := send (request_of p matrix) p in
  match read_prop data "success" with
  | Some (VBool true) =>
      Ahp.calculateWeights (JsonResolves data) p =
      try_catch (Ahp.displayResults data)
        (λ error, exec (alert (report error)))
        (set_weights (default VUndefined (read_prop data "weights")) sent)
  | Some (VBool false) =>
      match ToString (default VUndefined (read_prop data "error")) with
      | Some text =>
          Ahp.calculateWeights (JsonResolves data) p =
          (Returned (), alert ("Error: " +:+ text) sent)
      | None =>
          ∃ error,
            Ahp.calculateWeights (JsonResolves data) p =
            (Returned (), alert (report error) sent)
      end ∧
      weights (Ahp.calculateWeights (JsonResolves data) p).2 = weights p
  | Some _ =>
      Ahp.calculateWeights (JsonResolves data) p =
      (Returned (), alert "Unexpected response format" sent) ∧
      weights (Ahp.calculateWeights (JsonResolves data) p).2 = weights p
  | None =>
      ∃ error,
        Ahp.calculateWeights (JsonResolves data) p =
        (Returned (), alert (report error) sent) ∧
        weights (Ahp.calculateWeights (JsonResolves data) p).2 = weights p
  end.
Proof.
  intros Hm. split; [by rewrite calculateWeights_same|].
  cbv zeta. unfold Ahp.calculateWeights. rewrite Hm.
  unfold try_catch, Ahp.calculateWeights_try.
  destruct data as [| | | | | |props];
    try (eexists; split; reflexivity); try (split; reflexivity).
  cbn [read_prop].
  destruct (own_prop props "success") as [| |[|]| | | |] eqn:Hs.
  all: unfold bind, read, exec, get_prop, read_prop, ret, to_string; cbn;
       rewrite ?Hs.
  all: try reflexivity; try (split; reflexivity).
  split; destruct (ToString (own_prop props "error")); unfold ret, throw;
    first [ reflexivity
          | exists (TypeError "Cannot convert object to primitive value");
            reflexivity ].
Qed.

(** C5, as the code has it.  [calculateWeights] (of either script)
    branches on the [success] field of the response: when it is [true]
    the function stores [data.weights] in the global [weights] and calls
    [displayResults]; when it is [false] it alerts 'Error: ' followed by
    [data.error] if that can be converted to a string, and otherwise the
    conversion throws and the [catch] alerts its report instead; for any
    other value it alerts 'Unexpected response format'.  In the last two
    cases [weights] is left as it was.  (A response without fields,
    [null], makes the read of [success] throw, which the [catch]
    reports.) *)
Theorem calculateWeights_branches `{!Runtime} (data : value) (p : page) :
  ∃ matrix,
    Ahp.getPairwiseMatrix p = Some matrix ∧
    Part000.calculateWeights (JsonResolves data) p =
    Ahp.calculateWeights (JsonResolves data) p ∧
    let sent := send (request_of p matrix) p in
    match read_prop data "success" with
    | Some (VBool true) =>
        Ahp.calculateWeights (JsonResolves data) p =
        try_catch (Ahp.displayResults data)
          (λ error, exec (alert (report error)))
          (set_weights (default VUndefined (read_prop data "weights")) sent)
    | Some (VBool false) =>
        match ToString (default VUndefined (read_prop data "error")) with
        | Some text =>
            Ahp.calculateWeights (JsonResolves data) p =
            (Returned (), alert ("Error: " +:+ text) sent)
        | None =>
            ∃ error,
              Ahp.calculateWeights (JsonResolves data) p =
              (Returned (), alert (report error) sent)
        end ∧
        weights (Ahp.calculateWeights (JsonResolves data) p).2 = weights p
    | Some _ =>
        Ahp.calculateWeights (JsonResolves data) p =
        (Returned (), alert "Unexpected response format" sent) ∧
        weights (Ahp.calculateWeights (JsonResolves data) p).2 = weights p
    | None =>
        ∃ error,
          Ahp.calculateWeights (JsonResolves data) p =
          (Returned (), alert (report error) sent) ∧
          weights (Ahp.calculateWeights (JsonResolves data) p).2 = weights p
    end.
Proof.
  destruct (getPairwiseMatrix_entries p) as (m & Hm & _).
  exists m. split; [done|]. by apply calculateWeights_branches_aux.
Qed.

(** C6.  [calculateWeights] (of either script) never throws to its
    caller: the promise it returns is always fulfilled.  Every error
    thrown in its [try] block is caught and reported with an alert: a
    rejected [fetch], a rejected [response.json()], and a throw of
    [displayResults] while it renders. *)
Theorem calculateWeights_never_throws `{!Runtime} (p : page) :
  ∃ matrix,
    Ahp.getPairwiseMatrix p = Some matrix ∧
    (∀ net, (Ahp.calculateWeights net p).1 = Returned () ∧
            (Part000.calculateWeights net p).1 = Returned ()) ∧
    (∀ net e p',
       Ahp.calculateWeights_try matrix net p = (Thrown e, p') →
       Ahp.calculateWeights net p = (Returned (), alert (report e) p')) ∧
    (∀ e, Ahp.calculateWeights (FetchRejects e) p =
          (Returned (), alert (report e) (send (request_of p matrix) p))) ∧
    (∀ e, Ahp.calculateWeights (JsonRejects e) p =
          (Returned (), alert (report e) (send (request_of p matrix) p))) ∧
    (∀ data e p',
       read_prop data "success" = Some (VBool true) →
       Ahp.displayResults data
         (set_weights (default VUndefined (read_prop data "weights"))
            (send (request_of p matrix) p)) = (Thrown e, p') →
       Ahp.calculateWeights (JsonResolves data) p =
       (Returned (), alert (report e) p')).
Proof.
  destruct (getPairwiseMatrix_entries p) as (m & Hm & _).
  exists m. split; [done|].
  assert (∀ net, (Ahp.calculateWeights net p).1 = Returned ()) as Hreturns.
  { intros net. unfold Ahp.calculateWeights. rewrite Hm. unfold try_catch.
    by destruct (Ahp.calculateWeights_try m net p) as [[[]|e] p']. }
  split; [|split; [|split; [|split]]].
  - intros net. split; [apply Hreturns|].
    rewrite calculateWeights_same. apply Hreturns.
  - intros net e p' Htry. unfold Ahp.calculateWeights.
    rewrite Hm. unfold try_catch. by rewrite Htry.
  - intros e. unfold Ahp.calculateWeights. by rewrite Hm.
  - intros e. unfold Ahp.calculateWeights. by rewrite Hm.
  - intros data e p' Hsuccess Hrender.
    destruct (calculateWeights_branches_aux data p m Hm) as [Hsame Hbranch].
    rewrite Hsuccess in Hbranch. rewrite Hbranch.
    unfold try_catch. by rewrite Hrender.
Qed.

(** ** The names of the comparisons *)

Lemma string_of_uint_no_underscore d :
  no_underscore (NilEmpty.string_of_uint d).
Proof. induction d; simpl; (split; [discriminate|done]) || done. Qed.

Lemma append_nil s : "" +:+ s = s.
Proof. reflexivity. Qed.

Lemma append_cons c s t : String c s +:+ t = String c (s +:+ t).
Proof. reflexivity. Qed.

Lemma append_underscore_inj s1 s2 t1 t2 :
  no_underscore s1 → no_underscore s2 →
  s1 +:+ "_" +:+ t1 = s2 +:+ "_" +:+ t2 → s1 = s2 ∧ t1 = t2.
Proof.
  revert s2. induction s1 as [|c s1 IH]; intros [|c2 s2] H1 H2 Heq;
    rewrite ?append_cons, ?append_nil in Heq.
  - by injection Heq as ->.
  - injection Heq as Hc _. destruct H2 as [H2 _]. by subst.
  - injection Heq as Hc _. destruct H1 as [H1 _]. by subst.
  - injection Heq as Hc Heq. destruct H1 as [_ H1], H2 as [_ H2].
    destruct (IH s2 H1 H2 Heq) as [-> ->]. by subst.
Qed.

Lemma string_of_nat_inj n n' : string_of_nat n = string_of_nat n' → n = n'.
Proof.
  unfold string_of_nat. intros Heq. apply Unsigned.to_uint_inj.
  apply (f_equal NilEmpty.uint_of_string) in Heq.
  rewrite !NilEmpty.usu in Heq. congruence.
Qed.

Lemma compare_name_inj i j i' j' :
  Ahp.compare_name i j = Ahp.compare_name i' j' → i = i' ∧ j = j'.
Proof.
  unfold Ahp.compare_name. intros Heq.
  apply (inj (String.app "compare_")) in Heq.
  apply append_underscore_inj in Heq as [Hi Hj];
    try apply string_of_uint_no_underscore.
  split; by apply string_of_nat_inj.
Qed.

(** ** The pairs *)

Lemma elem_of_pairs n i j : (i, j) ∈ pairs n ↔ i < j < n.
Proof.
  unfold pairs. rewrite list_elem_of_bind. split.
  - intros (i' & Hin & Hi'). apply list_elem_of_fmap in Hin as (j' & [= -> ->] & Hj').
    apply elem_of_seq in Hj'. lia.
  - intros Hij. exists i. split.
    + apply list_elem_of_fmap. exists j. split; [done|]. apply elem_of_seq. lia.
    + apply elem_of_seq. lia.
Qed.

Lemma seq_sorted a k : StronglySorted lt (seq a k).
Proof.
  revert a. induction k as [|k IH]; intros a; simpl; constructor; [apply IH|].
  apply Forall_forall. intros x Hx%elem_of_seq. lia.
Qed.

Lemma pairs_sorted n : StronglySorted lex_lt (pairs n).
Proof.
  unfold pairs. pose proof (seq_sorted 0 n) as Hs. revert Hs.
  generalize (seq 0 n) as l. induction l as [|i l IH]; intros Hs.
  - constructor.
  - apply StronglySorted_cons in Hs as [Hi Hs]. rewrite bind_cons.
    apply StronglySorted_app. split; [|split; [|by apply IH]].
    + intros a b (ja & -> & Hja)%list_elem_of_fmap
        (i' & (jb & -> & Hjb)%list_elem_of_fmap & Hi')%list_elem_of_bind.
      left. simpl. rewrite Forall_forall in Hi. by apply Hi.
    + generalize (seq_sorted (i + 1) (n - (i + 1))).
      generalize (seq (i + 1) (n - (i + 1))) as js.
      induction js as [|j js IHjs]; intros Hjs; [constructor|].
      apply StronglySorted_cons in Hjs as [Hj Hjs]. 
      cbn [fmap list_fmap]. constructor; [by apply IHjs|].
      apply Forall_forall. intros b (j' & -> & Hj')%list_elem_of_fmap.
      right. simpl. rewrite Forall_forall in Hj. split; [done|by apply Hj].
Qed.

Lemma length_pairs_from n k :
  k ≤ n →
  2 * length (i ← seq 0 k; pair i <$> seq (i + 1) (n - (i + 1))) =
  k * (2 * n - k - 1).
Proof.
  induction k as [|k IH]; intros Hk; [done|].
  rewrite seq_S, bind_app, length_app, Nat.mul_add_distr_l, IH by lia.
  simpl. rewrite app_nil_r, length_fmap, length_seq. nia.
Qed.

Lemma length_pairs n : length (pairs n) = n * (n - 1) / 2.
Proof.
  pose proof (length_pairs_from n n (le_n n)) as Hlen. fold (pairs n) in Hlen.
  replace (n * (n - 1)) with (length (pairs n) * 2) by nia.
  by rewrite Nat.div_mul.
Qed.

(** ** Sessions *)

Section Sessions.
Context `{!Runtime}.

(** [calculateWeights] changes the globals [weights], the results element,
    [localStorage] and the logs only. *)
Lemma calculateWeights_preserves {B} (f : page → B) net :
  (∀ v p, f (set_results_innerHTML v p) = f p) →
  (∀ v p, f (set_results_display v p) = f p) →
  (∀ k v p, f (setItem k v p) = f p) →
  (∀ v p, f (set_weights v p) = f p) →
  (∀ v p, f (alert v p) = f p) →
  (∀ v p, f (send v p) = f p) →
  preserves f (Ahp.calculateWeights net).
Proof.
  intros Hhtml Hdisplay Hstore Hweights Halert Hsend p.
  unfold Ahp.calculateWeights.
  destruct (Ahp.getPairwiseMatrix p) as [m|]; [|done].
  revert p. change (preserves f
    (try_catch (Ahp.calculateWeights_try m net)
       (λ error, exec (alert ("Error calculating weights: " +:+ exn_toString error))))).
  unfold Ahp.calculateWeights_try.
  repeat first
    [ apply displayResults_preserves; assumption
    | apply preserves_exec; intros ?;
      first [apply Hweights|apply Halert|apply Hsend]
    | frame_step ].
Qed.

Lemma generatePairwiseComparisons_criteria p :
  criteria (Ahp.generatePairwiseComparisons p) = criteria p.
Proof.
  unfold Ahp.generatePairwiseComparisons.
  by destruct (length (criteria p) <? 2).
Qed.

Lemma ahp_step_criteria p e : criteria (Ahp.step p e) = criteria p.
Proof.
  destruct e as [|row k|net]; cbn [Ahp.step].
  - apply generatePairwiseComparisons_criteria.
  - done.
  - by apply calculateWeights_preserves.
Qed.

Lemma ahp_run_criteria p es : criteria (Ahp.run p es) = criteria p.
Proof.
  unfold Ahp.run. revert p. induction es as [|e es IH]; intros p; [done|].
  cbn [foldl]. rewrite IH. apply ahp_step_criteria.
Qed.

Lemma addCriteria_criteria p :
  criteria (Part000.addCriteria p) =
  if decide (trim (newCriteria_value p) ≠ "" ∧
             trim (newCriteria_value p) ∉ criteria p)
  then criteria p ++ [trim (newCriteria_value p)]
  else criteria p.
Proof.
  unfold Part000.addCriteria.
  destruct (String.eqb_spec (trim (newCriteria_value p)) "") as [Hempty|Hne];
    cbn [negb andb].
  - rewrite decide_False by tauto. done.
  - destruct (bool_decide_reflect (trim (newCriteria_value p) ∈ criteria p));
      cbn [negb].
    + rewrite decide_False by tauto. done.
    + rewrite decide_True by done. done.
Qed.

Lemma removeCriteria_criteria item p :
  criteria (Part000.removeCriteria item p) =
  filter (λ c, c ≠ trim (tag_span item)) (criteria p).
Proof. reflexivity. Qed.

(** No criterion twice, and no empty criterion. *)
Lemma part000_step_unique p e :
  NoDup (criteria p) ∧ "" ∉ criteria p →
  NoDup (criteria (Part000.step p e)) ∧ "" ∉ criteria (Part000.step p e).
Proof.
  intros [Hnodup Hne].
  destruct e as [text| |item| |row k|net]; cbn [Part000.step].
  - done.
  - rewrite addCriteria_criteria. case_decide as Hadd; [|done].
    destruct Hadd as [Hnew Hnotin]. split.
    + apply NoDup_app. split; [done|]. split; [|apply NoDup_singleton].
      intros x Hx ->%list_elem_of_singleton. done.
    + intros [Hin|Hin%list_elem_of_singleton]%elem_of_app; [done|].
      by apply Hnew.
  - rewrite removeCriteria_criteria. split.
    + by apply NoDup_filter.
    + intros [_ Hin]%list_elem_of_filter. done.
  - change (Part000.generatePairwiseComparisons p)
      with (Ahp.generatePairwiseComparisons p).
    by rewrite generatePairwiseComparisons_criteria.
  - done.
  - change (Part000.calculateWeights net p) with (Ahp.calculateWeights net p).
    by rewrite (calculateWeights_preserves criteria).
Qed.

Lemma part000_run_unique p es :
  NoDup (criteria p) ∧ "" ∉ criteria p →
  NoDup (criteria (Part000.run p es)) ∧ "" ∉ criteria (Part000.run p es).
Proof.
  unfold Part000.run. revert p. induction es as [|e es IH]; intros p Hp; [done|].
  cbn [foldl]. by apply IH, part000_step_unique.
Qed.

Lemma criteria0_unique : NoDup Ahp.criteria0 ∧ "" ∉ Ahp.criteria0.
Proof.
  split.
  - apply (bool_decide_unpack _). by vm_compute.
  - apply (bool_decide_unpack _). by vm_compute.
Qed.

(** A session of part_000 that neither adds nor removes keeps the list. *)
Lemma part000_step_criteria p e :
  e ≠ Part000.Add → (∀ item, e ≠ Part000.Remove item) →
  criteria (Part000.step p e) = criteria p.
Proof.
  intros Hadd Hremove.
  destruct e as [text| |item| |row k|net]; cbn [Part000.step].
  - done.
  - done.
  - by destruct (Hremove item).
  - apply generatePairwiseComparisons_criteria.
  - done.
  - change (Part000.calculateWeights net p) with (Ahp.calculateWeights net p).
    by rewrite (calculateWeights_preserves criteria).
Qed.

Lemma part000_run_criteria p es :
  Forall (λ e, e ≠ Part000.Add ∧ ∀ item, e ≠ Part000.Remove item) es →
  criteria (Part000.run p es) = criteria p.
Proof.
  unfold Part000.run. revert p. induction es as [|e es IH]; intros p Hes; [done|].
  apply Forall_cons in Hes as [[Hadd Hremove] Hes].
  cbn [foldl]. rewrite IH by done. by apply part000_step_criteria.
Qed.

(** *** The comparison rows stay a radio-selection state *)

Lemma map_imap_same {A C} (h : A → C) (F : nat → A → A) l :
  (∀ a x, h (F a x) = h x) → map h (imap F l) = map h l.
Proof.
  revert F. induction l as [|x l IH]; intros F HF; [done|].
  cbn [imap map]. rewrite HF. f_equal. apply IH. intros a y. apply HF.
Qed.

Lemma erase_checked_check_radio row k rows :
  erase_checked (check_radio row k rows) = erase_checked rows.
Proof.
  unfold check_radio.
  destruct (rows !! row ≫= λ r, radio_scale r !! k) as [target|]; [|done].
  unfold erase_checked. apply map_imap_same. intros a r.
  unfold set_radio_scale. cbn [radio_scale compare_label_left compare_label_right].
  f_equal. apply map_imap_same. intros b x.
  destruct (bool_decide _); [done|]. by destruct (String.eqb _ _).
Qed.

Lemma generatePairwiseComparisons_selection p :
  radio_selection_state (pairwiseComparisonsContainer p) →
  radio_selection_state
    (pairwiseComparisonsContainer (Ahp.generatePairwiseComparisons p)).
Proof.
  intros Hsel. destruct (decide (length (criteria p) < 2)) as [Hn|Hn].
  - by rewrite generatePairwiseComparisons_few.
  - right. exists p. split; [lia|done].
Qed.

Lemma check_radio_selection row k rows :
  radio_selection_state rows → radio_selection_state (check_radio row k rows).
Proof.
  intros [->|(p0 & Hn & Herase)]; [by left|].
  right. exists p0. split; [done|]. by rewrite erase_checked_check_radio.
Qed.

Lemma ahp_run_selection p es :
  radio_selection_state (pairwiseComparisonsContainer p) →
  radio_selection_state (pairwiseComparisonsContainer (Ahp.run p es)).
Proof.
  unfold Ahp.run. revert p. induction es as [|e es IH]; intros p Hp; [done|].
  cbn [foldl]. apply IH. destruct e as [|row k|net]; cbn [Ahp.step].
  - by apply generatePairwiseComparisons_selection.
  - by apply check_radio_selection.
  - by rewrite (calculateWeights_preserves pairwiseComparisonsContainer).
Qed.

Lemma part000_run_selection p es :
  radio_selection_state (pairwiseComparisonsContainer p) →
  radio_selection_state (pairwiseComparisonsContainer (Part000.run p es)).
Proof.
  unfold Part000.run. revert p. induction es as [|e es IH]; intros p Hp; [done|].
  cbn [foldl]. apply IH.
  destruct e as [text| |item| |row k|net]; cbn [Part000.step].
  - done.
  - unfold Part000.addCriteria. by destruct (_ && _).
  - done.
  - by apply generatePairwiseComparisons_selection.
  - by apply check_radio_selection.
  - change (Part000.calculateWeights net p) with (Ahp.calculateWeights net p).
    by rewrite (calculateWeights_preserves pairwiseComparisonsContainer).
Qed.

End Sessions.

Lemma sorted_NoDup n : NoDup (pairs n).
Proof.
  pose proof (pairs_sorted n) as Hs. induction Hs as [|a l Hs IH Ha].
  - constructor.
  - constructor; [|done]. intros Hin. rewrite Forall_forall in Ha.
    destruct (Ha a Hin) as [Hlt|[_ Hlt]]; lia.
Qed.

Lemma scale_radios_offer `{!Runtime} name :
  (λ r, (input_name r, input_value r, input_checked r)) <$> scale_radios name =
  (λ v, (name, Number_toString v, (v =? 1)%float)) <$> scale.
Proof. reflexivity. Qed.

(** ** The claims about the criteria and the comparisons *)

(** C7.  In part_000 the criteria list has no name twice and no empty
    name after any sequence of events, starting from the initial list;
    [addCriteria] appends the trimmed text of the input when it is not
    empty and not yet in the list, and does nothing to the list
    otherwise; [removeCriteria] removes every occurrence of the trimmed
    text of the tag, and nothing else. *)
Theorem criteria_unique_nonempty `{!Runtime}
    (storage : gmap string string) (es : list Part000.event) :
  (NoDup (criteria (Part000.run (Part000.initial storage) es)) ∧
   "" ∉ criteria (Part000.run (Part000.initial storage) es)) ∧
  (∀ p, criteria (Part000.addCriteria p) =
        if decide (trim (newCriteria_value p) ≠ "" ∧
                   trim (newCriteria_value p) ∉ criteria p)
        then criteria p ++ [trim (newCriteria_value p)]
        else criteria p) ∧
  (∀ item p,
     criteria (Part000.removeCriteria item p) =
     filter (λ c, c ≠ trim (tag_span item)) (criteria p) ∧
     trim (tag_span item) ∉ criteria (Part000.removeCriteria item p)).
Proof.
  split; [|split].
  - apply part000_run_unique, criteria0_unique.
  - apply addCriteria_criteria.
  - intros item p. split; [apply removeCriteria_criteria|].
    rewrite removeCriteria_criteria. intros [Hne _]%list_elem_of_filter. done.
Qed.

(** C8, as the code has it.  ahp.js hardcodes exactly nine criteria: its
    criteria list is the nine named criteria, Price through Steam Chart
    Current Player, throughout a session.  part_000 starts from the same
    nine criteria, and keeps them as long as the session neither adds nor
    removes a criterion. *)
Theorem criteria_fixed_in_ahp `{!Runtime} (storage : gmap string string) :
  length Ahp.criteria0 = 9 ∧
  head Ahp.criteria0 = Some "Price" ∧
  last Ahp.criteria0 = Some "Steam Chart Current Player" ∧
  (∀ es, criteria (Ahp.run (Ahp.initial storage) es) = Ahp.criteria0) ∧
  criteria (Part000.initial storage) = Ahp.criteria0 ∧
  (∀ es,
     Forall (λ e, e ≠ Part000.Add ∧ ∀ item, e ≠ Part000.Remove item) es →
     criteria (Part000.run (Part000.initial storage) es) = Ahp.criteria0).
Proof.
  split; [done|]. split; [done|]. split; [done|]. split; [|split].
  - intros es. by rewrite ahp_run_criteria.
  - done.
  - intros es Hes. by rewrite part000_run_criteria.
Qed.

(** C8, as the claim has it, fails on part_000: after the user has typed
    a name and added it, the list has ten criteria. *)
Lemma part000_criteria_grows :
  length (criteria (@Part000.run sample_runtime (Part000.initial ∅)
                      [Part000.Type_newCriteria "Genre"; Part000.Add])) = 10 ∧
  length (criteria (@Part000.run sample_runtime (Part000.initial ∅)
                      [Part000.Type_newCriteria "Genre"; Part000.Add])) ≠ 9.
Proof. split; [reflexivity|discriminate]. Qed.

(** C9.  For every criteria list and every radio-selection state, the
    functions [createRadio], [generatePairwiseComparisons],
    [getPairwiseMatrix], [calculateWeights] and [displayResults] of ahp.js
    and those of part_000 give the same result and leave the same page;
    the two scripts also start from the same criteria. *)
Theorem scripts_agree `{!Runtime} :
  (∀ name value text isChecked,
     Part000.createRadio name value text isChecked =
     Ahp.createRadio name value text isChecked) ∧
  (∀ p, Part000.generatePairwiseComparisons p =
        Ahp.generatePairwiseComparisons p) ∧
  (∀ p, Part000.getPairwiseMatrix p = Ahp.getPairwiseMatrix p) ∧
  (∀ net p, Part000.calculateWeights net p = Ahp.calculateWeights net p) ∧
  (∀ data p, Part000.displayResults data p = Ahp.displayResults data p) ∧
  Part000.criteria0 = Ahp.criteria0.
Proof. repeat split. Qed.

(** The names of ahp.js carry no markup. *)
Lemma criteria0_plain : Forall markup_free Ahp.criteria0.
Proof. unfold Ahp.criteria0. repeat constructor. Qed.

(** The rows written for criteria without markup have labels without. *)
Lemma generated_rows_plain `{!Runtime} p :
  Forall markup_free (criteria p) →
  Forall row_plain (comparison_row_of p <$> pairs (length (criteria p))).
Proof.
  intros Hp. rewrite Forall_forall in Hp.
  apply Forall_fmap, Forall_forall. intros [i j] Hij%elem_of_pairs.
  destruct (lookup_lt_is_Some_2 (criteria p) i) as [ci Hci]; [lia|].
  destruct (lookup_lt_is_Some_2 (criteria p) j) as [cj Hcj]; [lia|].
  unfold row_plain, comparison_row_of, Ahp.criteria_at. cbn.
  rewrite Hci, Hcj. cbn.
  split; apply Hp; by eapply list_elem_of_lookup_2.
Qed.

Lemma rows_shown_plain p :
  Forall row_plain (pairwiseComparisonsContainer p) →
  rows_shown p = Some (pairwiseComparisonsContainer p).
Proof. intros Hp. unfold rows_shown. by rewrite decide_True. Qed.

Lemma rows_shown_generated `{!Runtime} p :
  2 ≤ length (criteria p) → Forall markup_free (criteria p) →
  rows_shown (Ahp.generatePairwiseComparisons p) =
  Some (comparison_row_of p <$> pairs (length (criteria p))).
Proof.
  intros Hn Hp. rewrite rows_shown_plain;
    rewrite generatePairwiseComparisons_rows by done; [done|].
  by apply generated_rows_plain.
Qed.

Lemma document_rows_shown `{!Runtime} p rows :
  rows_shown p = Some rows → document_rows p = rows.
Proof. intros Hrows. unfold document_rows. by rewrite Hrows. Qed.

(** C10, as the code has it.  For a criteria list of length n ≥ 2 whose
    names carry no markup, as those of ahp.js do,
    [generatePairwiseComparisons] leaves in the document exactly n(n-1)/2
    comparison rows, one per pair (i, j) with i < j < n, in lexicographic
    order, under names that differ from pair to pair; each offers the 17
    scale values with 1 checked.  (The names are written into the rows
    unescaped, so markup in a name is parsed.)  For n < 2 the function
    alerts and leaves the container as it was.  [getPairwiseMatrix] reads
    the page only through the checked inputs of the names of these
    pairs. *)
Theorem generatePairwiseComparisons_groups `{!Runtime} (p : page) :
  Part000.generatePairwiseComparisons p = Ahp.generatePairwiseComparisons p ∧
  Forall markup_free Ahp.criteria0 ∧
  (2 ≤ length (criteria p) → Forall markup_free (criteria p) →
   document_rows (Ahp.generatePairwiseComparisons p) =
     comparison_row_of p <$> pairs (length (criteria p)) ∧
   length (comparison_row_of p <$> pairs (length (criteria p))) =
     length (criteria p) * (length (criteria p) - 1) / 2 ∧
   (∀ i j, (i, j) ∈ pairs (length (criteria p)) ↔ i < j < length (criteria p)) ∧
   StronglySorted lex_lt (pairs (length (criteria p))) ∧
   NoDup ((λ ij, Ahp.compare_name ij.1 ij.2) <$> pairs (length (criteria p))) ∧
   length scale = 17 ∧
   filter (λ v, (v =? 1)%float = true) scale = [1%float] ∧
   (∀ ij,
      (λ r, (input_name r, input_value r, input_checked r)) <$>
        radio_scale (comparison_row_of p ij) =
      (λ v, (Ahp.compare_name ij.1 ij.2, Number_toString v, (v =? 1)%float))
        <$> scale)) ∧
  (length (criteria p) < 2 →
   Ahp.generatePairwiseComparisons p =
     alert "Please add at least 2 criteria" p ∧
   pairwiseComparisonsContainer (Ahp.generatePairwiseComparisons p) =
     pairwiseComparisonsContainer p) ∧
  (∀ p',
     length (criteria p') = length (criteria p) →
     (∀ i j, i < j < length (criteria p) →
        querySelector_checked p' (Ahp.compare_name i j) =
        querySelector_checked p (Ahp.compare_name i j)) →
     Ahp.getPairwiseMatrix p' = Ahp.getPairwiseMatrix p).
Proof.
  split; [done|]. split; [apply criteria0_plain|]. split; [|split].
  - intros Hn Hp.
    split; [by apply document_rows_shown, rows_shown_generated|].
    split; [by rewrite length_fmap, length_pairs|].
    split; [apply elem_of_pairs|]. split; [apply pairs_sorted|].
    split; [|split; [done|split; [done|]]].
    + apply NoDup_fmap_2_strong; [|apply sorted_NoDup].
      intros [i j] [i' j'] _ _ Heq. cbn [fst snd] in Heq.
      by apply compare_name_inj in Heq as [-> ->].
    + intros ij. apply scale_radios_offer.
  - intros Hn. rewrite generatePairwiseComparisons_few by done. done.
  - intros p' Hlen Hquery. unfold Ahp.getPairwiseMatrix. rewrite Hlen.
    unfold for_rangeM. apply for_loopM_ext. intros i m Hi.
    apply for_loopM_ext. intros j m' Hj. cbv zeta.
    rewrite Hquery by lia. done.
Qed.

(** ** The claims at work on examples *)

Lemma sample_reads_back_scale : @reads_back_scale sample_runtime.
Proof. unfold reads_back_scale, scale. repeat constructor. Defined.

Lemma sample_selection_state :
  @radio_selection_state sample_runtime
    (pairwiseComparisonsContainer sample_page).
Proof.
  right. exists sample_unrendered. split; [repeat constructor|].
  vm_compute. reflexivity.
Defined.

Lemma sample_as_written : document_as_written sample_page.
Proof.
  split; [constructor|]. split; [|constructor].
  repeat constructor.
Defined.

(** C1 on the sample page: the hypotheses hold there, and the matrix is
    reciprocal at every pair of indices. *)
Lemma getPairwiseMatrix_reciprocal_witness :
  @reads_back_scale sample_runtime ∧
  @radio_selection_state sample_runtime
    (pairwiseComparisonsContainer sample_page) ∧
  document_as_written sample_page ∧
  ∃ m,
    @Ahp.getPairwiseMatrix sample_runtime sample_page = Some m ∧
    is_square (length (criteria sample_page)) m ∧
    ∀ i j, i < length (criteria sample_page) →
           j < length (criteria sample_page) →
      ∃ x y, cell m i j = Some x ∧ cell m j i = Some y ∧
             y = (1 / x)%float.
Proof.
  split; [exact sample_reads_back_scale|].
  split; [exact sample_selection_state|].
  split; [exact sample_as_written|].
  destruct (@getPairwiseMatrix_reciprocal sample_runtime sample_page)
    as (m & Hm & _ & Hsq & _ & _ & Hall).
  exists m. split; [exact Hm|]. split; [exact Hsq|].
  exact (Hall sample_reads_back_scale sample_selection_state sample_as_written).
Defined.

(** C1, as the claim has it, fails in a document that holds a checked
    input besides the radios of the scale: [getPairwiseMatrix] (of either
    script) reads its value 49 into [m[0][1]] and 1/49 into [m[1][0]], and
    [1 / (1 / 49)] is not 49 in binary64 arithmetic, so [m[0][1]] is not
    [1 / m[1][0]]. *)
Lemma foreign_input_breaks_reciprocal :
  ∃ m,
    @Ahp.getPairwiseMatrix reading_runtime foreign_input_page = Some m ∧
    @Part000.getPairwiseMatrix reading_runtime foreign_input_page = Some m ∧
    cell m 0 1 = Some 49%float ∧
    cell m 1 0 = Some (1 / 49)%float ∧
    (1 / (1 / 49) =? 49)%float = false.
Proof. eexists. repeat split; vm_compute; reflexivity. Qed.


(** C3 on a page without comparison rows: both entries stay 1. *)
Lemma getPairwiseMatrix_default_witness :
  0 < 1 < length (criteria sample_unrendered) ∧
  querySelector_checked sample_unrendered (Ahp.compare_name 0 1) = None ∧
  ∃ m,
    @Ahp.getPairwiseMatrix sample_runtime sample_unrendered = Some m ∧
    cell m 0 1 = Some 1%float ∧ cell m 1 0 = Some 1%float.
Proof.
  split; [split; repeat constructor|]. split; [reflexivity|].
  destruct (@getPairwiseMatrix_default sample_runtime sample_unrendered)
    as (m & Hm & _ & Hcells).
  exists m. split; [exact Hm|].
  destruct (Hcells 0 1) as (Hnone & _ & _); [split; repeat constructor|].
  apply Hnone. reflexivity.
Defined.

Lemma sample_response_renderable : @renderable sample_runtime sample_response.
Proof.
  exists [VStr "Price"; VStr "Release Year"], (VArr [VNum 0.75; VNum 0.25]),
    0%float.
  split; [reflexivity|]. split; [reflexivity|]. split; [|reflexivity].
  intros [|[|k]] c [= <-]; by eexists _, _, _.
Defined.

(** C4 on the sample response: it can be rendered and is consistent, so
    [displayResults] returns and both keys are written. *)
Lemma displayResults_persists_witness :
  @renderable sample_runtime sample_response ∧
  ∃ p',
    @Ahp.displayResults sample_runtime sample_response sample_page =
      (Returned (), p') ∧
    localStorage p' =
      <["ahp_criteria" :=
          @JSON_stringify sample_runtime (VArr [VStr "Price"; VStr "Release Year"])]>
        (<["ahp_weights" :=
             @JSON_stringify sample_runtime (VArr [VNum 0.75; VNum 0.25])]>
           (localStorage sample_page)).
Proof.
  split; [exact sample_response_renderable|].
  destruct (@displayResults_persists_iff_consistent sample_runtime
              sample_response sample_page)
    as (_ & _ & _ & [[Hno _]|[_ (p' & b & w & c & Hrun & Hb & Hw & Hc & Hstore & _)]]).
  - destruct (Hno sample_response_renderable).
  - exists p'. split; [exact Hrun|].
    injection Hb as <-. injection Hw as <-. injection Hc as <-.
    exact Hstore.
Defined.

(** C4, as the claim has it, fails when [is_consistent] is truthy without
    being [true]: for the number 1 both keys are written and the Next link
    is rendered. *)
Lemma truthy_is_consistent_persists :
  read_prop sample_truthy "is_consistent" = Some (VNum 1) ∧
  ∃ p',
    @Ahp.displayResults sample_runtime sample_truthy sample_page =
      (Returned (), p') ∧
    is_Some (localStorage p' !! "ahp_weights") ∧
    is_Some (localStorage p' !! "ahp_criteria") ∧
    localStorage sample_page !! "ahp_weights" = None ∧
    results_shown p' ≫= last = Some (NextBtn "/saw" "Next: SAW Ranking").
Proof.
  split; [reflexivity|]. eexists. split; [vm_compute; reflexivity|].
  split; [by eexists|]. split; [by eexists|]. split; reflexivity.
Qed.

(** C5, as the claim has it, fails on a failure response whose [error]
    cannot be converted to a string: the alert does not show [data.error]
    but the report of the [catch]. *)
Lemma unprintable_error_not_surfaced :
  read_prop sample_unprintable_error "success" = Some (VBool false) ∧
  @ToString sample_runtime (VObj [("toString", VNum 1)]) = None ∧
  alerts (@Ahp.calculateWeights sample_runtime
            (JsonResolves sample_unprintable_error) sample_page).2 =
  [ "Error calculating weights: TypeError: Cannot convert object to primitive value" ].
Proof. split; [reflexivity|]. split; [reflexivity|]. vm_compute. reflexivity. Qed.

(** C6 on the sample page: a response with [success] but nothing to
    render makes [displayResults] throw; the promise is fulfilled all the
    same, and the alert reports the error. *)
Lemma calculateWeights_never_throws_witness :
  (@Ahp.calculateWeights sample_runtime
     (JsonResolves (VObj [("success", VBool true)])) sample_page).1 =
  Returned () ∧
  alerts (@Ahp.calculateWeights sample_runtime
            (JsonResolves (VObj [("success", VBool true)])) sample_page).2 =
  [ "Error calculating weights: TypeError: Cannot read properties of null or undefined (reading 'forEach')" ] ∧
  (@Ahp.calculateWeights sample_runtime
     (FetchRejects (TypeError "Failed to fetch")) sample_page).1 =
  Returned ().
Proof.
  destruct (@calculateWeights_never_throws sample_runtime sample_page)
    as (m & _ & Hreturns & _).
  split; [apply Hreturns|]. split; [vm_compute; reflexivity|apply Hreturns].
Defined.

(** C8 on a session of part_000 that only compares: the nine criteria
    stay. *)
Lemma criteria_fixed_witness :
  Forall (λ e, e ≠ Part000.Add ∧ ∀ item, e ≠ Part000.Remove item)
    [Part000.Generate; Part000.Check 0 3] ∧
  criteria (@Part000.run sample_runtime (Part000.initial ∅)
              [Part000.Generate; Part000.Check 0 3]) = Ahp.criteria0.
Proof.
  assert (Forall (λ e, e ≠ Part000.Add ∧ ∀ item, e ≠ Part000.Remove item)
            [Part000.Generate; Part000.Check 0 3]) as Hes.
  { repeat constructor; discriminate. }
  split; [exact Hes|].
  destruct (@criteria_fixed_in_ahp sample_runtime ∅)
    as (_ & _ & _ & _ & _ & Hkeeps).
  exact (Hkeeps _ Hes).
Defined.

Lemma sample_unrendered_plain : Forall markup_free (criteria sample_unrendered).
Proof. repeat constructor. Defined.

(** C10 on the two sample criteria: one comparison row. *)
Lemma generatePairwiseComparisons_groups_witness :
  2 ≤ length (criteria sample_unrendered) ∧
  Forall markup_free (criteria sample_unrendered) ∧
  length (@document_rows sample_runtime
            (@Ahp.generatePairwiseComparisons sample_runtime
               sample_unrendered)) =
  length (criteria sample_unrendered) *
    (length (criteria sample_unrendered) - 1) / 2.
Proof.
  assert (2 ≤ length (criteria sample_unrendered)) as Hn
    by (repeat constructor).
  split; [exact Hn|]. split; [exact sample_unrendered_plain|].
  destruct (@generatePairwiseComparisons_groups sample_runtime sample_unrendered)
    as (_ & _ & Hrows & _).
  destruct (Hrows Hn sample_unrendered_plain) as (Hshown & Hlength & _).
  rewrite Hshown. exact Hlength.
Defined.

(** C10, as the claim has it, fails for a criteria list with markup in a
    name: for the two criteria Price and
    [<input type=radio name=compare_0_1 value=5>] of part_000, the one
    comparison group of the document offers 18 radios, the value 5 twice,
    and its right label is empty. *)
Lemma markup_name_adds_radio :
  length (criteria sample_markup_page) = 2 ∧
  ∃ row,
    @document_rows sample_runtime
      (@Part000.generatePairwiseComparisons sample_runtime
         sample_markup_page) = [row] ∧
    length (radio_scale row) = 18 ∧
    Forall (λ x, input_name x = "compare_0_1") (radio_scale row) ∧
    length (filter (λ x, input_value x = "5") (radio_scale row)) = 2 ∧
    compare_label_right row = "".
Proof.
  split; [reflexivity|]. eexists. split; [vm_compute; reflexivity|].
  split; [reflexivity|]. split; [repeat constructor|].
  split; reflexivity.
Qed.

(** * Further properties *)

(** ** Trimming *)

Lemma append_empty_r s : s +:+ "" = s.
Proof. induction s as [|c s IH]; [done|]. by rewrite append_cons, IH. Qed.

Lemma append_assoc s1 s2 s3 : (s1 +:+ s2) +:+ s3 = s1 +:+ (s2 +:+ s3).
Proof.
  induction s1 as [|c s1 IH]; [done|]. by rewrite !append_cons, IH.
Qed.

Lemma rev_app_append s1 s2 : String.rev_app s1 s2 = String.rev s1 +:+ s2.
Proof.
  unfold String.rev. revert s2. induction s1 as [|c s1 IH]; intros s2; [done|].
  cbn [String.rev_app]. rewrite IH, (IH (String c "")), append_assoc. done.
Qed.

Lemma rev_cons c s : String.rev (String c s) = String.rev s +:+ String c "".
Proof. unfold String.rev at 1. cbn [String.rev_app]. apply rev_app_append. Qed.

Lemma rev_append s1 s2 :
  String.rev (s1 +:+ s2) = String.rev s2 +:+ String.rev s1.
Proof.
  induction s1 as [|c s1 IH].
  - by rewrite append_nil, append_empty_r.
  - by rewrite append_cons, !rev_cons, IH, append_assoc.
Qed.

Lemma rev_involutive s : String.rev (String.rev s) = s.
Proof.
  induction s as [|c s IH]; [done|].
  by rewrite rev_cons, rev_append, IH.
Qed.

Lemma trimStart_clean s : starts_clean (trimStart s).
Proof.
  induction s as [|c s IH]; [done|]. cbn [trimStart].
  by destruct (is_whitespace c) eqn:Hc.
Qed.

Lemma trimStart_fixed s : starts_clean s → trimStart s = s.
Proof. destruct s as [|c s]; [done|]. cbn. by intros ->. Qed.

Lemma trimStart_suffix s : ∃ w, s = w +:+ trimStart s.
Proof.
  induction s as [|c s [w Hw]]; [by exists ""|]. cbn [trimStart].
  destruct (is_whitespace c).
  - exists (String c w). by rewrite append_cons, <- Hw.
  - by exists "".
Qed.

Lemma trimEnd_prefix t : ∃ w, t = trimEnd t +:+ w.
Proof.
  unfold trimEnd. destruct (trimStart_suffix (String.rev t)) as [w Hw].
  exists (String.rev w). rewrite <- rev_append, <- Hw. by rewrite rev_involutive.
Qed.

Lemma trimEnd_clean t : starts_clean t → starts_clean (trimEnd t).
Proof.
  intros Ht. destruct (trimEnd_prefix t) as [w Hw].
  destruct (trimEnd t) as [|c r]; [done|].
  rewrite Hw, append_cons in Ht. done.
Qed.

Lemma trimEnd_idempotent t : trimEnd (trimEnd t) = trimEnd t.
Proof.
  unfold trimEnd. rewrite rev_involutive.
  by rewrite (trimStart_fixed _ (trimStart_clean _)).
Qed.

(** Trimming a trimmed string changes nothing. *)
Lemma trim_idempotent s : trim (trim s) = trim s.
Proof.
  unfold trim.
  rewrite (trimStart_fixed (trimEnd (trimStart s))).
  - apply trimEnd_idempotent.
  - apply trimEnd_clean, trimStart_clean.
Qed.

Lemma trim_whitespace s :
  (∀ c, c ∈ list_ascii_of_string s → is_whitespace c = true) → trim s = "".
Proof.
  intros Hs. assert (trimStart s = "") as Hstart.
  { induction s as [|c s IH]; [done|]. cbn [trimStart].
    rewrite Hs by (cbn; apply list_elem_of_here).
    apply IH. intros c' Hc'. apply Hs. cbn. by apply list_elem_of_further. }
  unfold trim. by rewrite Hstart.
Qed.

Lemma trim_clean s :
  starts_clean (trim s) ∧ starts_clean (String.rev (trim s)).
Proof.
  split.
  - apply trimEnd_clean, trimStart_clean.
  - unfold trim, trimEnd. rewrite rev_involutive. apply trimStart_clean.
Qed.

Lemma filter_ne_absent (c : string) (l : list string) :
  c ∉ l → filter (λ x, x ≠ c) l = l.
Proof.
  intros Hc. induction l as [|x l IH]; [done|].
  apply not_elem_of_cons in Hc as [Hne Hc].
  rewrite filter_cons_True by done. by rewrite IH.
Qed.

Lemma filter_ne_delete (c : string) (l : list string) k :
  NoDup l → l !! k = Some c → filter (λ x, x ≠ c) l = delete k l.
Proof.
  intros Hnodup. revert k. induction Hnodup as [|x l Hx Hnodup IH]; intros k Hk.
  - done.
  - destruct k as [|k]; simpl in Hk.
    + injection Hk as ->. rewrite filter_cons_False by (by intros ?).
      by apply filter_ne_absent.
    + assert (x ≠ c) as Hne.
      { intros ->. apply Hx. by eapply list_elem_of_lookup_2. }
      rewrite filter_cons_True by done. cbn. f_equal. by apply IH.
Qed.

(** ** Names without markup *)

Lemma markup_free_append s1 s2 :
  markup_free (s1 +:+ s2) ↔ markup_free s1 ∧ markup_free s2.
Proof.
  induction s1 as [|c s1 IH].
  - rewrite append_nil. cbn. tauto.
  - rewrite append_cons. cbn. tauto.
Qed.

Lemma markup_free_trim s : markup_free s → markup_free (trim s).
Proof.
  intros Hs. unfold trim.
  destruct (trimStart_suffix s) as [w1 Hw1].
  destruct (trimEnd_prefix (trimStart s)) as [w2 Hw2].
  rewrite Hw1 in Hs. apply markup_free_append in Hs as [_ Hs].
  rewrite Hw2 in Hs. by apply markup_free_append in Hs as [Hs _].
Qed.

Lemma tags_shown_plain p :
  Forall markup_free (criteriaList p) →
  tags_shown p = Some (tags_of (criteriaList p)).
Proof. intros Hp. unfold tags_shown. by rewrite decide_True. Qed.

(** ** The criteria of part_000 *)

Section Criteria.
Context `{!Runtime}.

Lemma addCriteria_rejected p :
  trim (newCriteria_value p) = "" ∨ trim (newCriteria_value p) ∈ criteria p →
  Part000.addCriteria p = p.
Proof.
  intros Hrej. unfold Part000.addCriteria.
  destruct (String.eqb_spec (trim (newCriteria_value p)) "") as [_|Hne];
    [done|].
  destruct Hrej as [?|Hin]; [done|].
  by rewrite (bool_decide_eq_true_2 _ Hin).
Qed.

Lemma addCriteria_accepted p :
  trim (newCriteria_value p) ≠ "" → trim (newCriteria_value p) ∉ criteria p →
  Part000.addCriteria p =
  set_newCriteria_value ""
    (Part000.updateCriteriaList
       (set_criteria (criteria p ++ [trim (newCriteria_value p)]) p)).
Proof.
  intros Hne Hnotin. unfold Part000.addCriteria.
  destruct (String.eqb_spec (trim (newCriteria_value p)) ""); [done|].
  by rewrite (bool_decide_eq_false_2 _ Hnotin).
Qed.

Lemma initial_managed storage : criteria_managed (Part000.initial storage).
Proof.
  split; [apply criteria0_unique|]. split; [|done].
  cbn. unfold Part000.criteria0. repeat constructor; by vm_compute.
Qed.

Lemma part000_step_managed p e :
  criteria_managed p → criteria_managed (Part000.step p e).
Proof.
  intros (Hnodup & Hclean & Htags).
  destruct e as [text| |item| |row k|net]; cbn [Part000.step].
  - done.
  - destruct (decide (trim (newCriteria_value p) ≠ "" ∧
                      trim (newCriteria_value p) ∉ criteria p)) as [[Hne Hnew]|Hrej].
    + rewrite addCriteria_accepted by done. split; [|split; [|done]]; cbn.
      * apply NoDup_app. split; [done|]. split; [|apply NoDup_singleton].
        by intros x Hx ->%list_elem_of_singleton.
      * apply Forall_app. split; [done|]. repeat constructor; [done|].
        apply trim_idempotent.
    + rewrite addCriteria_rejected; [done|].
      destruct (decide (trim (newCriteria_value p) = "")); [by left|].
      right. apply dec_stable. tauto.
  - split; [|split; [|done]]; cbn.
    + by apply NoDup_filter.
    + apply Forall_forall. intros c [_ Hc]%list_elem_of_filter.
      rewrite Forall_forall in Hclean. by apply Hclean.
  - change (Part000.generatePairwiseComparisons p)
      with (Ahp.generatePairwiseComparisons p).
    unfold criteria_managed.
    rewrite generatePairwiseComparisons_criteria.
    assert (criteriaList (Ahp.generatePairwiseComparisons p) = criteriaList p)
      as ->; [|done].
    unfold Ahp.generatePairwiseComparisons.
    by destruct (length (criteria p) <? 2).
  - done.
  - change (Part000.calculateWeights net p) with (Ahp.calculateWeights net p).
    unfold criteria_managed.
    rewrite (calculateWeights_preserves criteria) by done.
    by rewrite (calculateWeights_preserves criteriaList) by done.
Qed.

Lemma part000_run_managed p es :
  criteria_managed p → criteria_managed (Part000.run p es).
Proof.
  unfold Part000.run. revert p. induction es as [|e es IH]; intros p Hp; [done|].
  cbn [foldl]. by apply IH, part000_step_managed.
Qed.

(** A session in which no markup is typed keeps its criteria free of
    markup. *)
Lemma initial_typed storage : plainly_typed (Part000.initial storage).
Proof. split; [apply criteria0_plain|done]. Qed.

Lemma part000_step_typed p e :
  types_plain_text e → plainly_typed p → plainly_typed (Part000.step p e).
Proof.
  intros He [Hp Hinput].
  destruct e as [text| |item| |row k|net]; cbn [Part000.step].
  - by split.
  - destruct (decide (trim (newCriteria_value p) ≠ "" ∧
                      trim (newCriteria_value p) ∉ criteria p)) as [[Hne Hnew]|Hrej].
    + rewrite addCriteria_accepted by done. split; [|done]. cbn.
      apply Forall_app. split; [done|]. apply Forall_singleton.
      by apply markup_free_trim.
    + rewrite addCriteria_rejected; [by split|].
      destruct (decide (trim (newCriteria_value p) = "")); [by left|].
      right. apply dec_stable. tauto.
  - split; [|done]. cbn. apply Forall_forall.
    intros c [_ Hc]%list_elem_of_filter.
    rewrite Forall_forall in Hp. by apply Hp.
  - change (Part000.generatePairwiseComparisons p)
      with (Ahp.generatePairwiseComparisons p).
    unfold plainly_typed. rewrite generatePairwiseComparisons_criteria.
    assert (newCriteria_value (Ahp.generatePairwiseComparisons p) =
            newCriteria_value p) as ->; [|done].
    unfold Ahp.generatePairwiseComparisons.
    by destruct (length (criteria p) <? 2).
  - by split.
  - change (Part000.calculateWeights net p) with (Ahp.calculateWeights net p).
    unfold plainly_typed.
    rewrite (calculateWeights_preserves criteria) by done.
    by rewrite (calculateWeights_preserves newCriteria_value) by done.
Qed.

Lemma part000_run_typed p es :
  Forall types_plain_text es → plainly_typed p →
  plainly_typed (Part000.run p es).
Proof.
  unfold Part000.run. revert p.
  induction es as [|e es IH]; intros p Hes Hp; [done|].
  apply Forall_cons in Hes as [He Hes].
  cbn [foldl]. by apply IH, part000_step_typed.
Qed.

(** X1.  In every page a session of part_000 reaches without markup
    having been typed, the criteria tags of the document are those of the
    criteria list: one tag per criterion, in the order of the list, its
    span showing the name. *)
Theorem criteriaList_mirrors_criteria (storage : gmap string string)
    (es : list Part000.event) :
  Forall types_plain_text es →
  tags_shown (Part000.run (Part000.initial storage) es) =
  Some (tags_of (criteria (Part000.run (Part000.initial storage) es))).
Proof.
  intros Hes.
  destruct (part000_run_managed _ es (initial_managed storage))
    as (_ & _ & Htags).
  destruct (part000_run_typed _ es Hes (initial_typed storage)) as [Hplain _].
  rewrite tags_shown_plain; rewrite Htags; done.
Qed.

(** X2.  In every page a session of part_000 reaches without markup
    having been typed, the Remove button of the k-th criteria tag of the
    document removes exactly the k-th criterion, from the list and from
    the tags, and nothing else. *)
Theorem remove_button_removes_its_criterion (storage : gmap string string)
    (es : list Part000.event) (tags : list criteria_tag) (k : nat)
    (item : criteria_tag) :
  Forall types_plain_text es →
  tags_shown (Part000.run (Part000.initial storage) es) = Some tags →
  tags !! k = Some item →
  criteria (Part000.removeCriteria item
              (Part000.run (Part000.initial storage) es)) =
    delete k (criteria (Part000.run (Part000.initial storage) es)) ∧
  tags_shown (Part000.removeCriteria item
                (Part000.run (Part000.initial storage) es)) =
    Some (delete k tags).
Proof.
  intros Hes.
  destruct (part000_run_managed _ es (initial_managed storage))
    as (Hnodup & Hclean & Htags).
  destruct (part000_run_typed _ es Hes (initial_typed storage)) as [Hplain _].
  set (p := Part000.run (Part000.initial storage) es) in *.
  rewrite tags_shown_plain, Htags by (by rewrite Htags).
  intros [= <-] Hitem. unfold tags_of in Hitem.
  rewrite list_lookup_fmap in Hitem.
  destruct (criteria p !! k) as [c|] eqn:Hc; [|done].
  injection Hitem as <-.
  assert (trim c = c) as Htrim.
  { rewrite Forall_forall in Hclean.
    by apply Hclean, (list_elem_of_lookup_2 _ k). }
  assert (criteria (Part000.removeCriteria {| tag_span := c |} p) =
          delete k (criteria p)) as Hcriteria.
  { rewrite removeCriteria_criteria. cbn [tag_span]. rewrite Htrim.
    by apply filter_ne_delete. }
  split; [done|].
  rewrite tags_shown_plain.
  - change (criteriaList (Part000.removeCriteria {| tag_span := c |} p))
      with (criteria (Part000.removeCriteria {| tag_span := c |} p)).
    rewrite Hcriteria. f_equal. unfold tags_of.
    clear. revert k. generalize (criteria p) as l.
    induction l as [|x l IH]; intros [|k]; cbn; try done. by f_equal.
  - change (criteriaList (Part000.removeCriteria {| tag_span := c |} p))
      with (criteria (Part000.removeCriteria {| tag_span := c |} p)).
    rewrite Hcriteria. clear -Hplain. revert k.
    induction Hplain as [|x l Hx Hl IH]; intros [|k]; cbn; try done.
    constructor; [done|apply IH].
Qed.

(** X3.  On a page into which no markup has been typed, when
    [addCriteria] accepts the text of the input, the last criteria tag of
    the document is then the one of the new name, and [removeCriteria] on
    that tag gives the criteria list back as it was before the
    addition. *)
Theorem addCriteria_then_remove (p : page) :
  trim (newCriteria_value p) ≠ "" →
  trim (newCriteria_value p) ∉ criteria p →
  plainly_typed p →
  tags_shown (Part000.addCriteria p) ≫= last =
    Some {| tag_span := trim (newCriteria_value p) |} ∧
  criteria (Part000.removeCriteria
              {| tag_span := trim (newCriteria_value p) |}
              (Part000.addCriteria p)) = criteria p.
Proof.
  intros Hne Hnew [Hplain Hinput]. rewrite addCriteria_accepted by done. split.
  - rewrite tags_shown_plain.
    + cbn. unfold tags_of. rewrite map_app. cbn. apply last_snoc.
    + cbn. apply Forall_app. split; [done|]. apply Forall_singleton.
      by apply markup_free_trim.
  - rewrite removeCriteria_criteria. cbn [tag_span]. rewrite trim_idempotent.
    change (criteria (set_newCriteria_value "" _))
      with (criteria p ++ [trim (newCriteria_value p)]).
    rewrite filter_app, filter_ne_absent by done.
    rewrite filter_cons_False by (by intros ?). by rewrite app_nil_r.
Qed.

(** X4.  [addCriteria] twice does what [addCriteria] once does.  A text
    that trims to nothing, a text of white space only in particular, or
    to a name already in the list leaves the whole page as it was, the
    input included; an accepted text is appended trimmed, with no white
    space at either end, and the input is emptied. *)
Theorem addCriteria_once (p : page) :
  Part000.addCriteria (Part000.addCriteria p) = Part000.addCriteria p ∧
  (trim (newCriteria_value p) = "" ∨
   trim (newCriteria_value p) ∈ criteria p →
   Part000.addCriteria p = p) ∧
  ((∀ c, c ∈ list_ascii_of_string (newCriteria_value p) →
         is_whitespace c = true) →
   Part000.addCriteria p = p) ∧
  (trim (newCriteria_value p) ≠ "" →
   trim (newCriteria_value p) ∉ criteria p →
   criteria (Part000.addCriteria p) =
     criteria p ++ [trim (newCriteria_value p)] ∧
   newCriteria_value (Part000.addCriteria p) = "" ∧
   starts_clean (trim (newCriteria_value p)) ∧
   starts_clean (String.rev (trim (newCriteria_value p)))).
Proof.
  split; [|split; [|split]].
  - destruct (decide (trim (newCriteria_value p) ≠ "" ∧
                      trim (newCriteria_value p) ∉ criteria p)) as [[Hne Hnew]|Hrej].
    + rewrite (addCriteria_accepted p) by done.
      apply addCriteria_rejected. by left.
    + rewrite (addCriteria_rejected p); [apply addCriteria_rejected| ];
        (destruct (decide (trim (newCriteria_value p) = "")); [by left|];
         right; apply dec_stable; tauto).
  - apply addCriteria_rejected.
  - intros Hws. apply addCriteria_rejected. left. by apply trim_whitespace.
  - intros Hne Hnew. rewrite addCriteria_accepted by done.
    split; [done|]. split; [done|]. apply trim_clean.
Qed.

End Criteria.

(** ** The cases of [calculateWeights] *)

Section Calculate.
Context `{!Runtime}.

(** What [calculateWeights] does, case by case. *)
Lemma calculateWeights_cases net p matrix :
  Ahp.getPairwiseMatrix p = Some matrix →
  (succeeds net ∧
   ∃ data cs w cr is_consistent items,
     net = JsonResolves data ∧
     read_prop data "criteria" = Some (VArr cs) ∧
     read_prop data "weights" = Some w ∧
     read_prop data "consistency_ratio" = Some (VNum cr) ∧
     read_prop data "is_consistent" = Some is_consistent ∧
     weight_items_from w 0 cs = Some items ∧
     Ahp.calculateWeights net p =
     (Returned (),
      rendered (results_html items (ToBoolean is_consistent) (toFixed cr 4))
        (ToBoolean is_consistent) w (VArr cs)
        (set_weights w (send (request_of p matrix) p)))) ∨
  (¬ succeeds net ∧
   ∃ message,
     (Ahp.calculateWeights net p =
      (Returned (), alert message (send (request_of p matrix) p)) ∧
      ∀ data, net = JsonResolves data →
              read_prop data "success" ≠ Some (VBool true)) ∨
     (∃ data data_weights,
        net = JsonResolves data ∧
        read_prop data "success" = Some (VBool true) ∧
        read_prop data "weights" = Some data_weights ∧
        Ahp.calculateWeights net p =
        (Returned (),
         alert message
           (set_weights data_weights (send (request_of p matrix) p))))).
Proof.
  intros Hm. destruct net as [e|e|data].
  1, 2: right; split;
    [intros (data & [=] & _)
    |exists (report e); left; split;
       [unfold Ahp.calculateWeights; by rewrite Hm|by intros data [=]]].
  destruct (calculateWeights_branches_aux data p matrix Hm) as [_ Hbranch].
  cbv zeta in Hbranch.
  destruct (read_prop data "success") as [success|] eqn:Hsuccess; last first.
  { right. split; [intros (data' & [= <-] & Hs & _); congruence|].
    destruct Hbranch as (e & Hrun & _). exists (report e). left.
    split; [done|]. intros data' [= <-]. congruence. }
  destruct success as [| |[|]| | | |].
  4: { right. split; [intros (data' & [= <-] & Hs & _); congruence|].
       destruct Hbranch as [Hrun _].
       destruct (ToString _) as [text|]; [|destruct Hrun as [e Hrun]];
         eexists; left; (split; [exact Hrun|]); intros data' [= <-]; congruence. }
  all: try (right; split; [intros (data' & [= <-] & Hs & _); congruence|];
            destruct Hbranch as [Hrun _]; eexists; left;
            split; [exact Hrun|]; intros data' [= <-]; congruence).
  destruct (read_prop_total _ _ _ "weights" Hsuccess) as [w Hw].
  rewrite Hw in Hbranch. cbn [default from_option id] in Hbranch.
  destruct (displayResults_cases data
              (set_weights w (send (request_of p matrix) p)))
    as [[Hno (e & Hthrown)]
       |[Hyes (cs & w' & cr & b & items & Hcs & Hw' & Hcr & Hb & Hitems & Hrun)]].
  - right. split; [intros (data' & [= <-] & _ & Hr); by apply Hno|].
    exists (report e). right. exists data, w.
    split; [done|]. split; [done|]. split; [done|].
    rewrite Hbranch. unfold try_catch. by rewrite Hthrown.
  - left. split; [by exists data|].
    assert (w' = w) as -> by congruence.
    exists data, cs, w, cr, b, items. do 6 (split; [done|]).
    rewrite Hbranch. unfold try_catch. by rewrite Hrun.
Qed.

End Calculate.

Lemma storage_extended_refl ls : storage_extended ls ls.
Proof. split; [done|]. split; [done|]. done. Qed.

Lemma storage_extended_trans ls1 ls2 ls3 :
  storage_extended ls1 ls2 → storage_extended ls2 ls3 →
  storage_extended ls1 ls3.
Proof.
  intros (Hother12 & Hkeep12 & Hpair12) (Hother23 & Hkeep23 & Hpair23).
  split; [|split].
  - intros key Hw Hc. by rewrite Hother23, Hother12.
  - intros key Hkey. by apply Hkeep23, Hkeep12.
  - intros Hpair. by apply Hpair23, Hpair12.
Qed.

Lemma storage_extended_written (ls : gmap string string) w c :
  storage_extended ls (<["ahp_criteria" := c]> (<["ahp_weights" := w]> ls)).
Proof.
  split; [|split].
  - intros key Hw Hc. by rewrite !lookup_insert_ne.
  - intros key Hkey.
    destruct (decide (key = "ahp_criteria")) as [->|Hc];
      [rewrite lookup_insert_eq; by eexists|rewrite lookup_insert_ne by done].
    destruct (decide (key = "ahp_weights")) as [->|Hw];
      [rewrite lookup_insert_eq; by eexists|by rewrite lookup_insert_ne].
  - intros _. split; intros _.
    + rewrite lookup_insert_eq. by eexists.
    + rewrite lookup_insert_ne by done. rewrite lookup_insert_eq. by eexists.
Qed.

(** ** What rendering and asking for the weights do to the page *)

Section Effects.
Context `{!Runtime}.

Lemma calculateWeights_storage net p :
  storage_extended (localStorage p) (localStorage (Ahp.calculateWeights net p).2).
Proof.
  destruct (getPairwiseMatrix_entries p) as (m & Hm & _).
  destruct (calculateWeights_cases net p m Hm)
    as [[_ (data & cs & w & cr & b & items & _ & _ & _ & _ & _ & _ & ->)]
       |[_ (message & [[-> _]|(data & w & _ & _ & _ & ->)])]].
  - unfold rendered. destruct (ToBoolean b); cbn.
    + apply storage_extended_written.
    + apply storage_extended_refl.
  - apply storage_extended_refl.
  - apply storage_extended_refl.
Qed.

Lemma ahp_run_storage p es :
  storage_extended (localStorage p) (localStorage (Ahp.run p es)).
Proof.
  unfold Ahp.run. revert p. induction es as [|e es IH]; intros p.
  - apply storage_extended_refl.
  - cbn [foldl]. eapply storage_extended_trans; [|apply IH].
    destruct e as [|row k|net]; cbn [Ahp.step].
    + unfold Ahp.generatePairwiseComparisons.
      destruct (length (criteria p) <? 2); apply storage_extended_refl.
    + apply storage_extended_refl.
    + apply calculateWeights_storage.
Qed.

Lemma part000_run_storage p es :
  storage_extended (localStorage p) (localStorage (Part000.run p es)).
Proof.
  unfold Part000.run. revert p. induction es as [|e es IH]; intros p.
  - apply storage_extended_refl.
  - cbn [foldl]. eapply storage_extended_trans; [|apply IH].
    destruct e as [text| |item| |row k|net]; cbn [Part000.step].
    + apply storage_extended_refl.
    + unfold Part000.addCriteria.
      destruct (_ && _); apply storage_extended_refl.
    + apply storage_extended_refl.
    + unfold Part000.generatePairwiseComparisons.
      destruct (length (criteria p) <? 2); apply storage_extended_refl.
    + apply storage_extended_refl.
    + apply calculateWeights_storage.
Qed.

Lemma calculateWeights_fetches net p m :
  Ahp.getPairwiseMatrix p = Some m →
  fetches (Ahp.calculateWeights net p).2 = fetches p ++ [request_of p m].
Proof.
  intros Hm.
  destruct (calculateWeights_cases net p m Hm)
    as [[_ (data & cs & w & cr & b & items & _ & _ & _ & _ & _ & _ & ->)]
       |[_ (message & [[-> _]|(data & w & _ & _ & _ & ->)])]];
    [unfold rendered; by destruct (ToBoolean b)|done|done].
Qed.


(** X6.  [calculateWeights] (of either script) raises exactly one alert
    when the call fails, whatever the failure, and none when it takes
    its success path to the end. *)
Theorem calculateWeights_alerts_on_failure (net : network) (p : page) :
  Part000.calculateWeights net p = Ahp.calculateWeights net p ∧
  (succeeds net →
   alerts (Ahp.calculateWeights net p).2 = alerts p) ∧
  (¬ succeeds net →
   ∃ message,
     alerts (Ahp.calculateWeights net p).2 = alerts p ++ [message]).
Proof.
  split; [done|].
  destruct (getPairwiseMatrix_entries p) as (m & Hm & _).
  destruct (calculateWeights_cases net p m Hm)
    as [[Hyes (data & cs & w & cr & b & items & _ & _ & _ & _ & _ & _ & Hrun)]
       |[Hno (message & [[Hrun _]|(data & w & _ & _ & _ & Hrun)])]];
    rewrite Hrun.
  - split; [|done]. intros _. unfold rendered. by destruct (ToBoolean b).
  - split; [done|]. intros _. by exists message.
  - split; [done|]. intros _. by exists message.
Qed.


(** X8.  On a response with [success] true that can be rendered,
    [calculateWeights] stores [data.weights] in the global [weights] and
    shows the results; it writes the two keys of [localStorage] exactly
    when [data.is_consistent] is truthy (the code tests its truth value,
    not [=== true]), and the results, where the names shown carry no
    markup, hold the Next link exactly then. *)
Theorem calculateWeights_success (data : value) (p : page) :
  read_prop data "success" = Some (VBool true) →
  renderable data →
  ∃ is_consistent data_weights data_criteria,
    read_prop data "is_consistent" = Some is_consistent ∧
    read_prop data "weights" = Some data_weights ∧
    read_prop data "criteria" = Some data_criteria ∧
    (Ahp.calculateWeights (JsonResolves data) p).1 = Returned () ∧
    alerts (Ahp.calculateWeights (JsonResolves data) p).2 = alerts p ∧
    weights (Ahp.calculateWeights (JsonResolves data) p).2 = data_weights ∧
    results_display (Ahp.calculateWeights (JsonResolves data) p).2 = "block" ∧
    (∀ shown,
       results_shown (Ahp.calculateWeights (JsonResolves data) p).2 =
         Some shown →
       (NextBtn "/saw" "Next: SAW Ranking" ∈ shown ↔
        ToBoolean is_consistent = true)) ∧
    localStorage (Ahp.calculateWeights (JsonResolves data) p).2 =
      (if ToBoolean is_consistent
       then <["ahp_criteria" := JSON_stringify data_criteria]>
              (<["ahp_weights" := JSON_stringify data_weights]>
                 (localStorage p))
       else localStorage p).
Proof.
  intros Hsuccess Hrenderable.
  destruct (getPairwiseMatrix_entries p) as (m & Hm & _).
  destruct (calculateWeights_cases (JsonResolves data) p m Hm)
    as [[_ (data' & cs & w & cr & b & items & [= <-] & Hcs & Hw & Hcr & Hb
            & Hitems & Hrun)]
       |[Hno _]].
  - exists b, w, (VArr cs). rewrite Hrun. do 4 (split; [done|]).
    split; [unfold rendered; by destruct (ToBoolean b)|].
    split; [unfold rendered; by destruct (ToBoolean b)|].
    split; [done|]. split; [|cbn [snd]; by rewrite rendered_storage].
    intros shown [-> _]%results_shown_Some. cbn [snd].
    rewrite rendered_results.
    apply results_html_link. intros href text.
    by eapply weight_items_from_no_link.
  - destruct Hno. by exists data.
Qed.

(** X9.  [calculateWeights] assigns the global [weights] before it
    renders: on a response with [success] true that cannot be rendered,
    [weights] holds [data.weights] afterwards, one alert is raised, and
    the results element and [localStorage] are as they were. *)
Theorem calculateWeights_render_failure (data : value) (p : page) :
  read_prop data "success" = Some (VBool true) →
  ¬ renderable data →
  ∃ data_weights message,
    read_prop data "weights" = Some data_weights ∧
    weights (Ahp.calculateWeights (JsonResolves data) p).2 = data_weights ∧
    alerts (Ahp.calculateWeights (JsonResolves data) p).2 =
      alerts p ++ [message] ∧
    results_innerHTML (Ahp.calculateWeights (JsonResolves data) p).2 =
      results_innerHTML p ∧
    results_display (Ahp.calculateWeights (JsonResolves data) p).2 =
      results_display p ∧
    localStorage (Ahp.calculateWeights (JsonResolves data) p).2 =
      localStorage p.
Proof.
  intros Hsuccess Hno.
  destruct (getPairwiseMatrix_entries p) as (m & Hm & _).
  destruct (calculateWeights_cases (JsonResolves data) p m Hm)
    as [[(data' & [= <-] & _ & Hyes) _]
       |[_ (message & [[_ Hne]|(data' & w & [= <-] & _ & Hw & Hrun)])]].
  - done.
  - by destruct (Hne data).
  - exists w, message. by rewrite Hrun.
Qed.

(** X10.  A session of either script changes [localStorage] only at the
    keys ahp_weights and ahp_criteria, never removes a key, and writes
    the two keys together: if the storage it starts from has both or
    neither, so has the storage it ends with. *)
Theorem sessions_extend_storage (storage : gmap string string)
    (ahp_events : list Ahp.event) (part000_events : list Part000.event) :
  storage_extended storage
    (localStorage (Ahp.run (Ahp.initial storage) ahp_events)) ∧
  storage_extended storage
    (localStorage (Part000.run (Part000.initial storage) part000_events)).
Proof.
  split.
  - apply (ahp_run_storage (Ahp.initial storage)).
  - apply (part000_run_storage (Part000.initial storage)).
Qed.

End Effects.

(** ** The document stays as written *)

Section Document.
Context `{!Runtime}.

Lemma check_radio_plain row k rows :
  Forall row_plain rows → Forall row_plain (check_radio row k rows).
Proof.
  intros Hrows. unfold check_radio.
  destruct (rows !! row ≫= λ r, radio_scale r !! k) as [target|]; [|done].
  apply Forall_forall. intros x (a & r & -> & Hr)%elem_of_lookup_imap.
  rewrite Forall_forall in Hrows. apply (Hrows r).
  by eapply list_elem_of_lookup_2.
Qed.

Lemma generate_as_written p :
  Forall markup_free (criteria p) → document_as_written p →
  document_as_written (Ahp.generatePairwiseComparisons p).
Proof.
  intros Hp (Htags & Hrows & Hresults).
  destruct (decide (length (criteria p) < 2)) as [Hn|Hn].
  - by rewrite generatePairwiseComparisons_few.
  - rewrite generatePairwiseComparisons_rows by lia.
    split; [done|]. split; [|done]. by apply generated_rows_plain.
Qed.

Lemma check_as_written row k p :
  document_as_written p →
  document_as_written
    (set_container (check_radio row k (pairwiseComparisonsContainer p)) p).
Proof.
  intros (Htags & Hrows & Hresults).
  split; [done|]. split; [|done]. by apply check_radio_plain.
Qed.

Lemma weight_items_plain w cs index items :
  (∀ c text, c ∈ cs → ToString c = Some text → markup_free text) →
  weight_items_from w index cs = Some items →
  Forall fragment_plain items.
Proof.
  intros Hcs Hitems%weight_items_from_items.
  apply Forall_forall. intros item [k Hk]%list_elem_of_lookup.
  destruct (Forall2_lookup_r _ _ _ _ _ Hitems Hk)
    as (c & Hc & text & weight & Htext & ->).
  cbn. eapply Hcs; [|done]. by eapply list_elem_of_lookup_2.
Qed.

Lemma results_html_plain items b ratio :
  Forall fragment_plain items → Forall fragment_plain (results_html items b ratio).
Proof.
  intros Hitems. unfold results_html.
  apply Forall_app. split; [by apply Forall_singleton|].
  apply Forall_app. split; [done|].
  apply Forall_app. split; [by apply Forall_singleton|].
  destruct b; [by apply Forall_singleton|constructor].
Qed.

Lemma calculateWeights_as_written net p :
  plain_response net → document_as_written p →
  document_as_written (Ahp.calculateWeights net p).2.
Proof.
  intros Hnet (Htags & Hrows & Hresults).
  destruct (getPairwiseMatrix_entries p) as (m & Hm & _).
  destruct (calculateWeights_cases net p m Hm)
    as [[_ (data & cs & w & cr & b & items & Hdata & Hcs & _ & _ & _
            & Hitems & ->)]
       |[_ (message & [[-> _]|(data & w & _ & _ & _ & ->)])]];
    [|done|done].
  split; [unfold rendered; by destruct (ToBoolean b)|].
  split; [unfold rendered; by destruct (ToBoolean b)|].
  cbn [snd]. rewrite rendered_results. apply results_html_plain.
  eapply weight_items_plain; [|exact Hitems].
  intros c text Hc Htext. by eapply Hnet.
Qed.

Lemma ahp_run_as_written p es :
  Forall ahp_plain es → Forall markup_free (criteria p) →
  document_as_written p → document_as_written (Ahp.run p es).
Proof.
  unfold Ahp.run. revert p.
  induction es as [|e es IH]; intros p Hes Hp Hdoc; [done|].
  apply Forall_cons in Hes as [He Hes]. cbn [foldl].
  apply IH; [done|by rewrite ahp_step_criteria|].
  destruct e as [|row k|net]; cbn [Ahp.step].
  - by apply generate_as_written.
  - by apply check_as_written.
  - by apply calculateWeights_as_written.
Qed.

Lemma part000_plain_types e : part000_plain e → types_plain_text e.
Proof. by destruct e. Qed.

Lemma part000_step_as_written p e :
  part000_plain e → plainly_typed p → document_as_written p →
  document_as_written (Part000.step p e).
Proof.
  intros He Hp Hdoc.
  pose proof (part000_step_typed p e (part000_plain_types e He) Hp)
    as [Hnext _].
  destruct Hdoc as (Htags & Hrows & Hresults).
  destruct e as [text| |item| |row k|net]; cbn [Part000.step] in *.
  - done.
  - destruct (decide (trim (newCriteria_value p) ≠ "" ∧
                      trim (newCriteria_value p) ∉ criteria p)) as [[Hne Hnew]|Hrej].
    + rewrite addCriteria_accepted in * by done. by split.
    + rewrite addCriteria_rejected; [by split|].
      destruct (decide (trim (newCriteria_value p) = "")); [by left|].
      right. apply dec_stable. tauto.
  - by split.
  - apply generate_as_written; [by destruct Hp|done].
  - by apply check_as_written.
  - by apply calculateWeights_as_written.
Qed.

Lemma part000_run_as_written p es :
  Forall part000_plain es → plainly_typed p → document_as_written p →
  document_as_written (Part000.run p es).
Proof.
  unfold Part000.run. revert p.
  induction es as [|e es IH]; intros p Hes Hp Hdoc; [done|].
  apply Forall_cons in Hes as [He Hes]. cbn [foldl].
  apply IH; [done| |by apply part000_step_as_written].
  by apply part000_step_typed; [apply part000_plain_types|].
Qed.

Lemma ahp_initial_as_written storage : document_as_written (Ahp.initial storage).
Proof. split; [constructor|]. split; constructor. Qed.

Lemma part000_initial_as_written storage :
  document_as_written (Part000.initial storage).
Proof. split; [apply criteria0_plain|]. split; constructor. Qed.

End Document.

(** ** Selections *)

Section SelectionRows.
Context `{!Runtime}.

Lemma select_row_default p ij :
  select_row 8 (comparison_row_of p ij) = comparison_row_of p ij.
Proof. reflexivity. Qed.

Lemma generated_rows_of_selection p :
  2 ≤ length (criteria p) →
  pairwiseComparisonsContainer (Ahp.generatePairwiseComparisons p) =
  rows_of_selection p (selection_after (length (criteria p)) []).
Proof.
  intros Hn. rewrite generatePairwiseComparisons_rows by done.
  cbn [pairwiseComparisonsContainer set_pairwiseSection_display set_container].
  unfold rows_of_selection, selection_after. cbn [foldl].
  generalize (pairs (length (criteria p))) as l.
  induction l as [|ij l IH]; [done|]. cbn. f_equal. apply IH.
Qed.

Lemma length_scale_radios name : length (scale_radios name) = length scale.
Proof. reflexivity. Qed.

Lemma scale_radios_lookup name b x :
  scale_radios name !! b = Some x →
  input_name x = name ∧
  ∃ v, scale !! b = Some v ∧ input_value x = Number_toString v.
Proof.
  unfold scale_radios. intros (v & text & -> & Hv & _)%lookup_zip_with_Some.
  split; [done|]. by exists v.
Qed.

Lemma set_checked_set_checked b b' x :
  set_checked b (set_checked b' x) = set_checked b x.
Proof. reflexivity. Qed.

(** Checking a radio of a selection gives the selection with that row
    moved to that radio. *)
Lemma check_radio_rows_of_selection p ks row k :
  length ks = length (pairs (length (criteria p))) →
  check_radio row k (rows_of_selection p ks) =
  rows_of_selection p (click ks (row, k)).
Proof.
  intros Hlen.
  unfold check_radio, click. cbn [fst snd].
  destruct (rows_of_selection p ks !! row ≫= λ r, radio_scale r !! k)
    as [target|] eqn:Htarget; last first.
  { (* no such radio *)
    case_decide as Hk; [|done].
    destruct (decide (row < length ks)) as [Hrow|Hrow];
      [|by rewrite list_insert_ge by lia].
    exfalso. unfold rows_of_selection in Htarget.
    rewrite lookup_zip_with in Htarget.
    destruct (lookup_lt_is_Some_2 ks row Hrow) as [kr Hkr].
    destruct (lookup_lt_is_Some_2 (pairs (length (criteria p))) row) as [ij Hij]; [lia|].
    rewrite Hkr, list_lookup_fmap, Hij in Htarget. cbn [mbind option_bind fmap option_fmap option_map select_row set_radio_scale radio_scale comparison_row_of compare_label_left compare_label_right] in Htarget.
    rewrite list_lookup_imap in Htarget.
    destruct (lookup_lt_is_Some_2 (scale_radios (Ahp.compare_name ij.1 ij.2)) k)
      as [x Hx]; [by rewrite length_scale_radios|].
    by rewrite Hx in Htarget. }
  unfold rows_of_selection in Htarget. rewrite lookup_zip_with in Htarget.
  destruct (ks !! row) as [kr|] eqn:Hkr; [|done].
  rewrite list_lookup_fmap in Htarget.
  destruct (pairs (length (criteria p)) !! row) as [ij|] eqn:Hij; [|done].
  cbn [mbind option_bind fmap option_fmap option_map select_row set_radio_scale radio_scale comparison_row_of compare_label_left compare_label_right] in Htarget. rewrite list_lookup_imap in Htarget.
  destruct (scale_radios (Ahp.compare_name ij.1 ij.2) !! k) as [x|] eqn:Hx;
    [|done].
  injection Htarget as <-.
  assert (k < length scale) as Hk.
  { rewrite <- (length_scale_radios (Ahp.compare_name ij.1 ij.2)).
    by eapply lookup_lt_Some. }
  rewrite decide_True by done.
  destruct (scale_radios_lookup _ _ _ Hx) as [Hname _].
  apply list_eq. intros a. unfold rows_of_selection.
  rewrite list_lookup_imap, !lookup_zip_with, list_lookup_insert.
  destruct (ks !! a) as [ka|] eqn:Hka; last first.
  { rewrite decide_False; [done|]. intros [-> _]. congruence. }
  rewrite list_lookup_fmap.
  destruct (pairs (length (criteria p)) !! a) as [ij'|] eqn:Hij'; last first.
  { by case_decide. }
  assert ((if decide (row = a ∧ row < length ks) is left _
           then Some k else Some ka) =
          Some (if decide (a = row) then k else ka)) as ->.
  { destruct (decide (a = row)) as [->|Hne].
    - rewrite decide_True; [done|]. split; [done|by eapply lookup_lt_Some].
    - rewrite decide_False; [done|]. intros [? _]. congruence. }
  cbn [mbind option_bind fmap option_fmap option_map select_row set_radio_scale radio_scale comparison_row_of compare_label_left compare_label_right]. apply (f_equal Some).
  unfold select_row, set_radio_scale.
  cbn [radio_scale compare_label_left compare_label_right comparison_row_of].
  f_equal. apply list_eq. intros b.
  rewrite !list_lookup_imap.
  destruct (scale_radios (Ahp.compare_name ij'.1 ij'.2) !! b) as [y|] eqn:Hy;
    [|done].
  destruct (scale_radios_lookup _ _ _ Hy) as [Hname' _].
  cbn [mbind option_bind fmap option_fmap option_map select_row set_radio_scale radio_scale comparison_row_of compare_label_left compare_label_right]. apply (f_equal Some).
  cbn [input_name set_checked]. rewrite Hname, Hname'.
  destruct (decide (a = row)) as [->|Hne].
  - assert (ij' = ij) as -> by congruence. rewrite String.eqb_refl.
    destruct (decide (b = k)) as [->|Hb].
    + rewrite bool_decide_eq_true_2 by done.
      by rewrite (bool_decide_eq_true_2 (k = k)) by done.
    + rewrite bool_decide_eq_false_2 by tauto.
      by rewrite (bool_decide_eq_false_2 (b = k)) by done.
  - rewrite bool_decide_eq_false_2 by tauto.
    assert (ij' ≠ ij) as Hpair.
    { intros ->. apply Hne.
      by eapply (NoDup_lookup (pairs (length (criteria p))));
        [apply sorted_NoDup|..]. }
    destruct (String.eqb_spec (Ahp.compare_name ij'.1 ij'.2)
                (Ahp.compare_name ij.1 ij.2)) as [Heq|_]; [|done].
    apply compare_name_inj in Heq as [? ?].
    destruct ij, ij'; simpl in *; congruence.
Qed.

Lemma length_click ks rk : length (click ks rk) = length ks.
Proof. unfold click. case_decide; [apply length_insert|done]. Qed.

Lemma length_selection_after n clicks :
  length (selection_after n clicks) = length (pairs n).
Proof.
  unfold selection_after.
  assert (length (replicate (length (pairs n)) 8) = length (pairs n)) as Hlen
    by apply length_replicate.
  revert Hlen. generalize (replicate (length (pairs n)) 8) as ks.
  induction clicks as [|rk clicks IH]; intros ks Hlen; [done|].
  cbn [foldl]. apply IH. by rewrite length_click.
Qed.

End SelectionRows.

Lemma matrix_ext n (m m' : matrix) :
  is_square n m → is_square n m' →
  (∀ a b, a < n → b < n → cell m a b = cell m' a b) →
  m = m'.
Proof.
  intros Hsq Hsq' Hcells. apply list_eq. intros a.
  destruct (decide (a < n)) as [Ha|Ha]; last first.
  { destruct Hsq as [Hlen _], Hsq' as [Hlen' _].
    by rewrite !lookup_ge_None_2 by lia. }
  destruct (lookup_lt_is_Some_2 m a) as [r Hr]; [destruct Hsq; lia|].
  destruct (lookup_lt_is_Some_2 m' a) as [r' Hr']; [destruct Hsq'; lia|].
  rewrite Hr, Hr'. f_equal. apply list_eq. intros b.
  pose proof (is_square_row _ _ _ _ Hsq Hr) as Hlen.
  pose proof (is_square_row _ _ _ _ Hsq' Hr') as Hlen'.
  destruct (decide (b < n)) as [Hb|Hb];
    [|by rewrite !lookup_ge_None_2 by lia].
  specialize (Hcells a b Ha Hb). unfold cell in Hcells.
  by rewrite Hr, Hr' in Hcells.
Qed.

Section ReadBack.
Context `{!Runtime}.

(** The radios of a selection. *)
Lemma inputs_rows_of_selection p ks x :
  x ∈ inputs (rows_of_selection p ks) →
  ∃ a ij ka b v,
    pairs (length (criteria p)) !! a = Some ij ∧ ks !! a = Some ka ∧
    scale !! b = Some v ∧
    input_name x = Ahp.compare_name ij.1 ij.2 ∧
    input_value x = Number_toString v ∧
    input_checked x = bool_decide (b = ka).
Proof.
  unfold inputs. intros Hx%list_elem_of_In.
  apply in_concat in Hx as (l & Hl & Hx).
  apply in_map_iff in Hl as (row & <- & Hrow).
  apply list_elem_of_In, list_elem_of_lookup in Hrow as [a Ha].
  unfold rows_of_selection in Ha.
  apply lookup_zip_with_Some in Ha as (ka & base & -> & Hka & Hbase).
  apply list_lookup_fmap_Some in Hbase as (ij & -> & Hij).
  apply list_elem_of_In in Hx.
  unfold select_row, set_radio_scale in Hx.
  cbn [radio_scale comparison_row_of] in Hx.
  apply elem_of_lookup_imap in Hx as (b & y & -> & Hy).
  apply scale_radios_lookup in Hy as (Hname & v & Hv & Hvalue).
  by exists a, ij, ka, b, v.
Qed.

Lemma rows_of_selection_checked p ks a ij ka :
  pairs (length (criteria p)) !! a = Some ij → ks !! a = Some ka →
  ka < length scale →
  ∃ x, x ∈ inputs (rows_of_selection p ks) ∧
       input_name x = Ahp.compare_name ij.1 ij.2 ∧ input_checked x = true.
Proof.
  intros Hij Hka Hlt.
  destruct (lookup_lt_is_Some_2 (scale_radios (Ahp.compare_name ij.1 ij.2)) ka)
    as [y Hy]; [by rewrite length_scale_radios|].
  exists (set_checked (bool_decide (ka = ka)) y). split; [|split].
  - unfold inputs. apply list_elem_of_In, in_concat.
    exists (radio_scale (select_row ka (comparison_row_of p ij))). split.
    + apply in_map, list_elem_of_In, list_elem_of_lookup. exists a.
      unfold rows_of_selection. apply lookup_zip_with_Some.
      exists ka, (comparison_row_of p ij). split; [done|]. split; [done|].
      by rewrite list_lookup_fmap, Hij.
    + apply list_elem_of_In. unfold select_row, set_radio_scale.
      cbn [radio_scale comparison_row_of].
      apply elem_of_lookup_imap. by exists ka, y.
  - apply scale_radios_lookup in Hy as [Hname _]. exact Hname.
  - cbn. by apply bool_decide_eq_true_2.
Qed.

(** What the checked radio of a pair says, in a selection. *)
Lemma judgment_rows_of_selection p p' ks a i j k v :
  pairwiseComparisonsContainer p' = rows_of_selection p ks →
  pairs (length (criteria p)) !! a = Some (i, j) →
  ks !! a = Some k → scale !! k = Some v →
  judgment p' i j = Some (parseFloat (Number_toString v)).
Proof.
  intros Hrows Hij Hk Hv. unfold judgment, querySelector_checked.
  rewrite Hrows.
  destruct (find _ (inputs (rows_of_selection p ks))) as [x|] eqn:Hfind.
  - apply find_some in Hfind as [Hx Hp]. apply andb_prop in Hp as [Hname Hc].
    apply bool_decide_eq_true in Hname.
    apply list_elem_of_In, inputs_rows_of_selection in Hx
      as (a' & ij' & ka' & b & v' & Hij' & Hka' & Hv' & Hname' & Hvalue & Hchecked).
    rewrite Hname' in Hname. apply compare_name_inj in Hname as [Hi Hj].
    assert (ij' = (i, j)) as -> by (destruct ij'; simpl in *; congruence).
    assert (a' = a) as ->
      by (by eapply (NoDup_lookup (pairs (length (criteria p))));
            [apply sorted_NoDup|..]).
    rewrite Hchecked in Hc. apply bool_decide_eq_true in Hc as ->.
    cbn. rewrite Hvalue. congruence.
  - exfalso.
    destruct (rows_of_selection_checked p ks a (i, j) k Hij Hk)
      as (x & Hx & Hname & Hchecked); [by eapply lookup_lt_Some|].
    apply list_elem_of_In in Hx. eapply find_none in Hfind; [|exact Hx].
    rewrite Hname, Hchecked in Hfind.
    by rewrite bool_decide_eq_true_2 in Hfind.
Qed.

(** The matrix of a selection. *)
Lemma getPairwiseMatrix_rows_of_selection p p' ks :
  pairwiseComparisonsContainer p' = rows_of_selection p ks →
  length (criteria p') = length (criteria p) →
  ∃ m, Ahp.getPairwiseMatrix p' = Some m ∧
       is_square (length (criteria p)) m ∧
       ∀ a i j k v,
         pairs (length (criteria p)) !! a = Some (i, j) →
         ks !! a = Some k → scale !! k = Some v →
         cell m i j = Some (parseFloat (Number_toString v)) ∧
         cell m j i = Some (1 / parseFloat (Number_toString v))%float.
Proof.
  intros Hrows Hlen.
  destruct (getPairwiseMatrix_entries p') as (m & Hm & Hsq & Hcells).
  rewrite Hlen in Hsq, Hcells.
  exists m. split; [done|]. split; [done|].
  intros a i j k v Hij Hk Hv.
  assert (i < j < length (criteria p)) as Hlt
    by (by apply elem_of_pairs, list_elem_of_lookup; exists a).
  rewrite !Hcells by lia.
  rewrite (entry_upper p' i j), (entry_lower p' j i) by lia.
  by rewrite (judgment_rows_of_selection p p' ks a i j k v).
Qed.

End ReadBack.

Section Clicks.
Context `{!Runtime}.

Lemma click_in_scale ks rk :
  Forall (λ k, k < length scale) ks →
  Forall (λ k, k < length scale) (click ks rk).
Proof.
  intros Hks. unfold click. case_decide; [|done]. by apply Forall_insert.
Qed.

Lemma selection_after_in_scale n clicks :
  Forall (λ k, k < length scale) (selection_after n clicks).
Proof.
  unfold selection_after.
  assert (Forall (λ k, k < length scale) (replicate (length (pairs n)) 8))
    as Hks by (apply Forall_replicate; cbn; lia).
  revert Hks. generalize (replicate (length (pairs n)) 8) as ks.
  induction clicks as [|rk clicks IH]; intros ks Hks; [done|].
  cbn [foldl]. by apply IH, click_in_scale.
Qed.

Lemma chosen_is_Some n clicks a :
  a < length (pairs n) → ∃ v, chosen n clicks a = Some v ∧ v ∈ scale.
Proof.
  intros Ha. unfold chosen.
  destruct (lookup_lt_is_Some_2 (selection_after n clicks) a) as [k Hk];
    [by rewrite length_selection_after|].
  rewrite Hk. cbn.
  pose proof (selection_after_in_scale n clicks) as Hks.
  rewrite Forall_forall in Hks.
  destruct (lookup_lt_is_Some_2 scale k) as [v Hv];
    [by apply Hks, (list_elem_of_lookup_2 _ a)|].
  exists v. split; [done|]. by eapply list_elem_of_lookup_2.
Qed.

Lemma ahp_clicks_rows p q ks clicks :
  pairwiseComparisonsContainer q = rows_of_selection p ks →
  length ks = length (pairs (length (criteria p))) →
  pairwiseComparisonsContainer
    (Ahp.run q ((λ rk, Ahp.Check rk.1 rk.2) <$> clicks)) =
    rows_of_selection p (foldl click ks clicks) ∧
  criteria (Ahp.run q ((λ rk, Ahp.Check rk.1 rk.2) <$> clicks)) = criteria q.
Proof.
  unfold Ahp.run. revert q ks.
  induction clicks as [|[row k] clicks IH]; intros q ks Hrows Hlen; [done|].
  cbn [fmap list_fmap foldl Ahp.step fst snd].
  destruct (IH (set_container
                  (check_radio row k (pairwiseComparisonsContainer q)) q)
               (click ks (row, k))) as [Hrows' Hcriteria'].
  - cbn. rewrite Hrows. by apply check_radio_rows_of_selection.
  - by rewrite length_click.
  - split; [exact Hrows'|exact Hcriteria'].
Qed.

Lemma part000_clicks_rows p q ks clicks :
  pairwiseComparisonsContainer q = rows_of_selection p ks →
  length ks = length (pairs (length (criteria p))) →
  pairwiseComparisonsContainer
    (Part000.run q ((λ rk, Part000.Check rk.1 rk.2) <$> clicks)) =
    rows_of_selection p (foldl click ks clicks) ∧
  criteria (Part000.run q ((λ rk, Part000.Check rk.1 rk.2) <$> clicks)) =
    criteria q.
Proof.
  unfold Part000.run. revert q ks.
  induction clicks as [|[row k] clicks IH]; intros q ks Hrows Hlen; [done|].
  cbn [fmap list_fmap foldl Part000.step fst snd].
  destruct (IH (set_container
                  (check_radio row k (pairwiseComparisonsContainer q)) q)
               (click ks (row, k))) as [Hrows' Hcriteria'].
  - cbn. rewrite Hrows. by apply check_radio_rows_of_selection.
  - by rewrite length_click.
  - split; [exact Hrows'|exact Hcriteria'].
Qed.

(** What [getPairwiseMatrix] reads from the rows written for n ≥ 2
    criteria, after any series of clicks on their radios. *)
Lemma rows_read_back (p : page) (clicks : list (nat * nat)) :
  reads_back_scale →
  2 ≤ length (criteria p) →
  ∃ m,
    Ahp.getPairwiseMatrix
      (Ahp.run p (Ahp.Generate :: ((λ rk, Ahp.Check rk.1 rk.2) <$> clicks))) =
      Some m ∧
    Part000.getPairwiseMatrix
      (Part000.run p
         (Part000.Generate :: ((λ rk, Part000.Check rk.1 rk.2) <$> clicks))) =
      Some m ∧
    ∀ a i j,
      pairs (length (criteria p)) !! a = Some (i, j) →
      ∃ v, chosen (length (criteria p)) clicks a = Some v ∧
           cell m i j = Some v ∧ cell m j i = Some (1 / v)%float.
Proof.
  intros Hback Hn.
  pose proof (generated_rows_of_selection p Hn) as Hgen.
  pose proof (generatePairwiseComparisons_criteria p) as Hcrit.
  destruct (ahp_clicks_rows p (Ahp.generatePairwiseComparisons p)
              (selection_after (length (criteria p)) []) clicks Hgen)
    as [Hrows Hcriteria]; [apply length_selection_after|].
  destruct (part000_clicks_rows p (Ahp.generatePairwiseComparisons p)
              (selection_after (length (criteria p)) []) clicks Hgen)
    as [Hrows' Hcriteria']; [apply length_selection_after|].
  change (Ahp.run p (Ahp.Generate :: ?es))
    with (Ahp.run (Ahp.generatePairwiseComparisons p) es).
  change (Part000.run p (Part000.Generate :: ?es))
    with (Part000.run (Ahp.generatePairwiseComparisons p) es).
  set (q := Ahp.run _ _) in *. set (q' := Part000.run _ _) in *.
  destruct (getPairwiseMatrix_rows_of_selection p q _ Hrows)
    as (m & Hm & Hsq & Hcells); [by rewrite Hcriteria, Hcrit|].
  destruct (getPairwiseMatrix_rows_of_selection p q' _ Hrows')
    as (m' & Hm' & Hsq' & Hcells'); [by rewrite Hcriteria', Hcrit|].
  assert (∀ a i j,
            pairs (length (criteria p)) !! a = Some (i, j) →
            i < j < length (criteria p) ∧
            ∃ v, chosen (length (criteria p)) clicks a = Some v ∧
                 cell m i j = Some v ∧ cell m j i = Some (1 / v)%float ∧
                 cell m' i j = Some v ∧ cell m' j i = Some (1 / v)%float)
    as Hall.
  { intros a i j Hij.
    split; [by apply elem_of_pairs, list_elem_of_lookup; exists a|].
    destruct (chosen_is_Some (length (criteria p)) clicks a)
      as (v & Hv & Hscale); [by eapply lookup_lt_Some|].
    exists v. split; [done|]. unfold chosen in Hv.
    destruct (selection_after (length (criteria p)) clicks !! a)
      as [k|] eqn:Hk; [|done]. cbn in Hv.
    unfold reads_back_scale in Hback. rewrite Forall_forall in Hback.
    destruct (Hcells a i j k v Hij Hk Hv) as [Hupper Hlower].
    destruct (Hcells' a i j k v Hij Hk Hv) as [Hupper' Hlower'].
    rewrite (Hback v Hscale) in Hupper, Hlower, Hupper', Hlower'. done. }
  exists m. split; [done|]. split.
  - change (Part000.getPairwiseMatrix q') with (Ahp.getPairwiseMatrix q').
    rewrite Hm'. f_equal.
    apply (matrix_ext (length (criteria p))); [done|done|].
    intros a b Ha Hb.
    destruct (getPairwiseMatrix_entries q) as (m1 & Hm1 & _ & Hentries).
    destruct (getPairwiseMatrix_entries q') as (m2 & Hm2 & _ & Hentries').
    assert (m1 = m) as -> by congruence.
    assert (m2 = m') as -> by congruence.
    rewrite Hcriteria, Hcrit in Hentries.
    rewrite Hcriteria', Hcrit in Hentries'.
    destruct (Nat.lt_total a b) as [Hab|[->|Hba]].
    + assert ((a, b) ∈ pairs (length (criteria p))) as Hin
        by (apply elem_of_pairs; lia).
      apply list_elem_of_lookup in Hin as [r Hr].
      destruct (Hall r a b Hr) as (_ & v & _ & -> & _ & -> & _). done.
    + rewrite Hentries, Hentries' by done. by rewrite !entry_diagonal.
    + assert ((b, a) ∈ pairs (length (criteria p))) as Hin
        by (apply elem_of_pairs; lia).
      apply list_elem_of_lookup in Hin as [r Hr].
      destruct (Hall r b a Hr) as (_ & v & _ & _ & -> & _ & ->). done.
  - intros a i j Hij.
    destruct (Hall a i j Hij) as (_ & v & Hv & Hupper & Hlower & _).
    by exists v.
Qed.

(** X11.  Reading a selection back.  On a page of n ≥ 2 criteria into
    which no markup has been written, after the comparisons have been
    generated and the user has clicked any series of radios, the document
    still holds what was written, and [getPairwiseMatrix] (of either
    script) has, for every pair i < j, the scale value of the radio the
    row of the pair stands at, the last one clicked in it or 1 when none
    was, at [i][j], and its reciprocal at [j][i]. *)
Theorem selection_read_back (p : page) (clicks : list (nat * nat)) :
  reads_back_scale →
  2 ≤ length (criteria p) →
  Forall markup_free (criteria p) →
  document_as_written p →
  document_as_written
    (Ahp.run p (Ahp.Generate :: ((λ rk, Ahp.Check rk.1 rk.2) <$> clicks))) ∧
  ∃ m,
    Ahp.getPairwiseMatrix
      (Ahp.run p (Ahp.Generate :: ((λ rk, Ahp.Check rk.1 rk.2) <$> clicks))) =
      Some m ∧
    Part000.getPairwiseMatrix
      (Part000.run p
         (Part000.Generate :: ((λ rk, Part000.Check rk.1 rk.2) <$> clicks))) =
      Some m ∧
    ∀ a i j,
      pairs (length (criteria p)) !! a = Some (i, j) →
      ∃ v, chosen (length (criteria p)) clicks a = Some v ∧
           cell m i j = Some v ∧ cell m j i = Some (1 / v)%float.
Proof.
  intros Hback Hn Hp Hdoc. split; [|by apply rows_read_back].
  apply ahp_run_as_written; [|done|done].
  apply Forall_cons. split; [done|].
  apply Forall_fmap, Forall_forall. by intros rk _.
Qed.

(** What [getPairwiseMatrix] reads from freshly written rows. *)
Lemma fresh_rows_all_ones (p : page) :
  parseFloat (Number_toString 1) = 1%float →
  2 ≤ length (criteria p) →
  Ahp.getPairwiseMatrix (Ahp.generatePairwiseComparisons p) =
    Some (Array_from_fill (length (criteria p)) 1) ∧
  Part000.getPairwiseMatrix (Part000.generatePairwiseComparisons p) =
    Some (Array_from_fill (length (criteria p)) 1).
Proof.
  intros Hone Hn.
  assert (Ahp.getPairwiseMatrix (Ahp.generatePairwiseComparisons p) =
          Some (Array_from_fill (length (criteria p)) 1)) as Hfresh; [|done].
  pose proof (generated_rows_of_selection p Hn) as Hgen.
  pose proof (generatePairwiseComparisons_criteria p) as Hcrit.
  destruct (getPairwiseMatrix_rows_of_selection p _ _ Hgen)
    as (m & Hm & Hsq & Hcells); [by rewrite Hcrit|].
  rewrite Hm. f_equal.
  apply (matrix_ext (length (criteria p)));
    [done|apply is_square_Array_from_fill|].
  intros a b Ha Hb. rewrite cell_Array_from_fill by done.
  assert (∀ i j, i < j < length (criteria p) →
            cell m i j = Some 1%float ∧ cell m j i = Some 1%float) as Hpair.
  { intros i j Hij.
    assert ((i, j) ∈ pairs (length (criteria p))) as Hin
      by (by apply elem_of_pairs).
    apply list_elem_of_lookup in Hin as [r Hr].
    destruct (Hcells r i j 8 1%float Hr) as [Hupper Hlower].
    - unfold selection_after. cbn [foldl]. apply lookup_replicate_2.
      by eapply lookup_lt_Some.
    - done.
    - rewrite Hone in Hupper, Hlower. done. }
  destruct (Nat.lt_total a b) as [Hab|[->|Hba]].
  - by destruct (Hpair a b) as [? ?]; [lia|].
  - destruct (getPairwiseMatrix_entries (Ahp.generatePairwiseComparisons p))
      as (m1 & Hm1 & _ & Hentries).
    assert (m1 = m) as -> by congruence.
    rewrite Hcrit in Hentries. rewrite Hentries by done.
    by rewrite entry_diagonal.
  - by destruct (Hpair b a) as [? ?]; [lia|].
Qed.

(** X12.  Generating the comparisons resets every judgment: on a page of
    n ≥ 2 criteria into which no markup has been written, whatever was
    selected before, the document holds what was written after
    [generatePairwiseComparisons] (of either script), and
    [getPairwiseMatrix] is then the n-by-n matrix of ones. *)
Theorem fresh_comparisons_all_ones (p : page) :
  parseFloat (Number_toString 1) = 1%float →
  2 ≤ length (criteria p) →
  Forall markup_free (criteria p) →
  document_as_written p →
  document_as_written (Ahp.generatePairwiseComparisons p) ∧
  Ahp.getPairwiseMatrix (Ahp.generatePairwiseComparisons p) =
    Some (Array_from_fill (length (criteria p)) 1) ∧
  Part000.getPairwiseMatrix (Part000.generatePairwiseComparisons p) =
    Some (Array_from_fill (length (criteria p)) 1).
Proof.
  intros Hone Hn Hp Hdoc.
  split; [by apply generate_as_written|by apply fresh_rows_all_ones].
Qed.

End Clicks.

Section Requests.
Context `{!Runtime}.

Lemma getPairwiseMatrix_well_formed p :
  reads_back_scale →
  radio_selection_state (pairwiseComparisonsContainer p) →
  ∃ m, Ahp.getPairwiseMatrix p = Some m ∧
       well_formed_request (request_of p m).
Proof.
  intros Hback Hsel.
  destruct (getPairwiseMatrix_entries p) as (m & Hm & Hsq & Hcells).
  exists m. split; [done|]. split; [done|].
  cbn [request_of req_criteria req_pairwise_matrix].
  intros i j Hi Hj. exists (entry p i j), (entry p j i).
  split; [by apply Hcells|]. split; [by apply Hcells|].
  pose proof scale_positive as Hpos. rewrite Forall_forall in Hpos.
  pose proof scale_reciprocal_twice as Htwice.
  rewrite Forall_forall in Htwice.
  destruct (Nat.lt_total i j) as [Hij|[->|Hji]].
  - rewrite (entry_upper p i j), (entry_lower p j i) by done.
    destruct (judgment p i j) as [v|] eqn:Hv; cbn.
    + pose proof (judgment_on_scale _ _ _ _ Hback Hsel Hv) as Hscale.
      split; [done|]. split; [by apply Hpos|lia].
    + split; [reflexivity|]. split; [reflexivity|done].
  - rewrite entry_diagonal. split; [reflexivity|]. split; [reflexivity|done].
  - rewrite (entry_lower p i j), (entry_upper p j i) by done.
    destruct (judgment p j i) as [v|] eqn:Hv; cbn.
    + pose proof (judgment_on_scale _ _ _ _ Hback Hsel Hv) as Hscale.
      split; [symmetry; by apply Htwice|]. split; [by apply Hpos|lia].
    + split; [reflexivity|]. split; [reflexivity|lia].
Qed.

Lemma calculateWeights_requests (P : request → Prop) net p :
  reads_back_scale →
  radio_selection_state (pairwiseComparisonsContainer p) →
  (∀ m, P (request_of p m)) →
  Forall (λ req, P req ∧ well_formed_request req) (fetches p) →
  Forall (λ req, P req ∧ well_formed_request req)
    (fetches (Ahp.calculateWeights net p).2).
Proof.
  intros Hback Hsel HP Hreqs.
  destruct (getPairwiseMatrix_well_formed p Hback Hsel) as (m & Hm & Hwf).
  rewrite (calculateWeights_fetches net p m Hm).
  apply Forall_app. split; [done|]. apply Forall_singleton. by split.
Qed.

Lemma generatePairwiseComparisons_fetches p :
  fetches (Ahp.generatePairwiseComparisons p) = fetches p.
Proof.
  unfold Ahp.generatePairwiseComparisons.
  by destruct (length (criteria p) <? 2).
Qed.

Lemma ahp_run_requests p es :
  reads_back_scale →
  radio_selection_state (pairwiseComparisonsContainer p) →
  Forall (λ req, (req_url req = "/calculate_ahp" ∧
                  req_criteria req = criteria p) ∧
                 well_formed_request req) (fetches p) →
  Forall (λ req, (req_url req = "/calculate_ahp" ∧
                  req_criteria req = criteria p) ∧
                 well_formed_request req) (fetches (Ahp.run p es)).
Proof.
  intros Hback. unfold Ahp.run. revert p.
  induction es as [|e es IH]; intros p Hsel Hreqs; [done|].
  cbn [foldl].
  rewrite <- (ahp_step_criteria p e). apply IH.
  - apply (ahp_run_selection p [e] Hsel).
  - rewrite ahp_step_criteria.
    destruct e as [|row k|net]; cbn [Ahp.step].
    + by rewrite generatePairwiseComparisons_fetches.
    + done.
    + by apply (calculateWeights_requests
                  (λ req, req_url req = "/calculate_ahp" ∧
                          req_criteria req = criteria p)).
Qed.

Lemma part000_run_requests p es :
  reads_back_scale →
  radio_selection_state (pairwiseComparisonsContainer p) →
  NoDup (criteria p) ∧ "" ∉ criteria p →
  Forall (λ req, (req_url req = "/calculate_ahp" ∧
                  NoDup (req_criteria req) ∧ ("" ∉ req_criteria req)) ∧
                 well_formed_request req) (fetches p) →
  Forall (λ req, (req_url req = "/calculate_ahp" ∧
                  NoDup (req_criteria req) ∧ ("" ∉ req_criteria req)) ∧
                 well_formed_request req) (fetches (Part000.run p es)).
Proof.
  intros Hback. unfold Part000.run. revert p.
  induction es as [|e es IH]; intros p Hsel Hunique Hreqs; [done|].
  cbn [foldl]. apply IH.
  - apply (part000_run_selection p [e] Hsel).
  - by apply part000_step_unique.
  - destruct e as [text| |item| |row k|net]; cbn [Part000.step].
    + done.
    + unfold Part000.addCriteria. by destruct (_ && _).
    + done.
    + change (Part000.generatePairwiseComparisons p)
        with (Ahp.generatePairwiseComparisons p).
      by rewrite generatePairwiseComparisons_fetches.
    + done.
    + change (Part000.calculateWeights net p)
        with (Ahp.calculateWeights net p).
      by apply (calculateWeights_requests
                  (λ req, req_url req = "/calculate_ahp" ∧
                          NoDup (req_criteria req) ∧
                          ("" ∉ req_criteria req))).
Qed.

(** X13.  In a session that brings no markup into the document (the
    user types none, and the criteria of the responses carry none), the
    document holds what was written at every step, and every request
    sent is one the server accepts in shape: it goes to /calculate_ahp
    with a square matrix of the size of its criteria list, with positive
    entries, a unit diagonal and [m[j][i] = 1 / m[i][j]] everywhere.  In
    ahp.js the criteria are the nine of the script; in part_000 they are
    pairwise distinct and none is empty. *)
Theorem session_requests_well_formed (storage : gmap string string)
    (ahp_events : list Ahp.event) (part000_events : list Part000.event) :
  reads_back_scale →
  Forall ahp_plain ahp_events →
  Forall part000_plain part000_events →
  ((∀ k, document_as_written
           (Ahp.run (Ahp.initial storage) (take k ahp_events))) ∧
   ∀ req, req ∈ fetches (Ahp.run (Ahp.initial storage) ahp_events) →
          req_url req = "/calculate_ahp" ∧
          req_criteria req = Ahp.criteria0 ∧
          well_formed_request req) ∧
  ((∀ k, document_as_written
           (Part000.run (Part000.initial storage) (take k part000_events))) ∧
   ∀ req,
     req ∈ fetches (Part000.run (Part000.initial storage) part000_events) →
     req_url req = "/calculate_ahp" ∧
     NoDup (req_criteria req) ∧ ("" ∉ req_criteria req) ∧
     well_formed_request req).
Proof.
  intros Hback Hahp Hpart. split; split.
  - intros k. apply ahp_run_as_written;
      [by apply Forall_take|apply criteria0_plain|apply ahp_initial_as_written].
  - pose proof (ahp_run_requests (Ahp.initial storage) ahp_events Hback
                  (or_introl eq_refl) (Forall_nil_2 _)) as Hreqs.
    rewrite Forall_forall in Hreqs. intros req Hreq.
    destruct (Hreqs req Hreq) as [[Hurl Hcriteria] Hwf]. done.
  - intros k. apply part000_run_as_written;
      [by apply Forall_take|apply initial_typed
      |apply part000_initial_as_written].
  - pose proof (part000_run_requests (Part000.initial storage)
                  part000_events Hback (or_introl eq_refl) criteria0_unique
                  (Forall_nil_2 _)) as Hreqs.
    rewrite Forall_forall in Hreqs. intros req Hreq.
    destruct (Hreqs req Hreq) as [(Hurl & Hnodup & Hne) Hwf]. done.
Qed.

End Requests.

(** ** The ids of the radios *)

Lemma scale_index_lookup b v : scale !! b = Some v → scale_index v = Some b.
Proof.
  intros Hv. assert (b < length scale) as Hb by (by eapply lookup_lt_Some).
  cbn in Hb.
  do 17 (destruct b as [|b]; [injection Hv as <-; reflexivity|]). lia.
Qed.

Lemma replace_dot_inj s s' :
  no_underscore s → no_underscore s' →
  replace "." "_" s = replace "." "_" s' → s = s'.
Proof.
  revert s'. induction s as [|c s IH]; intros [|c' s'] Hs Hs' Heq.
  - done.
  - cbn in Heq. destruct (Ascii.eqb c' "."); discriminate.
  - cbn in Heq. destruct (Ascii.eqb c "."); discriminate.
  - cbn [replace] in Heq. destruct Hs as [Hc Hs], Hs' as [Hc' Hs'].
    destruct (Ascii.eqb_spec c ".") as [->|Hdot],
             (Ascii.eqb_spec c' ".") as [->|Hdot'];
      rewrite ?append_cons, ?append_nil in Heq.
    + by injection Heq as ->.
    + injection Heq as Heq _. by subst.
    + injection Heq as Heq _. by subst.
    + injection Heq as -> Heq. f_equal. by apply IH.
Qed.

Section Ids.
Context `{!Runtime}.

Lemma createRadio_id_inj i j v i' j' v' text text' c c' :
  no_underscore (Number_toString v) → no_underscore (Number_toString v') →
  input_id (Ahp.createRadio (Ahp.compare_name i j) v text c) =
  input_id (Ahp.createRadio (Ahp.compare_name i' j') v' text' c') →
  i = i' ∧ j = j' ∧ Number_toString v = Number_toString v'.
Proof.
  intros Hv Hv'. cbn [input_id Ahp.createRadio]. unfold Ahp.compare_name.
  intros Heq. apply (inj (String.app "radio_")) in Heq.
  rewrite !append_assoc in Heq. apply (inj (String.app "compare_")) in Heq.
  apply append_underscore_inj in Heq as [Hi Heq];
    try apply string_of_uint_no_underscore.
  apply append_underscore_inj in Heq as [Hj Heq];
    try apply string_of_uint_no_underscore.
  apply replace_dot_inj in Heq; [|done|done].
  split; [by apply string_of_nat_inj|]. split; [by apply string_of_nat_inj|done].
Qed.

(** Every radio of freshly generated rows: where it stands. *)
Lemma inputs_generated p x :
  x ∈ inputs (comparison_row_of p <$> pairs (length (criteria p))) →
  ∃ a ij b v text,
    pairs (length (criteria p)) !! a = Some ij ∧ scale !! b = Some v ∧
    x = Ahp.createRadio (Ahp.compare_name ij.1 ij.2) v text (v =? 1)%float.
Proof.
  unfold inputs. intros Hx%list_elem_of_In.
  apply in_concat in Hx as (l & Hl & Hx).
  apply in_map_iff in Hl as (row & <- & Hrow).
  apply list_elem_of_In, list_elem_of_lookup in Hrow as [a Ha].
  apply list_lookup_fmap_Some in Ha as (ij & -> & Hij).
  apply list_elem_of_In, list_elem_of_lookup in Hx as [b Hb].
  cbn [radio_scale comparison_row_of] in Hb. unfold scale_radios in Hb.
  apply lookup_zip_with_Some in Hb as (v & text & -> & Hv & _).
  by exists a, ij, b, v, text.
Qed.

Lemma scale_radios_ids_lookup name b id :
  (input_id <$> scale_radios name) !! b = Some id →
  ∃ v text, scale !! b = Some v ∧
            id = input_id (Ahp.createRadio name v text (v =? 1)%float).
Proof.
  rewrite list_lookup_fmap. unfold scale_radios.
  destruct (zip_with _ scale scale_texts !! b) as [x|] eqn:Hx; [|done].
  apply lookup_zip_with_Some in Hx as (v & text & -> & Hv & _).
  intros [= <-]. by exists v, text.
Qed.

Lemma generated_ids_bind p :
  input_id <$> inputs (comparison_row_of p <$> pairs (length (criteria p))) =
  ij ← pairs (length (criteria p));
  input_id <$> scale_radios (Ahp.compare_name ij.1 ij.2).
Proof.
  unfold inputs. generalize (pairs (length (criteria p))) as l.
  induction l as [|ij l IH]; [done|].
  cbn [fmap list_fmap map concat]. rewrite fmap_app, bind_cons.
  f_equal. apply IH.
Qed.

(** The ids, labels and classes of the radios written for n ≥ 2
    criteria. *)
Lemma written_ids_unique (p : page) :
  reads_back_scale →
  prints_scale_plainly →
  2 ≤ length (criteria p) →
  NoDup (input_id <$>
         inputs (pairwiseComparisonsContainer
                   (Ahp.generatePairwiseComparisons p))) ∧
  Forall (λ x, label_for x = input_id x ∧
               (label_class x = "center-label" ↔ input_checked x = true))
    (inputs (pairwiseComparisonsContainer
               (Ahp.generatePairwiseComparisons p))) ∧
  pairwiseComparisonsContainer (Part000.generatePairwiseComparisons p) =
  pairwiseComparisonsContainer (Ahp.generatePairwiseComparisons p).
Proof.
  intros Hback Hplain Hn. rewrite generatePairwiseComparisons_rows by done.
  cbn [pairwiseComparisonsContainer set_pairwiseSection_display set_container].
  unfold reads_back_scale in Hback. unfold prints_scale_plainly in Hplain.
  rewrite Forall_forall in Hback, Hplain.
  assert (∀ b v, scale !! b = Some v → v ∈ scale) as Hin
    by (intros b v Hv; by eapply list_elem_of_lookup_2).
  split; [|split].
  - rewrite generated_ids_bind. apply NoDup_bind; [| |apply sorted_NoDup].
    + intros [i j] [i' j'] id _ _
        [b Hb]%list_elem_of_lookup [b' Hb']%list_elem_of_lookup.
      cbn [fst snd] in Hb, Hb'.
      apply scale_radios_ids_lookup in Hb as (v & text & Hv & ->).
      apply scale_radios_ids_lookup in Hb' as (v' & text' & Hv' & Hid).
      apply createRadio_id_inj in Hid as (-> & -> & _); eauto.
    + intros [i j] _. apply NoDup_alt. intros b b' id Hb Hb'.
      cbn [fst snd] in Hb, Hb'.
      apply scale_radios_ids_lookup in Hb as (v & text & Hv & ->).
      apply scale_radios_ids_lookup in Hb' as (v' & text' & Hv' & Hid).
      apply createRadio_id_inj in Hid as (_ & _ & Hts); eauto.
      assert (v = v') as <-.
      { rewrite <- (Hback v), <- (Hback v') by eauto. by rewrite Hts. }
      apply scale_index_lookup in Hv, Hv'. congruence.
  - apply Forall_forall. intros x Hx.
    apply inputs_generated in Hx as (a & ij & b & v & text & _ & Hv & ->).
    split; [done|].
    assert (b < length scale) as Hb by (by eapply lookup_lt_Some).
    cbn in Hb.
    do 17 (destruct b as [|b]; [injection Hv as <-; by cbn|]). lia.
  - change (Part000.generatePairwiseComparisons p)
      with (Ahp.generatePairwiseComparisons p).
    by rewrite generatePairwiseComparisons_rows.
Qed.

(** X14.  In the comparisons freshly generated (by either script) for
    n ≥ 2 criteria whose names carry no markup, no two radios of the
    document share an id, every label points at its own radio, and the
    centre-labelled radio of a row is the checked one; the ids are told
    apart by the pair and the scale value, which needs the scale values
    to print differently and without the separator. *)
Theorem generated_ids_unique (p : page) :
  reads_back_scale →
  prints_scale_plainly →
  2 ≤ length (criteria p) →
  Forall markup_free (criteria p) →
  ∃ rows,
    rows_shown (Ahp.generatePairwiseComparisons p) = Some rows ∧
    rows_shown (Part000.generatePairwiseComparisons p) = Some rows ∧
    NoDup (input_id <$> inputs rows) ∧
    Forall (λ x, label_for x = input_id x ∧
                 (label_class x = "center-label" ↔ input_checked x = true))
      (inputs rows).
Proof.
  intros Hback Hprints Hn Hp.
  destruct (written_ids_unique p Hback Hprints Hn) as (Hnodup & Hlabels & _).
  exists (pairwiseComparisonsContainer (Ahp.generatePairwiseComparisons p)).
  assert (rows_shown (Ahp.generatePairwiseComparisons p) =
          Some (pairwiseComparisonsContainer (Ahp.generatePairwiseComparisons p)))
    as Hshown.
  { apply rows_shown_plain.
    rewrite generatePairwiseComparisons_rows by done.
    by apply generated_rows_plain. }
  done.
Qed.

End Ids.

(** ** The labels of the comparisons *)

(** The labels and the names written into the rows of n ≥ 2 criteria. *)
Lemma written_rows_labelled `{!Runtime} (p : page) :
  2 ≤ length (criteria p) →
  Forall2
    (λ ij row,
       criteria p !! ij.1 = Some (compare_label_left row) ∧
       criteria p !! ij.2 = Some (compare_label_right row) ∧
       Forall (λ x, input_name x = Ahp.compare_name ij.1 ij.2)
         (radio_scale row))
    (pairs (length (criteria p)))
    (pairwiseComparisonsContainer (Ahp.generatePairwiseComparisons p)) ∧
  pairwiseComparisonsContainer (Part000.generatePairwiseComparisons p) =
  pairwiseComparisonsContainer (Ahp.generatePairwiseComparisons p).
Proof.
  intros Hn. split; [|reflexivity].
  rewrite generatePairwiseComparisons_rows by done.
  cbn [pairwiseComparisonsContainer set_pairwiseSection_display set_container].
  apply Forall2_fmap_r, Forall_Forall2_diag, Forall_forall.
  intros [i j] Hij%elem_of_pairs. cbn [fst snd].
  destruct (lookup_lt_is_Some_2 (criteria p) i) as [ci Hci]; [lia|].
  destruct (lookup_lt_is_Some_2 (criteria p) j) as [cj Hcj]; [lia|].
  split; [|split].
  - change (criteria p !! i = Some (Ahp.criteria_at p i)).
    unfold Ahp.criteria_at. by rewrite Hci.
  - change (criteria p !! j = Some (Ahp.criteria_at p j)).
    unfold Ahp.criteria_at. by rewrite Hcj.
  - change (Forall (λ x, input_name x = Ahp.compare_name i j)
              (scale_radios (Ahp.compare_name i j))).
    apply Forall_forall. intros x [b Hb]%list_elem_of_lookup.
    by apply scale_radios_lookup in Hb as [Hname _].
Qed.

(** X15.  Every comparison row of the document generated (by either
    script) for n ≥ 2 criteria whose names carry no markup is labelled
    with the two criteria it compares, the i-th on the left and the j-th
    on the right, never with a missing one, and all its radios carry the
    name of the pair (i, j), the one [getPairwiseMatrix] reads into
    [matrix[i][j]]. *)
Theorem generated_rows_labelled `{!Runtime} (p : page) :
  2 ≤ length (criteria p) →
  Forall markup_free (criteria p) →
  ∃ rows,
    rows_shown (Ahp.generatePairwiseComparisons p) = Some rows ∧
    rows_shown (Part000.generatePairwiseComparisons p) = Some rows ∧
    Forall2
      (λ ij row,
         criteria p !! ij.1 = Some (compare_label_left row) ∧
         criteria p !! ij.2 = Some (compare_label_right row) ∧
         Forall (λ x, input_name x = Ahp.compare_name ij.1 ij.2)
           (radio_scale row))
      (pairs (length (criteria p))) rows.
Proof.
  intros Hn Hp.
  exists (pairwiseComparisonsContainer (Ahp.generatePairwiseComparisons p)).
  assert (rows_shown (Ahp.generatePairwiseComparisons p) =
          Some (pairwiseComparisonsContainer (Ahp.generatePairwiseComparisons p)))
    as Hshown.
  { apply rows_shown_plain.
    rewrite generatePairwiseComparisons_rows by done.
    by apply generated_rows_plain. }
  split; [done|]. split; [done|]. by apply written_rows_labelled.
Qed.

(** ** The further properties at work on examples *)

Lemma sample_session_plain :
  Forall types_plain_text
    [Part000.Type_newCriteria "  Genre "; Part000.Add].
Proof. repeat constructor. Defined.

(** X1 on a session that adds a criterion: ten tags, the last one showing
    the new name. *)
Lemma criteriaList_mirrors_witness :
  Forall types_plain_text
    [Part000.Type_newCriteria "  Genre "; Part000.Add] ∧
  tags_shown (@Part000.run sample_runtime (Part000.initial ∅)
                [Part000.Type_newCriteria "  Genre "; Part000.Add]) =
  Some (tags_of (Ahp.criteria0 ++ ["Genre"])).
Proof.
  split; [exact sample_session_plain|].
  exact (@criteriaList_mirrors_criteria sample_runtime ∅
           [Part000.Type_newCriteria "  Genre "; Part000.Add]
           sample_session_plain).
Defined.

(** X2 on the page as loaded: the first tag is the one of Price, and its
    button removes Price. *)
Lemma remove_button_witness :
  Forall types_plain_text [] ∧
  tags_shown (@Part000.run sample_runtime (Part000.initial ∅) []) =
    Some (tags_of Ahp.criteria0) ∧
  tags_of Ahp.criteria0 !! 0 = Some {| tag_span := "Price" |} ∧
  criteria (Part000.removeCriteria {| tag_span := "Price" |}
              (@Part000.run sample_runtime (Part000.initial ∅) [])) =
    delete 0 (criteria (@Part000.run sample_runtime (Part000.initial ∅) [])).
Proof.
  assert (tags_shown (@Part000.run sample_runtime (Part000.initial ∅) []) =
          Some (tags_of Ahp.criteria0)) as Htags by reflexivity.
  split; [constructor|]. split; [exact Htags|]. split; [reflexivity|].
  exact (proj1 (@remove_button_removes_its_criterion sample_runtime ∅ []
                  (tags_of Ahp.criteria0) 0 {| tag_span := "Price" |}
                  (Forall_nil_2 _) Htags eq_refl)).
Defined.

Lemma sample_typed_accepted :
  trim (newCriteria_value sample_typed) ≠ "" ∧
  trim (newCriteria_value sample_typed) ∉ criteria sample_typed.
Proof.
  split.
  - vm_compute. discriminate.
  - apply (bool_decide_unpack _). vm_compute. exact I.
Defined.

Lemma sample_typed_plainly : plainly_typed sample_typed.
Proof. split; repeat constructor. Defined.

(** X3 on the page with a name typed in: it is accepted, and removing
    its tag gives the nine criteria back. *)
Lemma addCriteria_then_remove_witness :
  trim (newCriteria_value sample_typed) ≠ "" ∧
  (trim (newCriteria_value sample_typed) ∉ criteria sample_typed) ∧
  plainly_typed sample_typed ∧
  tags_shown (Part000.addCriteria sample_typed) ≫= last =
    Some {| tag_span := trim (newCriteria_value sample_typed) |} ∧
  criteria (Part000.removeCriteria
              {| tag_span := trim (newCriteria_value sample_typed) |}
              (Part000.addCriteria sample_typed)) = criteria sample_typed.
Proof.
  split; [exact (proj1 sample_typed_accepted)|].
  split; [exact (proj2 sample_typed_accepted)|].
  split; [exact sample_typed_plainly|].
  exact (addCriteria_then_remove sample_typed
           (proj1 sample_typed_accepted) (proj2 sample_typed_accepted)
           sample_typed_plainly).
Defined.

(** X8 on the sample response: it succeeds and can be rendered, and the
    global [weights] holds its weights afterwards. *)
Lemma calculateWeights_success_witness :
  read_prop sample_response "success" = Some (VBool true) ∧
  @renderable sample_runtime sample_response ∧
  weights (@Ahp.calculateWeights sample_runtime
             (JsonResolves sample_response) sample_page).2 =
  VArr [VNum 0.75; VNum 0.25].
Proof.
  split; [reflexivity|]. split; [exact sample_response_renderable|].
  destruct (@calculateWeights_success sample_runtime sample_response
              sample_page eq_refl sample_response_renderable)
    as (b & w & c & _ & Hw & _ & _ & _ & Hweights & _).
  rewrite Hweights. injection Hw as <-. reflexivity.
Defined.

Lemma sample_unrenderable_not_renderable :
  ¬ @renderable sample_runtime sample_unrenderable.
Proof. intros (cs & w & cr & Hcs & _). discriminate. Defined.

(** X9 on the response with nothing to render: [weights] is overwritten
    all the same, and the results element is left alone. *)
Lemma calculateWeights_render_failure_witness :
  read_prop sample_unrenderable "success" = Some (VBool true) ∧
  ¬ @renderable sample_runtime sample_unrenderable ∧
  weights (@Ahp.calculateWeights sample_runtime
             (JsonResolves sample_unrenderable) sample_page).2 = VUndefined ∧
  results_innerHTML (@Ahp.calculateWeights sample_runtime
                       (JsonResolves sample_unrenderable) sample_page).2 =
  results_innerHTML sample_page.
Proof.
  split; [reflexivity|]. split; [exact sample_unrenderable_not_renderable|].
  destruct (@calculateWeights_render_failure sample_runtime
              sample_unrenderable sample_page eq_refl
              sample_unrenderable_not_renderable)
    as (w & message & Hw & Hweights & _ & Hhtml & _).
  split; [|exact Hhtml]. rewrite Hweights. injection Hw as <-. reflexivity.
Defined.

Lemma sample_two_criteria : 2 ≤ length (criteria sample_unrendered).
Proof. repeat constructor. Defined.

Lemma sample_unrendered_as_written : document_as_written sample_unrendered.
Proof. split; [constructor|]. split; constructor. Defined.

(** X11 on the two sample criteria, after a click on the radio of 1/3:
    the matrix holds 1/3 and its reciprocal. *)
Lemma selection_read_back_witness :
  @reads_back_scale sample_runtime ∧
  2 ≤ length (criteria sample_unrendered) ∧
  Forall markup_free (criteria sample_unrendered) ∧
  document_as_written sample_unrendered ∧
  ∃ m,
    @Ahp.getPairwiseMatrix sample_runtime
      (@Ahp.run sample_runtime sample_unrendered
         [Ahp.Generate; Ahp.Check 0 10]) = Some m ∧
    cell m 0 1 = Some (1 / 3)%float ∧
    cell m 1 0 = Some (1 / (1 / 3))%float.
Proof.
  split; [exact sample_reads_back_scale|]. split; [exact sample_two_criteria|].
  split; [exact sample_unrendered_plain|].
  split; [exact sample_unrendered_as_written|].
  destruct (@selection_read_back sample_runtime sample_unrendered [(0, 10)]
              sample_reads_back_scale sample_two_criteria
              sample_unrendered_plain sample_unrendered_as_written)
    as (_ & m & Hm & _ & Hcells).
  exists m. split; [exact Hm|].
  destruct (Hcells 0 0 1 eq_refl) as (v & Hv & Hupper & Hlower).
  injection Hv as <-. split; [exact Hupper|exact Hlower].
Defined.

(** X12 on the two sample criteria. *)
Lemma fresh_comparisons_witness :
  @parseFloat sample_runtime (@Number_toString sample_runtime 1) = 1%float ∧
  2 ≤ length (criteria sample_unrendered) ∧
  Forall markup_free (criteria sample_unrendered) ∧
  document_as_written sample_unrendered ∧
  @Ahp.getPairwiseMatrix sample_runtime
    (@Ahp.generatePairwiseComparisons sample_runtime sample_unrendered) =
  Some (Array_from_fill (length (criteria sample_unrendered)) 1).
Proof.
  split; [reflexivity|]. split; [exact sample_two_criteria|].
  split; [exact sample_unrendered_plain|].
  split; [exact sample_unrendered_as_written|].
  exact (proj1 (proj2 (@fresh_comparisons_all_ones sample_runtime
                         sample_unrendered eq_refl sample_two_criteria
                         sample_unrendered_plain
                         sample_unrendered_as_written))).
Defined.

Lemma sample_events_plain :
  Forall (@ahp_plain sample_runtime)
    [Ahp.Generate; Ahp.Check 0 3;
     Ahp.Calculate (FetchRejects (TypeError "Failed to fetch"))].
Proof.
  repeat constructor. intros data cs c text Hnet. discriminate Hnet.
Defined.

(** X13 on a session of ahp.js that asks for the weights once. *)
Lemma session_requests_witness :
  @reads_back_scale sample_runtime ∧
  Forall (@ahp_plain sample_runtime)
    [Ahp.Generate; Ahp.Check 0 3;
     Ahp.Calculate (FetchRejects (TypeError "Failed to fetch"))] ∧
  Forall (@part000_plain sample_runtime) [] ∧
  ∀ req,
    req ∈ fetches (@Ahp.run sample_runtime (Ahp.initial ∅)
                     [Ahp.Generate; Ahp.Check 0 3;
                      Ahp.Calculate (FetchRejects (TypeError "Failed to fetch"))]) →
    req_url req = "/calculate_ahp" ∧
    req_criteria req = Ahp.criteria0 ∧
    well_formed_request req.
Proof.
  split; [exact sample_reads_back_scale|].
  split; [exact sample_events_plain|]. split; [constructor|].
  exact (proj2 (proj1 (@session_requests_well_formed sample_runtime ∅
                         [Ahp.Generate; Ahp.Check 0 3;
                          Ahp.Calculate
                            (FetchRejects (TypeError "Failed to fetch"))]
                         [] sample_reads_back_scale sample_events_plain
                         (Forall_nil_2 _)))).
Defined.

Lemma sample_prints_scale_plainly : @prints_scale_plainly sample_runtime.
Proof.
  unfold prints_scale_plainly, scale.
  repeat (apply Forall_cons; split; [cbn; repeat split; discriminate|]).
  apply Forall_nil_2.
Defined.

(** X14 on the two sample criteria. *)
Lemma generated_ids_witness :
  @reads_back_scale sample_runtime ∧
  @prints_scale_plainly sample_runtime ∧
  2 ≤ length (criteria sample_unrendered) ∧
  Forall markup_free (criteria sample_unrendered) ∧
  ∃ rows,
    rows_shown (@Ahp.generatePairwiseComparisons sample_runtime
                  sample_unrendered) = Some rows ∧
    NoDup (input_id <$> inputs rows).
Proof.
  split; [exact sample_reads_back_scale|].
  split; [exact sample_prints_scale_plainly|].
  split; [exact sample_two_criteria|].
  split; [exact sample_unrendered_plain|].
  destruct (@generated_ids_unique sample_runtime sample_unrendered
              sample_reads_back_scale sample_prints_scale_plainly
              sample_two_criteria sample_unrendered_plain)
    as (rows & Hrows & _ & Hnodup & _).
  exists rows. split; [exact Hrows|exact Hnodup].
Defined.

(** X15 on the two sample criteria. *)
Lemma generated_rows_labelled_witness :
  2 ≤ length (criteria sample_unrendered) ∧
  Forall markup_free (criteria sample_unrendered) ∧
  ∃ rows,
    rows_shown (@Ahp.generatePairwiseComparisons sample_runtime
                  sample_unrendered) = Some rows ∧
    Forall2
      (λ ij row,
         criteria sample_unrendered !! ij.1 = Some (compare_label_left row) ∧
         criteria sample_unrendered !! ij.2 = Some (compare_label_right row) ∧
         Forall (λ x, input_name x = Ahp.compare_name ij.1 ij.2)
           (radio_scale row))
      (pairs (length (criteria sample_unrendered))) rows.
Proof.
  split; [exact sample_two_criteria|].
  split; [exact sample_unrendered_plain|].
  destruct (@generated_rows_labelled sample_runtime sample_unrendered
              sample_two_criteria sample_unrendered_plain)
    as (rows & Hrows & _ & Hlabelled).
  exists rows. split; [exact Hrows|exact Hlabelled].
Defined.
